(** * Sayinvoice: the invoice model, its calculation engine and its renderers

    A shallow embedding of the logic of the invoice authoring tool
    (the application component, the preview component and [types.ts]),
    followed by the verification of the properties its specification states.

    Conventions of the embedding.
    - A JavaScript number that may be fractional or non-finite is a
      binary64 [float] (Rocq's primitive floats are IEEE-754 doubles, as
      JavaScript's numbers are), with the operations of the platform
      ([Math.floor], [Math.round], [parseInt], ...) defined on its bits.
      A number that the code keeps integral (an item id, an array index,
      the integer part of an amount and the groups cut from it) is a [Z];
      on such values [Math.floor (a / b)] is [a / b] and [a % b] is
      [Z.rem a b], as they are on doubles as long as the values stay below
      2^53, far above the amounts the theorems on the groups speak of.
    - A JavaScript string is a [string] of 8-bit code units (Latin-1).
    - A state update [setX (...)] is explicit state passing. *)

From Stdlib Require Import Ascii String ZArith QArith Lia Floats.
From stdpp Require Import gmap strings list pretty.

Set Warnings "-inexact-float,-register-all".

(** ** Part I. The embedding *)

(** *** The platform: numbers *)

Module JS.

(** The number denoted by an integer literal or an integer-valued
    expression (exact up to 2^53, rounded to nearest beyond). *)
Definition of_Z (z : Z) : float :=
  SF2Prim (binary_normalize prec emax z 0 false).

(** The integer below a finite number: [m * 2^e] shifted onto the integers
    ([Z.shiftl] by a negative amount divides and floors).  Zero for the
    numbers that have no integer value (NaN and the infinities). *)
Definition to_Z (x : float) : Z :=
  match Prim2SF x with
  | S754_finite s m e => Z.shiftl (cond_Zopp s (Z.pos m)) e
  | _ => 0%Z
  end.

(** The global [isFinite] on a number. *)
Definition isFinite (x : float) : bool := PrimFloat.is_finite x.

(** [Math.abs]. *)
Definition Math_abs (x : float) : float := PrimFloat.abs x.

(** [Math.floor]: integers, zeros, NaN and the infinities are returned as
    they are; a number with a fractional part goes to the integer below. *)
Definition Math_floor (x : float) : float :=
  match Prim2SF x with
  | S754_finite s m e =>
      if (e <? 0)%Z then of_Z (Z.shiftl (cond_Zopp s (Z.pos m)) e) else x
  | _ => x
  end.

(** [Math.round]: the nearest integer, a tie going up; a negative number
    that rounds to zero gives the negative zero. *)
Definition Math_round (x : float) : float :=
  match Prim2SF x with
  | S754_finite s m e =>
      if (e <? 0)%Z then
        let z := Z.shiftl (2 * cond_Zopp s (Z.pos m) + 2 ^ (- e))%Z (e - 1) in
        if (z =? 0)%Z && s then PrimFloat.neg_zero else of_Z z
      else x
  | _ => x
  end.

(** [Math.max (0, x)]: NaN is contagious, and the positive zero wins over
    the negative one. *)
Definition Math_max0 (x : float) : float :=
  if PrimFloat.is_nan x then PrimFloat.nan
  else if (x <=? 0)%float then PrimFloat.zero
  else x.

(** [x >= y] on numbers (false as soon as one is NaN). *)
Definition geb (x y : float) : bool := (y <=? x)%float.

End JS.

(** *** The platform: strings *)

Module Str.

(** [s.length]. *)
Definition length (s : string) : nat := String.length s.

(** [s.substring (i, j)] for [i <= j]: both ends are clamped to the string. *)
Definition substring (i j : nat) (s : string) : string :=
  String.substring i (j - i) s.

(** [s.charAt (0)]: the first code unit, or the empty string. *)
Definition charAt0 (s : string) : string :=
  match s with
  | EmptyString => EmptyString
  | String c _ => String c EmptyString
  end.

(** [s.slice (1)]. *)
Definition slice1 (s : string) : string :=
  match s with
  | EmptyString => EmptyString
  | String _ r => r
  end.

Definition upper_ascii (c : ascii) : ascii :=
  let n := nat_of_ascii c in
  if (97 <=? n)%nat && (n <=? 122)%nat then ascii_of_nat (n - 32) else c.

Definition lower_ascii (c : ascii) : ascii :=
  let n := nat_of_ascii c in
  if (65 <=? n)%nat && (n <=? 90)%nat then ascii_of_nat (n + 32) else c.

Fixpoint map_chars (f : ascii -> ascii) (s : string) : string :=
  match s with
  | EmptyString => EmptyString
  | String c r => String (f c) (map_chars f r)
  end.

(** [s.toUpperCase ()] and [s.toLowerCase ()] on the letters a-z and A-Z
    (the code applies them to words it builds itself and to the names of
    the invoice types, which have no other letters). *)
Definition toUpperCase : string -> string := map_chars upper_ascii.
Definition toLowerCase : string -> string := map_chars lower_ascii.

(** [s.replace (c, by)] with a one-character pattern: only the first
    occurrence is replaced. *)
Fixpoint replace_first (c : ascii) (by_ : string) (s : string) : string :=
  match s with
  | EmptyString => EmptyString
  | String d r =>
      if Ascii.eqb d c then by_ +:+ r else String d (replace_first c by_ r)
  end.

(** White space and line terminators among the 8-bit code units:
    TAB, LF, VT, FF, CR, SP and NBSP. *)
Definition is_space (c : ascii) : bool :=
  let n := nat_of_ascii c in
  ((9 <=? n)%nat && (n <=? 13)%nat) || (n =? 32)%nat || (n =? 160)%nat.

Fixpoint trimStart (s : string) : string :=
  match s with
  | EmptyString => EmptyString
  | String c r => if is_space c then trimStart r else s
  end.

(** The string without its trailing white space: a character is kept when
    something that is not white space follows it or it is not white space
    itself. *)
Fixpoint trimEnd (s : string) : string :=
  match s with
  | EmptyString => EmptyString
  | String c r =>
      match trimEnd r with
      | EmptyString => if is_space c then EmptyString else String c EmptyString
      | r' => String c r'
      end
  end.

(** [s.trim ()]. *)
Definition trim (s : string) : string := trimEnd (trimStart s).

(** [xs.join (sep)]. *)
Fixpoint join (sep : string) (xs : list string) : string :=
  match xs with
  | [] => EmptyString
  | [x] => x
  | x :: r => x +:+ sep +:+ join sep r
  end.

(** [s.padStart (2, '0')]. *)
Definition padStart2 (s : string) : string :=
  match String.length s with
  | 0%nat => "00"
  | 1%nat => "0" +:+ s
  | _ => s
  end.

(** [hay.includes (needle)]. *)
Fixpoint contains (needle hay : string) : bool :=
  String.prefix needle hay ||
  match hay with
  | EmptyString => false
  | String _ r => contains needle r
  end.

(** A string is truthy when it is not empty. *)
Definition truthy (s : string) : bool :=
  match s with EmptyString => false | _ => true end.

End Str.

(** *** The platform: numbers read from and written to strings *)

Module Num.

(** The value of a hexadecimal digit. *)
Definition hex_value (c : ascii) : option Z :=
  let n := nat_of_ascii c in
  if (48 <=? n)%nat && (n <=? 57)%nat then Some (Z.of_nat (n - 48))
  else if (97 <=? n)%nat && (n <=? 102)%nat then Some (Z.of_nat (n - 87))
  else if (65 <=? n)%nat && (n <=? 70)%nat then Some (Z.of_nat (n - 55))
  else None.

(** The value of the longest prefix of hexadecimal digits, [None] when the
    string starts with no digit. *)
Fixpoint hex_prefix (s : string) (acc : option Z) : option Z :=
  match s with
  | EmptyString => acc
  | String c r =>
      match hex_value c with
      | Some d => hex_prefix r (Some (16 * default 0%Z acc + d)%Z)
      | None => acc
      end
  end.

(** [parseInt (s, 16)]: leading white space is skipped, then a sign, then
    a [0x] or [0X] prefix; the digits that follow are read as far as they
    go, and NaN is the answer when there is none. *)
Definition parseInt16 (s : string) : float :=
  let s := Str.trimStart s in
  let '(negative, s) :=
    match s with
    | String "-" r => (true, r)
    | String "+" r => (false, r)
    | _ => (false, s)
    end in
  let s :=
    match s with
    | String "0" (String "x" r) | String "0" (String "X" r) => r
    | _ => s
    end in
  match hex_prefix s None with
  | None => PrimFloat.nan
  | Some v => if negative then (- JS.of_Z v)%float else JS.of_Z v
  end.

Definition hex_digit (d : Z) : ascii :=
  if (d <? 10)%Z then ascii_of_nat (Z.to_nat d + 48)
  else ascii_of_nat (Z.to_nat d + 87).

Fixpoint hex_digits (fuel : nat) (z : Z) (acc : string) : string :=
  match fuel with
  | O => acc
  | S fuel' =>
      if (z =? 0)%Z then acc
      else hex_digits fuel' (z / 16)%Z (String (hex_digit (z mod 16)%Z) acc)
  end.

(** The hexadecimal numeral of a natural number (lower-case digits; a
    number of [k] bits has at most [k] digits). *)
Definition hex_of_Z (z : Z) : string :=
  if (z =? 0)%Z then "0"
  else hex_digits (S (Z.to_nat (Z.log2 z))) z EmptyString.

(** [x.toString (16)] for a number without fractional part, which is what
    [Math.floor] hands to it. *)
Definition toString16 (x : float) : string :=
  if PrimFloat.is_nan x then "NaN"
  else if PrimFloat.is_infinity x then
    if (x <? 0)%float then "-Infinity" else "Infinity"
  else
    let z := JS.to_Z x in
    if (z <? 0)%Z then "-" +:+ hex_of_Z (- z) else hex_of_Z z.

End Num.

(** *** The data model ([types.ts]) *)

Module Business.
Record t := mk { name : string; address : string; email : string }.
End Business.

Module Client.
Record t := mk { name : string; address : string; email : string }.
End Client.

Module Item.
Record t := mk {
  id : Z;
  description : string;
  quantity : float;
  price : float;
  hsn : string
}.
End Item.

Module BankDetails.
Record t := mk {
  name : string;
  accountNumber : string;
  bankName : string;
  ifscCode : string;
  upiId : option string
}.
End BankDetails.

Inductive InvoiceType :=
  | Invoice_ | Tax_Invoice | Quotation | Proforma_Invoice | Estimate.

Definition InvoiceType_string (t : InvoiceType) : string :=
  match t with
  | Invoice_ => "Invoice"
  | Tax_Invoice => "Tax Invoice"
  | Quotation => "Quotation"
  | Proforma_Invoice => "Proforma Invoice"
  | Estimate => "Estimate"
  end.

Inductive Currency := INR | USD | EUR | GBP.

Module Invoice.
Record t := mk {
  logo : option string;
  invoiceType : InvoiceType;
  invoiceNumber : string;
  date : string;
  dueDate : string;
  business : Business.t;
  client : Client.t;
  items : list Item.t;
  cgstRate : float;
  sgstRate : float;
  igstRate : float;
  taxRate : float;
  discountRate : float;
  currency : Currency;
  bankDetails : BankDetails.t;
  notes : string;
  themeColor : string
}.
End Invoice.

(** *** The application component *)

Definition DEFAULT_THEME_COLOR : string := "#10B981".

Definition getInitialInvoiceState : Invoice.t :=
  {| Invoice.logo := None;
     Invoice.invoiceType := Invoice_;
     Invoice.invoiceNumber := "";
     Invoice.date := "";
     Invoice.dueDate := "";
     Invoice.business := Business.mk "" "" "";
     Invoice.client := Client.mk "" "" "";
     Invoice.items := [ Item.mk 1 "" 0 0 "" ];
     Invoice.cgstRate := 0;
     Invoice.sgstRate := 0;
     Invoice.igstRate := 0;
     Invoice.taxRate := 0;
     Invoice.discountRate := 0;
     Invoice.currency := INR;
     Invoice.bankDetails := BankDetails.mk "" "" "" "" (Some "");
     Invoice.notes := "";
     Invoice.themeColor := DEFAULT_THEME_COLOR |}.

(** A key of the invoice together with a value of the key's type: the two
    arguments of [handleInvoiceChange]. *)
Inductive Change :=
  | Set_logo (v : option string)
  | Set_invoiceType (v : InvoiceType)
  | Set_invoiceNumber (v : string)
  | Set_date (v : string)
  | Set_dueDate (v : string)
  | Set_business (v : Business.t)
  | Set_client (v : Client.t)
  | Set_items (v : list Item.t)
  | Set_cgstRate (v : float)
  | Set_sgstRate (v : float)
  | Set_igstRate (v : float)
  | Set_taxRate (v : float)
  | Set_discountRate (v : float)
  | Set_currency (v : Currency)
  | Set_bankDetails (v : BankDetails.t)
  | Set_notes (v : string)
  | Set_themeColor (v : string).

(** [setInvoice (prev => ({ ...prev, [key]: value }))]. *)
Definition handleInvoiceChange (ch : Change) (prev : Invoice.t) : Invoice.t :=
  let 'Invoice.mk lg ty nr dt du bs cl it cg sg ig tx ds cu bk nt th := prev in
  match ch with
  | Set_logo v => Invoice.mk v ty nr dt du bs cl it cg sg ig tx ds cu bk nt th
  | Set_invoiceType v => Invoice.mk lg v nr dt du bs cl it cg sg ig tx ds cu bk nt th
  | Set_invoiceNumber v => Invoice.mk lg ty v dt du bs cl it cg sg ig tx ds cu bk nt th
  | Set_date v => Invoice.mk lg ty nr v du bs cl it cg sg ig tx ds cu bk nt th
  | Set_dueDate v => Invoice.mk lg ty nr dt v bs cl it cg sg ig tx ds cu bk nt th
  | Set_business v => Invoice.mk lg ty nr dt du v cl it cg sg ig tx ds cu bk nt th
  | Set_client v => Invoice.mk lg ty nr dt du bs v it cg sg ig tx ds cu bk nt th
  | Set_items v => Invoice.mk lg ty nr dt du bs cl v cg sg ig tx ds cu bk nt th
  | Set_cgstRate v => Invoice.mk lg ty nr dt du bs cl it v sg ig tx ds cu bk nt th
  | Set_sgstRate v => Invoice.mk lg ty nr dt du bs cl it cg v ig tx ds cu bk nt th
  | Set_igstRate v => Invoice.mk lg ty nr dt du bs cl it cg sg v tx ds cu bk nt th
  | Set_taxRate v => Invoice.mk lg ty nr dt du bs cl it cg sg ig v ds cu bk nt th
  | Set_discountRate v => Invoice.mk lg ty nr dt du bs cl it cg sg ig tx v cu bk nt th
  | Set_currency v => Invoice.mk lg ty nr dt du bs cl it cg sg ig tx ds v bk nt th
  | Set_bankDetails v => Invoice.mk lg ty nr dt du bs cl it cg sg ig tx ds cu v nt th
  | Set_notes v => Invoice.mk lg ty nr dt du bs cl it cg sg ig tx ds cu bk v th
  | Set_themeColor v => Invoice.mk lg ty nr dt du bs cl it cg sg ig tx ds cu bk nt v
  end.

(** [newItems[index] = updatedItem] on a copy of the items: an index inside
    the array replaces, the index just past the end appends, and an index
    further out would leave holes in the array, which is then no longer a
    sequence of items ([None]). *)
Definition assign_index (items : list Item.t) (index : nat) (updatedItem : Item.t)
  : option (list Item.t) :=
  if (index <? length items)%nat then Some (<[index := updatedItem]> items)
  else if (index =? length items)%nat then Some (items ++ [updatedItem])
  else None.

Definition handleItemChange (index : nat) (updatedItem : Item.t) (invoice : Invoice.t)
  : option Invoice.t :=
  newItems ← assign_index (Invoice.items invoice) index updatedItem;
  Some (handleInvoiceChange (Set_items newItems) invoice).

(** [handleAddItem]; [now] is what [new Date ().getTime ()] answers, the
    milliseconds of the clock. *)
Definition handleAddItem (now : Z) (invoice : Invoice.t) : Invoice.t :=
  let newItem := Item.mk now "" 0 0 "" in
  handleInvoiceChange (Set_items (Invoice.items invoice ++ [newItem])) invoice.

(** [handleRemoveItem]: [items.filter (item => item.id !== id)]. *)
Definition handleRemoveItem (id : Z) (invoice : Invoice.t) : Invoice.t :=
  let filteredItems :=
    List.filter (fun item => negb (Item.id item =? id)%Z) (Invoice.items invoice) in
  handleInvoiceChange (Set_items filteredItems) invoice.

Definition handleRemoveLogo (invoice : Invoice.t) : Invoice.t :=
  handleInvoiceChange (Set_themeColor DEFAULT_THEME_COLOR)
    (handleInvoiceChange (Set_logo None) invoice).

(** The totals the preview shows. *)
Record Calculations := mkCalculations {
  subtotal : float;
  discountAmount : float;
  taxAmount : float;
  total : float;
  cgstAmount : float;
  sgstAmount : float;
  igstAmount : float;
  genericTaxAmount : float
}.

Definition calculations (invoice : Invoice.t) : Calculations :=
  let subtotal :=
    fold_left (fun acc item => acc + Item.quantity item * Item.price item)%float
      (Invoice.items invoice) 0%float in
  let discountAmount := (subtotal * (Invoice.discountRate invoice / 100))%float in
  let taxableAmount := (subtotal - discountAmount)%float in
  let cgstAmount := (taxableAmount * (Invoice.cgstRate invoice / 100))%float in
  let sgstAmount := (taxableAmount * (Invoice.sgstRate invoice / 100))%float in
  let igstAmount := (taxableAmount * (Invoice.igstRate invoice / 100))%float in
  let genericTaxAmount := (taxableAmount * (Invoice.taxRate invoice / 100))%float in
  let taxAmount := (cgstAmount + sgstAmount + igstAmount + genericTaxAmount)%float in
  let total := (taxableAmount + taxAmount)%float in
  {| subtotal := subtotal; discountAmount := discountAmount; taxAmount := taxAmount;
     total := total; cgstAmount := cgstAmount; sgstAmount := sgstAmount;
     igstAmount := igstAmount; genericTaxAmount := genericTaxAmount |}.

(** *** The preview component: amounts in words and contrast *)

Definition ones : list string :=
  [""; "one"; "two"; "three"; "four"; "five"; "six"; "seven"; "eight"; "nine";
   "ten"; "eleven"; "twelve"; "thirteen"; "fourteen"; "fifteen"; "sixteen";
   "seventeen"; "eighteen"; "nineteen"].

Definition tens : list string :=
  [""; ""; "twenty"; "thirty"; "forty"; "fifty"; "sixty"; "seventy"; "eighty";
   "ninety"].

(** [xs[i]] spliced into a string: an index outside the array reads
    [undefined], which concatenates as the word "undefined". *)
Definition at_index (xs : list string) (i : Z) : string :=
  if (i <? 0)%Z then "undefined" else nth (Z.to_nat i) xs "undefined".

Definition convertLessThanOneThousand (n : Z) : string :=
  let currentWords := "" in
  let '(currentWords, n) :=
    if (n >=? 100)%Z then
      let currentWords := currentWords +:+ (at_index ones (n / 100) +:+ " hundred") in
      let n := Z.rem n 100 in
      if (n >? 0)%Z then (currentWords +:+ " and ", n) else (currentWords, n)
    else (currentWords, n) in
  if (n >? 0)%Z then
    if (n <? 20)%Z then currentWords +:+ at_index ones n
    else
      let currentWords := currentWords +:+ at_index tens (n / 10) in
      if (Z.rem n 10 >? 0)%Z then currentWords +:+ (" " +:+ at_index ones (Z.rem n 10))
      else currentWords
  else currentWords.

(** [s.charAt (0).toUpperCase () + s.slice (1)]. *)
Definition capitalize (s : string) : string :=
  Str.toUpperCase (Str.charAt0 s) +:+ Str.slice1 s.

(** The block of [toWords] that fills [rupeesInWords] from the integer
    part: the groups are cut off [tempNum] from the largest down and pushed
    onto [wordsArray]. *)
Definition rupeesInWords (numberPart : Z) : string :=
  if (numberPart >? 0)%Z then
    let wordsArray : list string := [] in
    let tempNum := numberPart in
    let crore := (tempNum / 10000000)%Z in
    let '(wordsArray, tempNum) :=
      if (crore >? 0)%Z
      then (wordsArray ++ [convertLessThanOneThousand crore +:+ " crore"],
            Z.rem tempNum 10000000)
      else (wordsArray, tempNum) in
    let lakh := (tempNum / 100000)%Z in
    let '(wordsArray, tempNum) :=
      if (lakh >? 0)%Z
      then (wordsArray ++ [convertLessThanOneThousand lakh +:+ " lakh"],
            Z.rem tempNum 100000)
      else (wordsArray, tempNum) in
    let thousand := (tempNum / 1000)%Z in
    let '(wordsArray, tempNum) :=
      if (thousand >? 0)%Z
      then (wordsArray ++ [convertLessThanOneThousand thousand +:+ " thousand"],
            Z.rem tempNum 1000)
      else (wordsArray, tempNum) in
    let wordsArray :=
      if (tempNum >? 0)%Z then wordsArray ++ [convertLessThanOneThousand tempNum]
      else wordsArray in
    Str.join " " wordsArray
  else "".

(** The body of [toWords] from the point where the integer part and the
    hundredths are known. *)
Definition toWords_parts (numberPart decimalPart : Z) : string :=
  if (numberPart =? 0)%Z && (decimalPart =? 0)%Z then "Zero Rupees Only"
  else
    let rupeesInWords := rupeesInWords numberPart in
    let result := "" in
    let result :=
      if Str.truthy rupeesInWords then capitalize rupeesInWords +:+ " Rupees"
      else result in
    let result :=
      if (decimalPart >? 0)%Z then
        let paiseInWords := convertLessThanOneThousand decimalPart in
        let result := if Str.truthy result then result +:+ " and " else result in
        result +:+ (capitalize paiseInWords +:+ " Paise")
      else result in
    Str.trim result +:+ " Only".

(** [toWords]; the function calls itself on the absolute value of a
    negative amount, so [depth] bounds the nesting of calls ([None] when
    it is used up). *)
Fixpoint toWords_rec (depth : nat) (num : float) : option string :=
  match depth with
  | O => None
  | S depth' =>
      if negb (JS.isFinite num) then Some "Invalid Number"
      else if (num <? 0)%float then
        w ← toWords_rec depth' (JS.Math_abs num); Some ("Minus " +:+ w)
      else
        let numberPart := JS.Math_floor num in
        let decimalPart := JS.Math_round ((num - numberPart) * 100)%float in
        Some (toWords_parts (JS.to_Z numberPart) (JS.to_Z decimalPart))
  end.

(** Two nested calls are all a call ever makes. *)
Definition toWords (num : float) : option string := toWords_rec 2 num.

Definition getContrastColor (hexColor : string) : string :=
  if negb (Str.truthy hexColor) then "#ffffff"
  else
    let hex := Str.replace_first "#" "" hexColor in
    if negb (Str.length hex =? 6)%nat then "#ffffff"
    else
      let r := Num.parseInt16 (Str.substring 0 2 hex) in
      let g := Num.parseInt16 (Str.substring 2 4 hex) in
      let b := Num.parseInt16 (Str.substring 4 6 hex) in
      let yiq := (((r * 299) + (g * 587) + (b * 114)) / 1000)%float in
      if JS.geb yiq 128 then "#000000" else "#ffffff".

(** *** The application component: the hover colour *)

Definition darkenColor (hex : string) (percent : float) : string :=
  if negb (Str.truthy hex) || (Str.length hex <? 7)%nat then hex
  else
    let R := Num.parseInt16 (Str.substring 1 3 hex) in
    let G := Num.parseInt16 (Str.substring 3 5 hex) in
    let B := Num.parseInt16 (Str.substring 5 7 hex) in
    let factor := ((100 - percent) / 100)%float in
    let R := JS.Math_max0 (JS.Math_floor (R * factor)) in
    let G := JS.Math_max0 (JS.Math_floor (G * factor)) in
    let B := JS.Math_max0 (JS.Math_floor (B * factor)) in
    let RR := Str.padStart2 (Num.toString16 R) in
    let GG := Str.padStart2 (Num.toString16 G) in
    let BB := Str.padStart2 (Num.toString16 B) in
    "#" +:+ RR +:+ GG +:+ BB.

(** *** The draft store: values as [JSON.parse] gives them *)

Module Json.

Inductive value :=
  | Null
  | Bool (b : bool)
  | Number (x : float)
  | String_ (s : string)
  | Array (xs : list value)
  | Object (fields : gmap string value).

(** What a property read gives: a value or [undefined]. *)
Definition property := option value.

(** The own enumerable properties, which is what a spread copies: the
    fields of an object, the elements of an array and the characters of a
    string under their indices, nothing for the other values. *)
Definition indexed {A} (f : A -> value) (xs : list A) : gmap string value :=
  list_to_map (imap (fun i x => (pretty i, f x)) xs).

Definition own_properties (v : value) : gmap string value :=
  match v with
  | Object fields => fields
  | Array xs => indexed (fun x => x) xs
  | String_ s => indexed (fun c => String_ (String c EmptyString)) (list_ascii_of_string s)
  | Null | Bool _ | Number _ => ∅
  end.

(** Truthiness, as [||] tests it. *)
Definition truthy (p : property) : bool :=
  match p with
  | None | Some Null => false
  | Some (Bool b) => b
  | Some (Number x) => negb (PrimFloat.is_nan x || (x =? 0)%float)
  | Some (String_ s) => Str.truthy s
  | Some (Array _) | Some (Object _) => true
  end.

End Json.

(** What evaluating an expression comes to. *)
Inductive exn := SyntaxError | TypeError | SecurityError.

Inductive outcome (A : Type) :=
  | Returns (a : A)
  | Throws (e : exn).
Arguments Returns {A} a.
Arguments Throws {A} e.

#[global] Instance outcome_bind : MBind outcome := fun A B k m =>
  match m with
  | Returns a => k a
  | Throws e => Throws e
  end.

(** [try { body } catch (e) { handler }]. *)
Definition try_catch {A} (body : outcome A) (handler : exn -> outcome A) : outcome A :=
  match body with
  | Returns a => Returns a
  | Throws e => handler e
  end.

(** [v.key] for a key that is neither an index nor [length]: reading a
    property of [null] throws, an object answers with its field, and the
    other values have no such property. *)
Definition get_property (v : Json.value) (key : string) : outcome Json.property :=
  match v with
  | Json.Null => Throws TypeError
  | Json.Object fields => Returns (fields !! key)
  | _ => Returns None
  end.

(** The invoice as the object that the state holds and [JSON.stringify]
    writes. *)
Definition Business_object (b : Business.t) : Json.value :=
  Json.Object (list_to_map
    [("name", Json.String_ (Business.name b));
     ("address", Json.String_ (Business.address b));
     ("email", Json.String_ (Business.email b))]).

Definition Client_object (c : Client.t) : Json.value :=
  Json.Object (list_to_map
    [("name", Json.String_ (Client.name c));
     ("address", Json.String_ (Client.address c));
     ("email", Json.String_ (Client.email c))]).

Definition Item_object (i : Item.t) : Json.value :=
  Json.Object (list_to_map
    [("id", Json.Number (JS.of_Z (Item.id i)));
     ("description", Json.String_ (Item.description i));
     ("quantity", Json.Number (Item.quantity i));
     ("price", Json.Number (Item.price i));
     ("hsn", Json.String_ (Item.hsn i))]).

Definition BankDetails_object (b : BankDetails.t) : Json.value :=
  Json.Object (list_to_map
    ([("name", Json.String_ (BankDetails.name b));
      ("accountNumber", Json.String_ (BankDetails.accountNumber b));
      ("bankName", Json.String_ (BankDetails.bankName b));
      ("ifscCode", Json.String_ (BankDetails.ifscCode b))]
     ++ match BankDetails.upiId b with
        | Some u => [("upiId", Json.String_ u)]
        | None => []
        end)).

Definition Currency_string (c : Currency) : string :=
  match c with INR => "INR" | USD => "USD" | EUR => "EUR" | GBP => "GBP" end.

Definition Invoice_object (i : Invoice.t) : gmap string Json.value :=
  list_to_map
    [("logo", match Invoice.logo i with
              | Some l => Json.String_ l
              | None => Json.Null
              end);
     ("invoiceType", Json.String_ (InvoiceType_string (Invoice.invoiceType i)));
     ("invoiceNumber", Json.String_ (Invoice.invoiceNumber i));
     ("date", Json.String_ (Invoice.date i));
     ("dueDate", Json.String_ (Invoice.dueDate i));
     ("business", Business_object (Invoice.business i));
     ("client", Client_object (Invoice.client i));
     ("items", Json.Array (Item_object <$> Invoice.items i));
     ("cgstRate", Json.Number (Invoice.cgstRate i));
     ("sgstRate", Json.Number (Invoice.sgstRate i));
     ("igstRate", Json.Number (Invoice.igstRate i));
     ("taxRate", Json.Number (Invoice.taxRate i));
     ("discountRate", Json.Number (Invoice.discountRate i));
     ("currency", Json.String_ (Currency_string (Invoice.currency i)));
     ("bankDetails", BankDetails_object (Invoice.bankDetails i));
     ("notes", Json.String_ (Invoice.notes i));
     ("themeColor", Json.String_ (Invoice.themeColor i))].

(** [localStorage]: the texts stored under their keys, or a storage that
    the browser denies to the page, the access to which throws a
    [SecurityError]. *)
Inductive Storage :=
  | available (items : gmap string string)
  | denied.

(** [localStorage.getItem (key)]; it answers [null] ([None]) for a key
    that has no text. *)
Definition getItem (localStorage : Storage) (key : string) : outcome (option string) :=
  match localStorage with
  | available items => Returns (items !! key)
  | denied => Throws SecurityError
  end.

Section DraftStore.

(** [JSON.parse], the platform's parser: it returns the value a text
    denotes or throws a [SyntaxError]. *)
Variable JSON_parse : string -> outcome Json.value.

(** [loadInitialState].  The storage is read before the [try] block, so
    what that read throws reaches the caller; what the parser and the
    property read throw is caught. *)
Definition loadInitialState (localStorage : Storage)
  : outcome (gmap string Json.value) :=
  let defaults := Invoice_object getInitialInvoiceState in
  savedDraft ← getItem localStorage "invoiceDraft";
  match savedDraft with
  | Some text =>
      if Str.truthy text then
        try_catch
          (parsed ← JSON_parse text;
           themeColor ← get_property parsed "themeColor";
           Returns (<["themeColor" :=
                        if Json.truthy themeColor
                        then default Json.Null themeColor
                        else Json.String_ DEFAULT_THEME_COLOR]>
                      (Json.own_properties parsed ∪ defaults)))
          (fun e => Returns defaults)
      else Returns defaults
  | None => Returns defaults
  end.

End DraftStore.

(** *** The application component: the export *)

Inductive FeedbackType := success | error.

Record Feedback := mkFeedback { message : string; type : FeedbackType }.

Definition Blob := string.

(** The state updates and the calls into the browser that a handler makes. *)
Inductive action :=
  | setFeedback (f : option Feedback)
  | setIsDownloading (b : bool)
  | setTimeout (callback : action) (ms : Z)
  | download (filename : string) (blob : Blob).

(** How rasterising the preview and assembling the document ends: there is
    no preview element, the pipeline throws, or it yields the document. *)
Inductive rendering := no_preview | render_fails | rendered (blob : Blob).

(** A handler: actions in sequence, with [await] points at which the
    handler is suspended until the browser answers. *)
Inductive program :=
  | done
  | perform (a : action) (k : program)
  | await_rendering (k : rendering -> program).

Definition showFeedback (message : string) (type : FeedbackType) (k : program) : program :=
  perform (setFeedback (Some (mkFeedback message type)))
    (perform (setTimeout (setFeedback None) 3000) k).

Definition generatePdfBlob (k : option Blob -> program) : program :=
  await_rendering (fun r =>
    match r with
    | no_preview => k None
    | rendered blob => k (Some blob)
    | render_fails =>
        showFeedback "Failed to generate PDF. Please try again." error (k None)
    end).

Definition handleDownloadPdf (invoice : Invoice.t) : program :=
  if String.eqb (Str.trim (Invoice.invoiceNumber invoice)) "" then
    showFeedback "Invoice number cannot be empty." error done
  else
    perform (setIsDownloading true)
      (generatePdfBlob (fun blob =>
         let k := perform (setIsDownloading false) done in
         match blob with
         | Some blob =>
             perform (download
               (Str.replace_first " " "-"
                  (Str.toLowerCase (InvoiceType_string (Invoice.invoiceType invoice)))
                +:+ "-" +:+ Invoice.invoiceNumber invoice +:+ ".pdf") blob) k
         | None => k
         end)).

(** The application's state and what a handler's run does to it. *)
Record App := mkApp {
  invoice : Invoice.t;
  isDownloading : bool;
  feedback : option Feedback;
  timers : list (action * Z);
  files : list (string * Blob)
}.

Definition act (a : action) (s : App) : App :=
  match a with
  | setFeedback f => mkApp (invoice s) (isDownloading s) f (timers s) (files s)
  | setIsDownloading b => mkApp (invoice s) b (feedback s) (timers s) (files s)
  | setTimeout callback ms =>
      mkApp (invoice s) (isDownloading s) (feedback s) (timers s ++ [(callback, ms)]) (files s)
  | download filename blob =>
      mkApp (invoice s) (isDownloading s) (feedback s) (timers s) (files s ++ [(filename, blob)])
  end.

(** Running a handler, the browser answering [r] at the await point. *)
Fixpoint run (p : program) (r : rendering) (s : App) : App :=
  match p with
  | done => s
  | perform a k => run k r (act a s)
  | await_rendering k => run (k r) r s
  end.

(** Whether a handler reaches an await point. *)
Fixpoint awaits (p : program) : bool :=
  match p with
  | done => false
  | perform _ k => awaits k
  | await_rendering _ => true
  end.

(** *** The state as an object: what a change writes

    [handleInvoiceChange (key, value)] names a key of the invoice and
    brings a value of the key's type; on the object that the state holds
    these are a property name and the value written under it. *)

Definition Change_key (ch : Change) : string :=
  match ch with
  | Set_logo _ => "logo"
  | Set_invoiceType _ => "invoiceType"
  | Set_invoiceNumber _ => "invoiceNumber"
  | Set_date _ => "date"
  | Set_dueDate _ => "dueDate"
  | Set_business _ => "business"
  | Set_client _ => "client"
  | Set_items _ => "items"
  | Set_cgstRate _ => "cgstRate"
  | Set_sgstRate _ => "sgstRate"
  | Set_igstRate _ => "igstRate"
  | Set_taxRate _ => "taxRate"
  | Set_discountRate _ => "discountRate"
  | Set_currency _ => "currency"
  | Set_bankDetails _ => "bankDetails"
  | Set_notes _ => "notes"
  | Set_themeColor _ => "themeColor"
  end.

Definition Change_value (ch : Change) : Json.value :=
  match ch with
  | Set_logo (Some l) => Json.String_ l
  | Set_logo None => Json.Null
  | Set_invoiceType v => Json.String_ (InvoiceType_string v)
  | Set_invoiceNumber v | Set_date v | Set_dueDate v | Set_notes v
  | Set_themeColor v => Json.String_ v
  | Set_business v => Business_object v
  | Set_client v => Client_object v
  | Set_items v => Json.Array (Item_object <$> v)
  | Set_cgstRate v | Set_sgstRate v | Set_igstRate v | Set_taxRate v
  | Set_discountRate v => Json.Number v
  | Set_currency v => Json.String_ (Currency_string v)
  | Set_bankDetails v => BankDetails_object v
  end.

(** *** The form component ([InvoiceForm.tsx]) *)

(** [x || 0] on a number: NaN and the two zeros give way to [0]. *)
Definition or_zero (x : float) : float :=
  if Json.truthy (Some (Json.Number x)) then x else 0%float.

(** The keys of the nested records. *)
Inductive BusinessField := Business_name | Business_address | Business_email.
Inductive ClientField := Client_name | Client_address | Client_email.
Inductive BankDetailsField :=
  | Bank_name | Bank_accountNumber | Bank_bankName | Bank_ifscCode | Bank_upiId.

(** The five rate inputs of the card "Taxes & Discounts". *)
Inductive RateInput := CGST | SGST | IGST | Tax | Discount.

(** The four inputs of an item's row. *)
Inductive ItemInput := Item_description | Item_quantity | Item_price | Item_hsn.

(** What the user does on the form: an input's change event with the text
    typed ([e.target.value]), a choice in a select, or a click on a
    button. *)
Inductive FormEvent :=
  | invoiceNumber_change (value : string)
  | currency_change (value : Currency)
  | date_change (value : string)
  | dueDate_change (value : string)
  | business_change (field : BusinessField) (value : string)
  | client_change (field : ClientField) (value : string)
  | item_change (index : nat) (input : ItemInput) (value : string)
  | item_remove_click (index : nat)
  | add_item_click
  | rate_change (rate : RateInput) (value : string)
  | bankDetails_change (field : BankDetailsField) (value : string)
  | notes_change (value : string)
  | remove_logo_click.

Section InvoiceForm.

(** The props of the component; a callback answers in [R]. *)
Context {R : Type}.
Variable invoice : Invoice.t.
Variable onInvoiceChange : Change -> R.
Variable onItemChange : nat -> Item.t -> R.
Variable onAddItem : R.
Variable onRemoveItem : Z -> R.
Variable onRemoveLogo : R.
Variable isLogoUploading : bool.

(** The platform's [parseFloat]. *)
Variable parseFloat : string -> float.

Definition handleBusinessChange (field : BusinessField) (value : string) : R :=
  let b := Invoice.business invoice in
  onInvoiceChange (Set_business
    match field with
    | Business_name => Business.mk value (Business.address b) (Business.email b)
    | Business_address => Business.mk (Business.name b) value (Business.email b)
    | Business_email => Business.mk (Business.name b) (Business.address b) value
    end).

Definition handleClientChange (field : ClientField) (value : string) : R :=
  let c := Invoice.client invoice in
  onInvoiceChange (Set_client
    match field with
    | Client_name => Client.mk value (Client.address c) (Client.email c)
    | Client_address => Client.mk (Client.name c) value (Client.email c)
    | Client_email => Client.mk (Client.name c) (Client.address c) value
    end).

Definition handleBankDetailsChange (field : BankDetailsField) (value : string) : R :=
  let 'BankDetails.mk name accountNumber bankName ifscCode upiId :=
    Invoice.bankDetails invoice in
  onInvoiceChange (Set_bankDetails
    match field with
    | Bank_name => BankDetails.mk value accountNumber bankName ifscCode upiId
    | Bank_accountNumber => BankDetails.mk name value bankName ifscCode upiId
    | Bank_bankName => BankDetails.mk name accountNumber value ifscCode upiId
    | Bank_ifscCode => BankDetails.mk name accountNumber bankName value upiId
    | Bank_upiId => BankDetails.mk name accountNumber bankName ifscCode (Some value)
    end).

(** The change handlers of the row that [items.map] renders for [item] at
    [index]: [onItemChange (index, { ...item, [input]: ... })], a number
    being read with [parseFloat (e.target.value) || 0]. *)
Definition item_onChange (index : nat) (item : Item.t) (input : ItemInput)
    (value : string) : R :=
  let 'Item.mk id description quantity price hsn := item in
  onItemChange index
    match input with
    | Item_description => Item.mk id value quantity price hsn
    | Item_quantity => Item.mk id description (or_zero (parseFloat value)) price hsn
    | Item_price => Item.mk id description quantity (or_zero (parseFloat value)) hsn
    | Item_hsn => Item.mk id description quantity price value
    end.

(** The change handler of a rate input:
    [onInvoiceChange (key, parseFloat (e.target.value) || 0)]. *)
Definition rate_onChange (rate : RateInput) (value : string) : R :=
  let v := or_zero (parseFloat value) in
  onInvoiceChange
    match rate with
    | CGST => Set_cgstRate v
    | SGST => Set_sgstRate v
    | IGST => Set_igstRate v
    | Tax => Set_taxRate v
    | Discount => Set_discountRate v
    end.

(** The handler that the rendered form has for an event; there is none on
    a row that is not rendered, nor on the button that removes the logo
    while the form does not show it. *)
Definition InvoiceForm (e : FormEvent) : option R :=
  match e with
  | invoiceNumber_change value => Some (onInvoiceChange (Set_invoiceNumber value))
  | currency_change value => Some (onInvoiceChange (Set_currency value))
  | date_change value => Some (onInvoiceChange (Set_date value))
  | dueDate_change value => Some (onInvoiceChange (Set_dueDate value))
  | business_change field value => Some (handleBusinessChange field value)
  | client_change field value => Some (handleClientChange field value)
  | item_change index input value =>
      item ← Invoice.items invoice !! index;
      Some (item_onChange index item input value)
  | item_remove_click index =>
      item ← Invoice.items invoice !! index;
      Some (onRemoveItem (Item.id item))
  | add_item_click => Some onAddItem
  | rate_change rate value => Some (rate_onChange rate value)
  | bankDetails_change field value => Some (handleBankDetailsChange field value)
  | notes_change value => Some (onInvoiceChange (Set_notes value))
  | remove_logo_click =>
      if from_option Str.truthy false (Invoice.logo invoice) && negb isLogoUploading
      then Some onRemoveLogo else None
  end.

End InvoiceForm.

(** The form as the application mounts it on its state: the callbacks are
    the application's handlers, [now] being the reading of the clock when
    a handler asks for it.  The answer is the next invoice, if the event
    has a handler and the handler leaves a sequence of items. *)
Definition App_InvoiceForm (parseFloat : string -> float) (now : Z)
    (isLogoUploading : bool) (invoice : Invoice.t) (e : FormEvent)
  : option Invoice.t :=
  mjoin (InvoiceForm invoice
    (fun ch => Some (handleInvoiceChange ch invoice))
    (fun index updatedItem => handleItemChange index updatedItem invoice)
    (Some (handleAddItem now invoice))
    (fun id => Some (handleRemoveItem id invoice))
    (Some (handleRemoveLogo invoice))
    isLogoUploading parseFloat e).

(** *** The application component: the logo and its colour *)

(** The colour that [handleLogoUpload] writes for a dominant colour: the
    channels in hexadecimal, each padded to two digits, after the mark. *)
Definition hexColor (dominantColor : list float) : string :=
  "#" +:+ Str.join "" ((fun c => Str.padStart2 (Num.toString16 c)) <$> dominantColor).

(** The state that an upload works on: the application's, and the flag of
    an upload under way. *)
Record Branding := mkBranding { application : App; isLogoUploading : bool }.

Definition setIsLogoUploading (b : bool) (s : Branding) : Branding :=
  mkBranding (application s) b.

(** [setInvoice (prev => ...)] with the update of a change. *)
Definition setInvoice (ch : Change) (s : Branding) : Branding :=
  let a := application s in
  mkBranding
    (mkApp (handleInvoiceChange ch (invoice a)) (isDownloading a) (feedback a)
           (timers a) (files a))
    (isLogoUploading s).

(** [showFeedback] from a callback. *)
Definition notify (message : string) (type : FeedbackType) (s : Branding) : Branding :=
  mkBranding (run (showFeedback message type done) no_preview (application s))
             (isLogoUploading s).

(** What the browser answers to an upload.  The file is read to a data
    URL or the read fails; the reader fires [loadend] after a failed read
    as after a successful one, its result being [null] then, so an image
    is requested in both cases.  The image loads or not, and on a loaded
    image [getColor] returns the dominant colour or throws. *)
Inductive loading := image_error | image_load (getColor : outcome (list float)).
Inductive reading :=
  | reader_error (image : loading)
  | reader_load (result : string) (image : loading).

Definition image_onload (getColor : outcome (list float)) (s : Branding) : Branding :=
  let s :=
    match getColor with
    | Returns dominantColor => setInvoice (Set_themeColor (hexColor dominantColor)) s
    | Throws _ => setInvoice (Set_themeColor DEFAULT_THEME_COLOR) s
    end in
  setIsLogoUploading false s.

Definition image_onerror (s : Branding) : Branding :=
  notify "Could not process image for color theming." error
    (setIsLogoUploading false s).

Definition reader_onloadend (result : option string) (image : loading) (s : Branding)
  : Branding :=
  let logoUrl := result in
  let s := setInvoice (Set_logo logoUrl) s in
  match image with
  | image_load getColor => image_onload getColor s
  | image_error => image_onerror s
  end.

Definition reader_onerror (s : Branding) : Branding :=
  notify "Failed to upload logo. Please try another file." error
    (setIsLogoUploading false s).

Definition handleLogoUpload (file : reading) (s : Branding) : Branding :=
  let s := setIsLogoUploading true s in
  match file with
  | reader_load result image => reader_onloadend (Some result) image s
  | reader_error image => reader_onloadend None image (reader_onerror s)
  end.

(** *** The application component: saving the draft *)

(** The timers of the browser that hold a save, each under its handle
    with the invoice that its callback has captured, and the handle that
    [setTimeout] hands out next: handles are positive and count up. *)
Record AutoSave := mkAutoSave {
  autoSaveTimeoutRef : option Z;
  pending : gmap Z Invoice.t;
  next_handle : Z
}.

Definition clearTimeout (handle : Z) (s : AutoSave) : AutoSave :=
  mkAutoSave (autoSaveTimeoutRef s) (delete handle (pending s)) (next_handle s).

(** [if (autoSaveTimeoutRef.current) clearTimeout (autoSaveTimeoutRef.current)]:
    the test is the truthiness of a number or [null]. *)
Definition clear_current (s : AutoSave) : AutoSave :=
  match autoSaveTimeoutRef s with
  | Some handle => if (handle =? 0)%Z then s else clearTimeout handle s
  | None => s
  end.

(** The effect that runs when [invoice] has changed, and its cleanup. *)
Definition autoSave_effect (invoice : Invoice.t) (s : AutoSave) : AutoSave :=
  let s := clear_current s in
  let handle := next_handle s in
  mkAutoSave (Some handle) (<[handle := invoice]> (pending s)) (handle + 1).

Definition autoSave_cleanup (s : AutoSave) : AutoSave := clear_current s.

(** The component is mounted, and rendered again with a changed invoice:
    the cleanup of the effect that ran last, then the effect. *)
Definition mounted (first_handle : Z) (invoice : Invoice.t) : AutoSave :=
  autoSave_effect invoice (mkAutoSave None ∅ first_handle).

Definition rendered_again (s : AutoSave) (invoice : Invoice.t) : AutoSave :=
  autoSave_effect invoice (autoSave_cleanup s).

(** A timer fires after its second: it leaves the browser's table and its
    callback runs on the invoice it has captured. *)
Definition fires (handle : Z) (s : AutoSave) : option (Invoice.t * AutoSave) :=
  invoice ← pending s !! handle;
  Some (invoice, mkAutoSave (autoSaveTimeoutRef s) (delete handle (pending s))
                   (next_handle s)).

Section DraftSave.

(** [JSON.stringify] on the invoice, and whether the browser refuses to
    store a text under a key (it throws when the quota is exceeded). *)
Variable JSON_stringify : gmap string Json.value -> string.
Variable quota_exceeded : gmap string string -> string -> string -> bool.

(** The callback of the timer:
    [try { localStorage.setItem ('invoiceDraft', JSON.stringify (invoice)) }
     catch (error) { showFeedback (...) }]. *)
Definition save_draft (invoice : Invoice.t) (localStorage : gmap string string) (s : App)
  : gmap string string * App :=
  let text := JSON_stringify (Invoice_object invoice) in
  if quota_exceeded localStorage "invoiceDraft" text then
    (localStorage,
     run (showFeedback "Couldn't save draft. Storage may be full." error done)
       no_preview s)
  else (<["invoiceDraft" := text]> localStorage, s).

End DraftSave.

(** *** The platform: dates

    Time values are integral numbers of milliseconds since the epoch, so
    they are in [Z]; a [Date] holds a time value or NaN ([None]).  The
    functions are those of the language's definition of [Date], with
    their names.  Local time is at a fixed offset [LocalTZA] from UTC (a
    zone without daylight saving). *)

Module Date.

Local Open Scope Z_scope.

Definition t := option Z.

Definition msPerDay : Z := 86400000.
Definition msPerHour : Z := 3600000.
Definition msPerMinute : Z := 60000.
Definition msPerSecond : Z := 1000.

Definition Day (tv : Z) : Z := tv / msPerDay.
Definition TimeWithinDay (tv : Z) : Z := tv mod msPerDay.

Definition DaysInYear (y : Z) : Z :=
  if negb (y mod 4 =? 0) then 365
  else if negb (y mod 100 =? 0) then 366
  else if negb (y mod 400 =? 0) then 365
  else 366.

Definition DayFromYear (y : Z) : Z :=
  365 * (y - 1970) + (y - 1969) / 4 - (y - 1901) / 100 + (y - 1601) / 400.

(** The largest year that starts on or before a day: the year that the
    mean length of a year gives, or one of its neighbours. *)
Definition YearFromDay (d : Z) : Z :=
  let y := 1970 + d * 400 / 146097 in
  if DayFromYear (y + 1) <=? d then y + 1
  else if DayFromYear y <=? d then y
  else y - 1.

Definition YearFromTime (tv : Z) : Z := YearFromDay (Day tv).

Definition InLeapYear (tv : Z) : Z :=
  if DaysInYear (YearFromTime tv) =? 366 then 1 else 0.

Definition DayWithinYear (tv : Z) : Z := Day tv - DayFromYear (YearFromTime tv).

Definition MonthFromTime (tv : Z) : Z :=
  let d := DayWithinYear tv in
  let leap := InLeapYear tv in
  if d <? 31 then 0
  else if d <? 59 + leap then 1
  else if d <? 90 + leap then 2
  else if d <? 120 + leap then 3
  else if d <? 151 + leap then 4
  else if d <? 181 + leap then 5
  else if d <? 212 + leap then 6
  else if d <? 243 + leap then 7
  else if d <? 273 + leap then 8
  else if d <? 304 + leap then 9
  else if d <? 334 + leap then 10
  else 11.

Definition DateFromTime (tv : Z) : Z :=
  let d := DayWithinYear tv in
  let leap := InLeapYear tv in
  match MonthFromTime tv with
  | 0 => d + 1
  | 1 => d - 30
  | 2 => d - 58 - leap
  | 3 => d - 89 - leap
  | 4 => d - 119 - leap
  | 5 => d - 150 - leap
  | 6 => d - 180 - leap
  | 7 => d - 211 - leap
  | 8 => d - 242 - leap
  | 9 => d - 272 - leap
  | 10 => d - 303 - leap
  | _ => d - 333 - leap
  end.

Definition WeekDay (tv : Z) : Z := (Day tv + 4) mod 7.

Definition HourFromTime (tv : Z) : Z := (tv / msPerHour) mod 24.
Definition MinFromTime (tv : Z) : Z := (tv / msPerMinute) mod 60.
Definition SecFromTime (tv : Z) : Z := (tv / msPerSecond) mod 60.
Definition msFromTime (tv : Z) : Z := tv mod msPerSecond.

(** The day on which a month of a year starts: the day [Day (t)] of the
    time value [t] whose year is [ym], whose month is [mn] and whose date
    is 1. *)
Definition first_day (ym mn : Z) : Z :=
  let leap := if DaysInYear ym =? 366 then 1 else 0 in
  DayFromYear ym +
  match mn with
  | 0 => 0
  | 1 => 31
  | 2 => 59 + leap
  | 3 => 90 + leap
  | 4 => 120 + leap
  | 5 => 151 + leap
  | 6 => 181 + leap
  | 7 => 212 + leap
  | 8 => 243 + leap
  | 9 => 273 + leap
  | 10 => 304 + leap
  | _ => 334 + leap
  end.

Definition MakeDay (year month date : Z) : Z :=
  let ym := year + month / 12 in
  let mn := month mod 12 in
  first_day ym mn + date - 1.

Definition MakeTime (hour min sec ms : Z) : Z :=
  hour * msPerHour + min * msPerMinute + sec * msPerSecond + ms.

Definition MakeDate (day time : Z) : Z := day * msPerDay + time.

Definition TimeClip (time : Z) : t :=
  if 8640000000000000 <? Z.abs time then None else Some time.

Section Zone.

Variable LocalTZA : Z.

Definition LocalTime (tv : Z) : Z := tv + LocalTZA.
Definition UTC (tv : Z) : Z := tv - LocalTZA.

(** [new Date (year, month, date)] on integers. *)
Definition new (year month date : Z) : t :=
  let yr := if (0 <=? year) && (year <=? 99) then 1900 + year else year in
  let finalDate := MakeDate (MakeDay yr month date) (MakeTime 0 0 0 0) in
  TimeClip (UTC finalDate).

Definition getFullYear (d : t) : option Z := tv ← d; Some (YearFromTime (LocalTime tv)).
Definition getMonth (d : t) : option Z := tv ← d; Some (MonthFromTime (LocalTime tv)).
Definition getDate (d : t) : option Z := tv ← d; Some (DateFromTime (LocalTime tv)).
Definition getDay (d : t) : option Z := tv ← d; Some (WeekDay (LocalTime tv)).

End Zone.

End Date.

Module Dec.

(** The decimal numeral of a natural number. *)
Fixpoint digits (fuel : nat) (z : Z) (acc : string) : string :=
  match fuel with
  | O => acc
  | S fuel' =>
      if (z =? 0)%Z then acc
      else digits fuel' (z / 10)%Z
             (String (ascii_of_nat (Z.to_nat (z mod 10) + 48)) acc)
  end.

Definition of_Z (z : Z) : string :=
  if (z =? 0)%Z then "0" else digits (S (Z.to_nat (Z.log2 z))) z EmptyString.

(** [ToZeroPaddedDecimalString (n, minLength)]. *)
Definition ToZeroPaddedDecimalString (n : Z) (minLength : nat) : string :=
  let s := of_Z n in
  string_of_list_ascii (replicate (minLength - String.length s) "0"%char) +:+ s.

End Dec.

(** [d.toISOString ()]: the UTC fields in the format
    [YYYY-MM-DDTHH:mm:ss.sssZ], the year in four digits, or in six after
    its sign when it is not between 0 and 9999; a [RangeError] ([None]) on
    an invalid date. *)
Definition toISOString (d : Date.t) : option string :=
  tv ← d;
  let yv := Date.YearFromTime tv in
  let year :=
    if (0 <=? yv)%Z && (yv <=? 9999)%Z then Dec.ToZeroPaddedDecimalString yv 4
    else (if (yv <? 0)%Z then "-" else "+") +:+
         Dec.ToZeroPaddedDecimalString (Z.abs yv) 6 in
  Some (year +:+ "-" +:+
        Dec.ToZeroPaddedDecimalString (Date.MonthFromTime tv + 1) 2 +:+ "-" +:+
        Dec.ToZeroPaddedDecimalString (Date.DateFromTime tv) 2 +:+ "T" +:+
        Dec.ToZeroPaddedDecimalString (Date.HourFromTime tv) 2 +:+ ":" +:+
        Dec.ToZeroPaddedDecimalString (Date.MinFromTime tv) 2 +:+ ":" +:+
        Dec.ToZeroPaddedDecimalString (Date.SecFromTime tv) 2 +:+ "." +:+
        Dec.ToZeroPaddedDecimalString (Date.msFromTime tv) 3 +:+ "Z").

(** [s.split (c)[0]]: what precedes the first [c], all of [s] when there
    is none. *)
Fixpoint split_0 (c : ascii) (s : string) : string :=
  match s with
  | EmptyString => EmptyString
  | String d r => if Ascii.eqb d c then EmptyString else String d (split_0 c r)
  end.

(** *** The form component: the calendar *)

Section CalendarView.

Variable LocalTZA : Z.
Context {R : Type}.
Variable onDateSelect : string -> R.

(** [changeMonth]: the state update
    [prev => new Date (prev.getFullYear (), prev.getMonth () + offset, 1)]. *)
Definition changeMonth (offset : Z) (prev : Date.t) : Date.t :=
  year ← Date.getFullYear LocalTZA prev;
  month ← Date.getMonth LocalTZA prev;
  Date.new LocalTZA year (month + offset) 1.

(** [handleDateClick]; [None] when [toISOString] throws. *)
Definition handleDateClick (currentMonth : Date.t) (day : Z) : option R :=
  let newDate :=
    year ← Date.getFullYear LocalTZA currentMonth;
    month ← Date.getMonth LocalTZA currentMonth;
    Date.new LocalTZA year month day in
  iso ← toISOString newDate;
  let formattedDate := split_0 "T" iso in
  Some (onDateSelect formattedDate).

Definition daysInMonth (currentMonth : Date.t) : option Z :=
  year ← Date.getFullYear LocalTZA currentMonth;
  month ← Date.getMonth LocalTZA currentMonth;
  Date.getDate LocalTZA (Date.new LocalTZA year (month + 1) 0).

Definition firstDayOfMonth (currentMonth : Date.t) : option Z :=
  year ← Date.getFullYear LocalTZA currentMonth;
  month ← Date.getMonth LocalTZA currentMonth;
  Date.getDay LocalTZA (Date.new LocalTZA year month 1).

(** The cells of the grid: [blanks], then [days]. *)
Definition blanks (currentMonth : Date.t) : option (list (option Z)) :=
  n ← firstDayOfMonth currentMonth; Some (replicate (Z.to_nat n) None).

Definition days (currentMonth : Date.t) : option (list Z) :=
  n ← daysInMonth currentMonth; Some ((fun i => Z.of_nat i + 1)%Z <$> seq 0 (Z.to_nat n)).

End CalendarView.

(** ** Part II. The specification's words

    The definitions below follow the text of the specification, not the
    code; the theorems of Part III compare the two. *)

Module Spec.

(** **** Calculation engine *)

Definition line_total (item : Item.t) : float :=
  (Item.quantity item * Item.price item)%float.

(** The sum of the first [k] line totals, added in the order of the
    items. *)
Fixpoint sum_first (k : nat) (items : list Item.t) : float :=
  match k with
  | O => 0%float
  | S k' =>
      (sum_first k' items + from_option line_total 0 (items !! k'))%float
  end.

Definition sum_of_line_totals (items : list Item.t) : float :=
  sum_first (length items) items.

(** [base * rate/100]. *)
Definition percent (base rate : float) : float := (base * (rate / 100))%float.

(** **** Number to words *)

Definition unit_word (n : Z) : string :=
  match n with
  | 1 => "one" | 2 => "two" | 3 => "three" | 4 => "four" | 5 => "five"
  | 6 => "six" | 7 => "seven" | 8 => "eight" | 9 => "nine" | 10 => "ten"
  | 11 => "eleven" | 12 => "twelve" | 13 => "thirteen" | 14 => "fourteen"
  | 15 => "fifteen" | 16 => "sixteen" | 17 => "seventeen" | 18 => "eighteen"
  | 19 => "nineteen"
  | _ => ""
  end%Z.

Definition tens_word (t : Z) : string :=
  match t with
  | 2 => "twenty" | 3 => "thirty" | 4 => "forty" | 5 => "fifty" | 6 => "sixty"
  | 7 => "seventy" | 8 => "eighty" | 9 => "ninety"
  | _ => ""
  end%Z.

(** The sub-converter for a number below one hundred: ones 0-19, tens
    20-90. *)
Definition below_100 (n : Z) : string :=
  if (n <? 20)%Z then unit_word n
  else tens_word (n / 10) +:+
       (if (n mod 10 =? 0)%Z then "" else " " +:+ unit_word (n mod 10)).

(** A group below one thousand, its hundreds joined with "and". *)
Definition below_1000 (n : Z) : string :=
  let h := (n / 100)%Z in
  let r := (n mod 100)%Z in
  if (h =? 0)%Z then below_100 r
  else unit_word h +:+ " hundred" +:+
       (if (r =? 0)%Z then "" else " and " +:+ below_100 r).

(** A group of the Indian system with its name, left out when it is zero. *)
Definition group (g : Z) (name : string) : list string :=
  if (g =? 0)%Z then [] else [below_1000 g +:+ " " +:+ name].

(** The words of a positive integer: crore = 10^7, lakh = 10^5,
    thousand = 10^3, each group read off its place. *)
Definition indian_words (n : Z) : string :=
  Str.join " "
    (group (n / 10 ^ 7) "crore" ++
     group (n / 10 ^ 5 mod 100) "lakh" ++
     group (n / 10 ^ 3 mod 100) "thousand" ++
     (if (n mod 1000 =? 0)%Z then [] else [below_1000 (n mod 1000)])).

(** The rendering as the specification words it: the integer part in words and
    " Rupees", then " and ... Paise" when there are hundredths, then
    " Only". *)
Definition stated_amount_in_words (n d : Z) : string :=
  capitalize (if (n =? 0)%Z then "zero" else indian_words n) +:+ " Rupees" +:+
  (if (d =? 0)%Z then "" else " and " +:+ capitalize (below_1000 d) +:+ " Paise") +:+
  " Only".

(** The rendering as the code has it: the rupee clause only for a positive
    integer part, the paise clause only for positive hundredths, " and "
    between them when both are there, and zero spelled out. *)
Definition amount_in_words (n d : Z) : string :=
  if (n =? 0)%Z && (d =? 0)%Z then "Zero Rupees Only"
  else
    let rupees :=
      if (0 <? n)%Z then [capitalize (indian_words n) +:+ " Rupees"] else [] in
    let paise :=
      if (0 <? d)%Z then [capitalize (below_1000 d) +:+ " Paise"] else [] in
    Str.join " and " (rupees ++ paise) +:+ " Only".

(** **** Contrast *)

(** The luma [Y = 0.299 R + 0.587 G + 0.114 B] of a colour. *)
Definition luma (R G B : Z) : Q :=
  (299 # 1000) * inject_Z R + (587 # 1000) * inject_Z G + (114 # 1000) * inject_Z B.

Definition contrast_of (R G B : Z) : string :=
  if Qle_bool 128 (luma R G B) then "#000000" else "#ffffff".

(** The channel that two hexadecimal digits denote. *)
Definition channel (hi lo : Z) : Z := (16 * hi + lo)%Z.

(** **** Invoice model *)

Definition ids (invoice : Invoice.t) : list Z := Item.id <$> Invoice.items invoice.

(** The item ids of a document are pairwise distinct. *)
Definition unique_ids (invoice : Invoice.t) : Prop := NoDup (ids invoice).

(** A text is blank: empty, or white space only. *)
Definition blank (s : string) : Prop :=
  Forall (fun c => Str.is_space c = true) (list_ascii_of_string s).

(** **** Draft store *)



(** Removal, as the specification words it: the sequence that is left
    keeps the order of the items, holds no item of the id, and is shorter
    by the number of items that had the id. *)
Definition removed (id : Z) (items kept : list Item.t) : Prop :=
  sublist kept items /\
  (forall item, item ∈ kept -> Item.id item <> id) /\
  (length kept + count_occ Z.eq_dec (Item.id <$> items) id = length items)%nat.

(** A well-formed colour: the mark and six hexadecimal digits. *)
Definition well_formed (hex : string) : bool :=
  match list_ascii_of_string hex with
  | [c0; c1; c2; c3; c4; c5; c6] =>
      Ascii.eqb c0 "#" &&
      forallb (fun c => bool_decide (is_Some (Num.hex_value c))) [c1; c2; c3; c4; c5; c6]
  | _ => false
  end.

End Spec.

(** The mutations of the model, each under the condition it needs to keep
    the item ids distinct: an added item's time stamp is not an id in use,
    a replaced item keeps its id, and a field update that replaces the
    items brings distinct ids. *)
Inductive guarded_step : Invoice.t -> Invoice.t -> Prop :=
  | step_addItem now invoice :
      now ∉ Spec.ids invoice ->
      guarded_step invoice (handleAddItem now invoice)
  | step_removeItem id invoice :
      guarded_step invoice (handleRemoveItem id invoice)
  | step_updateItem index old updatedItem invoice invoice' :
      Invoice.items invoice !! index = Some old ->
      Item.id updatedItem = Item.id old ->
      handleItemChange index updatedItem invoice = Some invoice' ->
      guarded_step invoice invoice'
  | step_updateField ch invoice :
      (forall v, ch = Set_items v -> NoDup (Item.id <$> v)) ->
      guarded_step invoice (handleInvoiceChange ch invoice).

(** The mutations without any condition. *)
Inductive step : Invoice.t -> Invoice.t -> Prop :=
  | any_addItem now invoice : step invoice (handleAddItem now invoice)
  | any_removeItem id invoice : step invoice (handleRemoveItem id invoice)
  | any_updateItem index updatedItem invoice invoice' :
      handleItemChange index updatedItem invoice = Some invoice' ->
      step invoice invoice'
  | any_updateField ch invoice : step invoice (handleInvoiceChange ch invoice).

(** The states a session goes through from the initial state. *)
Inductive reachable (R : Invoice.t -> Invoice.t -> Prop) : Invoice.t -> Prop :=
  | reachable_initial : reachable R getInitialInvoiceState
  | reachable_step invoice invoice' :
      reachable R invoice -> R invoice invoice' -> reachable R invoice'.

(** The integer part of an amount and its hundredths, as [toWords] takes
    them. *)
Definition integer_part (num : float) : Z := JS.to_Z (JS.Math_floor num).
Definition hundredths (num : float) : Z :=
  JS.to_Z (JS.Math_round ((num - JS.Math_floor num) * 100)%float).

(** The values of the format that are not below zero and stay below
    [2 ^ B]; the ones that are not finite pass. *)
Definition below_pow (B : Z) (x : spec_float) : Prop :=
  match x with
  | S754_finite s m e => s = false /\ (Zpos m < 2 ^ (B - e))%Z
  | _ => True
  end.

(** The groups as the code pushes them onto [wordsArray]. *)
Definition pushed (g : Z) (name : string) : list string :=
  if (g >? 0)%Z then [convertLessThanOneThousand g +:+ name] else [].

(** A text that starts with something that is not white space. *)
Definition starts_solid (s : string) : Prop :=
  exists c r, s = String c r /\ Str.is_space c = false.

(** A stand-in for the platform's parser on a few texts, to run the draft
    store on: an object of an older shape, [null], and anything else a
    syntax error. *)
Definition quoted (s : string) : string :=
  String (ascii_of_nat 34) s +:+ String (ascii_of_nat 34) EmptyString.

Definition sample_draft : string :=
  "{" +:+ quoted "notes" +:+ ":" +:+ quoted "Net 30" +:+ "," +:+
  quoted "themeColor" +:+ ":" +:+ quoted "" +:+ "}".

Definition sample_parse (text : string) : outcome Json.value :=
  if String.eqb text sample_draft then
    Returns (Json.Object (list_to_map [("notes", Json.String_ "Net 30");
                                       ("themeColor", Json.String_ "")]))
  else if String.eqb text "null" then Returns Json.Null
  else Throws SyntaxError.

(** The notice of a rejected export. *)
Definition rejection : Feedback :=
  mkFeedback "Invoice number cannot be empty." error.

(** The 8-bit code units. *)
Definition all_ascii : list ascii := ascii_of_nat <$> seq 0 256.

(** A check on every pair, and on every triple, of elements of lists. *)
Definition forallb2 {A B} (f : A -> B -> bool) (la : list A) (lb : list B) : bool :=
  forallb (fun a => forallb (fun b => f a b) lb) la.

Definition forallb3 {A B C} (f : A -> B -> C -> bool)
    (la : list A) (lb : list B) (lc : list C) : bool :=
  forallb (fun a => forallb (fun b => forallb (fun c => f a b c) lc) lb) la.

(** Two hexadecimal digits parse to the channel they denote. *)
Definition digit_pair_checked (hi lo : ascii) : bool :=
  match Num.hex_value hi, Num.hex_value lo with
  | Some h, Some l =>
      PrimFloat.Leibniz.eqb
        (Num.parseInt16 (String hi (String lo EmptyString)))
        (JS.of_Z (Spec.channel h l))
  | _, _ => true
  end.

(** A channel's weighted value, as the code computes it on numbers and as
    an integer. *)
Definition weighted (weight : float) (w : Z) : list (float * Z) :=
  (fun v => ((JS.of_Z v * weight)%float, (v * w)%Z)) <$> seqZ 0 256.

(** The comparison of the code, made on numbers, decides as the comparison
    of the weighted integer sum with 128000 does. *)
Definition luma_decision_checked (r g b : float * Z) : bool :=
  Bool.eqb (JS.geb ((r.1 + g.1 + b.1) / 1000)%float 128)
           (128000 <=? r.2 + g.2 + b.2)%Z.

(** A group below one thousand is worded as the specification words it,
    and the word of a positive group starts with a letter that stays one
    when capitalised. *)
Definition group_checked (g : Z) : bool :=
  String.eqb (convertLessThanOneThousand g) (Spec.below_1000 g) &&
  ((g =? 0)%Z ||
   match capitalize (convertLessThanOneThousand g) with
   | String c _ => negb (Str.is_space c)
   | EmptyString => false
   end).

(** **** The rest of the application

    What the theorems on the form, the colours, the draft and the
    calendar are stated with. *)

(** The name of an invoice type in a file name. *)
Definition InvoiceType_slug (t : InvoiceType) : string :=
  match t with
  | Invoice_ => "invoice"
  | Tax_Invoice => "tax-invoice"
  | Quotation => "quotation"
  | Proforma_Invoice => "proforma-invoice"
  | Estimate => "estimate"
  end.

(** No number of the invoice is NaN. *)
Definition numbers_defined (invoice : Invoice.t) : Prop :=
  PrimFloat.is_nan (Invoice.cgstRate invoice) = false /\
  PrimFloat.is_nan (Invoice.sgstRate invoice) = false /\
  PrimFloat.is_nan (Invoice.igstRate invoice) = false /\
  PrimFloat.is_nan (Invoice.taxRate invoice) = false /\
  PrimFloat.is_nan (Invoice.discountRate invoice) = false /\
  Forall (fun item => PrimFloat.is_nan (Item.quantity item) = false /\
                      PrimFloat.is_nan (Item.price item) = false)
         (Invoice.items invoice).

(** A channel in two lower-case hexadecimal digits. *)
Definition hex16 : list ascii := list_ascii_of_string "0123456789abcdef".

Definition two_hex (v : Z) : string :=
  String (nth (Z.to_nat (v / 16)) hex16 "0"%char)
    (String (nth (Z.to_nat (v mod 16)) hex16 "0"%char) EmptyString).

(** What [darkenColor] makes of a channel. *)
Definition darkened (percent : float) (channel : float) : float :=
  JS.Math_max0 (JS.Math_floor (channel * ((100 - percent) / 100)))%float.

(** The invoice that a saved draft restores: the saved one, with the
    default theme colour in the place of an empty one. *)
Definition restored (invoice : Invoice.t) : Invoice.t :=
  if Str.truthy (Invoice.themeColor invoice) then invoice
  else handleInvoiceChange (Set_themeColor DEFAULT_THEME_COLOR) invoice.

(** What the effect leaves behind: one pending save, the one that the
    reference names, under a positive handle. *)
Definition settled (invoice : Invoice.t) (s : AutoSave) : Prop :=
  exists handle,
    (0 < handle)%Z /\ autoSaveTimeoutRef s = Some handle /\
    pending s = {[ handle := invoice ]} /\ next_handle s = (handle + 1)%Z.

(** The words of ten to nineteen, capitalised. *)
Definition teens : list string :=
  ["Ten"; "Eleven"; "Twelve"; "Thirteen"; "Fourteen"; "Fifteen"; "Sixteen";
   "Seventeen"; "Eighteen"; "Nineteen"].

(** The length of a month of the Gregorian calendar (months from 0). *)
Definition month_length (year month : Z) : Z :=
  match month with
  | 1 =>
      if ((year mod 4 =? 0) && negb (year mod 100 =? 0)) || (year mod 400 =? 0)
      then 29 else 28
  | 3 | 5 | 8 | 10 => 30
  | _ => 31
  end%Z.

(** The last decimal digit of a number. *)
Definition digit (k : Z) : ascii := ascii_of_nat (Z.to_nat (k mod 10) + 48).

(** A date as [YYYY-MM-DD] (months from 0). *)
Definition iso_date (year month date : Z) : string :=
  string_of_list_ascii
    [digit (year / 1000); digit (year / 100); digit (year / 10); digit year;
     "-"%char; digit ((month + 1) / 10); digit (month + 1);
     "-"%char; digit (date / 10); digit date].

(** The value under a key in a list of properties, the first that has the
    key. *)
Fixpoint assoc {A} (k : string) (l : list (string * A)) : option A :=
  match l with
  | [] => None
  | (i, x) :: l => if String.eqb i k then Some x else assoc k l
  end.

(** A channel below 256 is written as its two digits, and the two digits
    are read back as the channel. *)
Definition channel_written_checked (v : Z) : bool :=
  String.eqb (Str.padStart2 (Num.toString16 (JS.of_Z v))) (two_hex v) &&
  PrimFloat.Leibniz.eqb (Num.parseInt16 (two_hex v)) (JS.of_Z v).

(** A channel below 256 darkened by ten percent is nine tenths of it,
    rounded down. *)
Definition channel_darkened_checked (v : Z) : bool :=
  PrimFloat.Leibniz.eqb (darkened 10 (JS.of_Z v)) (JS.of_Z (9 * v / 10)).

(** The digit at a place below 16 has the place as its value. *)
Definition hex_digit_checked (d : Z) : bool :=
  match Num.hex_value (nth (Z.to_nat d) hex16 "0"%char) with
  | Some d' => (d' =? d)%Z
  | None => false
  end.

(** A number of at most four digits, and of at most two, padded with
    zeros. *)
Definition four_digits_checked (y : Z) : bool :=
  String.eqb (Dec.ToZeroPaddedDecimalString y 4)
    (string_of_list_ascii [digit (y / 1000); digit (y / 100); digit (y / 10); digit y]).

Definition two_digits_checked (k : Z) : bool :=
  String.eqb (Dec.ToZeroPaddedDecimalString k 2)
    (string_of_list_ascii [digit (k / 10); digit k]).

(** The word of a number from ten to nineteen is one of the teens. *)
Definition teen_checked (k : Z) : bool :=
  (k <? 10)%Z || bool_decide (capitalize (at_index ones k) ∈ teens).

(** A stand-in for the platform on which to run the form: it reads no
    number. *)
Definition sample_parseFloat (text : string) : float := PrimFloat.nan.

(** A stand-in for the platform on which to run the draft store, for the
    invoices that differ from the initial one in their notes and their
    theme colour: [sample_stringify] writes these two texts of the state,
    [sample_read] reads them out of a text of that form (any other text is
    a syntax error) and gives the state that has them, and the browser
    refuses a text of more than 64 characters. *)
Definition text_of (state : gmap string Json.value) (key : string) : string :=
  match state !! key with
  | Some (Json.String_ s) => s
  | _ => ""
  end.

Definition sample_stringify (state : gmap string Json.value) : string :=
  "{" +:+ quoted "notes" +:+ ":" +:+ quoted (text_of state "notes") +:+ "," +:+
  quoted "themeColor" +:+ ":" +:+ quoted (text_of state "themeColor") +:+ "}".

Fixpoint after (prefix text : string) : option string :=
  match prefix, text with
  | EmptyString, _ => Some text
  | String a prefix, String b text => if Ascii.eqb a b then after prefix text else None
  | String _ _, EmptyString => None
  end.

Fixpoint up_to_quote (text : string) : option (string * string) :=
  match text with
  | EmptyString => None
  | String c text =>
      if Ascii.eqb c (ascii_of_nat 34) then Some (EmptyString, text)
      else match up_to_quote text with
           | Some (s, r) => Some (String c s, r)
           | None => None
           end
  end.

Definition sample_read (text : string) : outcome Json.value :=
  let opening := String (ascii_of_nat 34) EmptyString in
  let read : option (string * string) :=
    r ← after ("{" +:+ quoted "notes" +:+ ":" +:+ opening) text;
    '(notes, r) ← up_to_quote r;
    r ← after ("," +:+ quoted "themeColor" +:+ ":" +:+ opening) r;
    '(themeColor, r) ← up_to_quote r;
    if String.eqb r "}" then Some (notes, themeColor) else None in
  match read with
  | Some (notes, themeColor) =>
      Returns (Json.Object (Invoice_object
        (handleInvoiceChange (Set_themeColor themeColor)
           (handleInvoiceChange (Set_notes notes) getInitialInvoiceState))))
  | None => Throws SyntaxError
  end.

Definition sample_quota (localStorage : gmap string string) (key text : string) : bool :=
  (64 <? String.length text)%nat.

(** An invoice with notes and no theme colour, and one whose notes are too
    long for that browser. *)
Definition sample_invoice : Invoice.t :=
  handleInvoiceChange (Set_themeColor "")
    (handleInvoiceChange (Set_notes "Net 30") getInitialInvoiceState).

Definition sample_long_invoice : Invoice.t :=
  handleInvoiceChange
    (Set_notes "Payment is due within thirty days of the date of this invoice.")
    getInitialInvoiceState.

(** Indian Standard Time, five and a half hours ahead of UTC. *)
Definition IST : Z := 19800000.

(** ** Part III. Verification *)

#[local] Arguments String.append : simpl nomatch.

Example floor_examples :
  JS.Math_floor 100.5 = 100%float /\ JS.Math_floor (-0.5) = (-1)%float /\
  JS.Math_floor 0.75 = 0%float /\ JS.Math_floor 1e300 = 1e300%float /\
  JS.Math_round 2.5 = 3%float /\ JS.Math_round 49.99999 = 50%float /\
  JS.Math_round (-2.5) = (-2)%float /\ JS.Math_round 0.4 = 0%float /\
  JS.to_Z 265 = 265%Z /\ JS.of_Z 128000 = 128000%float.
Proof. vm_compute. repeat split. Qed.

Example string_examples :
  Str.trim "  a b  " = "a b" /\ Str.trim "   " = "" /\
  Str.replace_first "#" "" "#ab#c" = "ab#c" /\
  Str.join " " ["a"; "b"; "c"] = "a b c" /\
  Str.substring 1 3 "#10B981" = "10" /\ Str.substring 5 7 "#10B9" = "" /\
  Str.padStart2 "a" = "0a" /\ Str.toUpperCase "one" = "ONE".
Proof. vm_compute. repeat split. Qed.

Example number_string_examples :
  Num.parseInt16 "ff" = 255%float /\ Num.parseInt16 "1g" = 1%float /\
  Num.parseInt16 "g1" = PrimFloat.nan /\ Num.parseInt16 " 7" = 7%float /\
  Num.parseInt16 "-a" = (-10)%float /\ Num.parseInt16 "0x" = PrimFloat.nan /\
  Num.parseInt16 "" = PrimFloat.nan /\
  Num.toString16 255 = "ff" /\ Num.toString16 0 = "0" /\
  Num.toString16 4096 = "1000" /\ Num.toString16 PrimFloat.nan = "NaN".
Proof. vm_compute. repeat split. Qed.

Example calculations_end_to_end :
  let inv := handleInvoiceChange (Set_sgstRate 9) (handleInvoiceChange (Set_cgstRate 9)
    (handleInvoiceChange (Set_discountRate 10) (handleInvoiceChange
      (Set_items [Item.mk 1 "" 2 100 ""; Item.mk 2 "" 1 50 ""]) getInitialInvoiceState))) in
  let c := calculations inv in
  subtotal c = 250%float /\ discountAmount c = 25%float /\
  cgstAmount c = 20.25%float /\ sgstAmount c = 20.25%float /\ total c = 265.5%float.
Proof. vm_compute. repeat split. Qed.

Example toWords_examples :
  toWords 1234567.25 = Some "Twelve lakh thirty four thousand five hundred and sixty seven Rupees and Twenty five Paise Only" /\
  toWords 120000000 = Some "Twelve crore Rupees Only" /\
  toWords (-7) = Some "Minus Seven Rupees Only" /\
  toWords 0.5 = Some "Fifty Paise Only" /\
  toWords 20000000000 = Some "Undefined hundred crore Rupees Only".
Proof. vm_compute. repeat split. Qed.

Example colour_examples :
  getContrastColor "#10B981" = "#000000" /\ getContrastColor "10B98" = "#ffffff" /\
  getContrastColor "#zzzzzz" = "#ffffff" /\
  darkenColor "#10B981" 10 = "#0ea674" /\ darkenColor "#zzzzzz" 10 = "#NaNNaNNaN" /\
  darkenColor "#ffffff" (-100) = "#1fe1fe1fe" /\ darkenColor "#fff" 10 = "#fff".
Proof. vm_compute. repeat split. Qed.

(** *** The calculation engine *)

Section Calculations.

Implicit Types (items : list Item.t) (invoice : Invoice.t).

Lemma sum_first_app_l k items extra :
  (k <= length items)%nat ->
  Spec.sum_first k (items ++ extra) = Spec.sum_first k items.
Proof.
  induction k as [|k IH]; intros Hk; [reflexivity|].
  cbn [Spec.sum_first]. rewrite IH by lia.
  rewrite lookup_app_l by lia. reflexivity.
Qed.

Lemma sum_of_line_totals_snoc items item :
  Spec.sum_of_line_totals (items ++ [item]) =
  (Spec.sum_of_line_totals items + Spec.line_total item)%float.
Proof.
  unfold Spec.sum_of_line_totals. rewrite length_app, Nat.add_1_r.
  cbn [Spec.sum_first length]. rewrite sum_first_app_l by lia.
  rewrite list_lookup_middle by reflexivity. reflexivity.
Qed.

(** The reducer of [calculations] accumulates the line totals from the
    left, which is the sum in the order of the items. *)
Lemma reduce_is_sum items :
  fold_left (fun acc item => acc + Item.quantity item * Item.price item)%float
    items 0%float = Spec.sum_of_line_totals items.
Proof.
  induction items as [|item items IH] using rev_ind; [reflexivity|].
  rewrite fold_left_app, sum_of_line_totals_snoc, <- IH. reflexivity.
Qed.

(** C1. For every item list and every choice of rates the engine yields:
    the subtotal is the sum of quantity times price over the items; the
    discount is the subtotal's share at the discount rate; the taxable
    amount is the subtotal less the discount; each of the four taxes is
    the taxable amount's share at its own rate, all on the same base; the
    tax amount is the sum of the four; the total is the taxable amount plus
    the tax amount.  With no item the subtotal is 0, and the total is 0
    when moreover every rate is 0. *)
Theorem calculations_formulas invoice :
  let c := calculations invoice in
  let taxableAmount := (subtotal c - discountAmount c)%float in
  subtotal c = Spec.sum_of_line_totals (Invoice.items invoice) /\
  discountAmount c = Spec.percent (subtotal c) (Invoice.discountRate invoice) /\
  cgstAmount c = Spec.percent taxableAmount (Invoice.cgstRate invoice) /\
  sgstAmount c = Spec.percent taxableAmount (Invoice.sgstRate invoice) /\
  igstAmount c = Spec.percent taxableAmount (Invoice.igstRate invoice) /\
  genericTaxAmount c = Spec.percent taxableAmount (Invoice.taxRate invoice) /\
  taxAmount c =
    (cgstAmount c + sgstAmount c + igstAmount c + genericTaxAmount c)%float /\
  total c = (taxableAmount + taxAmount c)%float /\
  (Invoice.items invoice = [] -> subtotal c = 0%float) /\
  (Invoice.items invoice = [] ->
   Invoice.discountRate invoice = 0%float -> Invoice.cgstRate invoice = 0%float ->
   Invoice.sgstRate invoice = 0%float -> Invoice.igstRate invoice = 0%float ->
   Invoice.taxRate invoice = 0%float ->
   total c = 0%float).
Proof.
  cbv zeta. unfold calculations; cbn [subtotal discountAmount cgstAmount sgstAmount
    igstAmount genericTaxAmount taxAmount total].
  rewrite reduce_is_sum.
  repeat split; try reflexivity.
  - intros ->. reflexivity.
  - intros -> -> -> -> -> ->. vm_compute. reflexivity.
Qed.

End Calculations.

(** *** Numbers *)

Section Floats.

Implicit Types x num : float.

Lemma Prim2SF_zero : Prim2SF 0 = S754_zero false.
Proof. reflexivity. Qed.

Lemma Prim2SF_infinity : Prim2SF PrimFloat.infinity = S754_infinity false.
Proof. reflexivity. Qed.

Lemma SFeqb_finite_refl s m e :
  SFeqb (S754_finite s m e) (S754_finite s m e) = true.
Proof.
  unfold SFeqb, SFcompare. rewrite Z.compare_refl, Pos.compare_cont_refl.
  destruct s; reflexivity.
Qed.

(** An absolute value is never below zero. *)
Lemma abs_not_negative x : (JS.Math_abs x <? 0)%float = false.
Proof.
  unfold JS.Math_abs. rewrite FloatAxioms.ltb_spec, FloatAxioms.abs_spec, Prim2SF_zero.
  destruct (Prim2SF x) as [s|s| |s m e]; reflexivity.
Qed.

(** Taking the absolute value keeps a number finite or not. *)
Lemma isFinite_abs x : JS.isFinite (JS.Math_abs x) = JS.isFinite x.
Proof.
  unfold JS.isFinite, JS.Math_abs, is_finite, is_nan, is_infinity.
  rewrite !FloatAxioms.eqb_spec, !FloatAxioms.abs_spec, Prim2SF_infinity.
  destruct (Prim2SF x) as [s|s| |s m e]; cbn [SFabs];
    rewrite ?SFeqb_finite_refl; try destruct s; reflexivity.
Qed.

(** A number that is not below zero is its own absolute value, the
    negative zero apart. *)
Lemma abs_of_not_negative x :
  (x <? 0)%float = false -> JS.Math_abs x = x \/ x = PrimFloat.neg_zero.
Proof.
  unfold JS.Math_abs. rewrite FloatAxioms.ltb_spec, Prim2SF_zero. intros Hs.
  destruct (Prim2SF x) as [s|s| |s m e] eqn:E.
  - destruct s.
    + right. apply Prim2SF_inj. now rewrite E.
    + left. apply Prim2SF_inj. now rewrite FloatAxioms.abs_spec, E.
  - destruct s; [discriminate|].
    left. apply Prim2SF_inj. now rewrite FloatAxioms.abs_spec, E.
  - left. apply Prim2SF_inj. now rewrite FloatAxioms.abs_spec, E.
  - destruct s; [discriminate|].
    left. apply Prim2SF_inj. now rewrite FloatAxioms.abs_spec, E.
Qed.

End Floats.

(** *** Rounding: how large the hundredths of an amount can be *)

Section Rounding.

Local Open Scope Z_scope.

Lemma fexp_eq e : SpecFloat.fexp prec emax e = Z.max (e - 53) (-1074).
Proof. reflexivity. Qed.

Lemma digits2_size p : digits2_pos p = Pos.size p.
Proof. induction p as [p IH|p IH|]; cbn [digits2_pos Pos.size]; congruence. Qed.

Lemma Zdigits2_log2 p : Zdigits2 (Zpos p) = Z.log2 (Zpos p) + 1.
Proof.
  cbn [Zdigits2]. rewrite digits2_size.
  destruct p as [p|p|]; cbn [Pos.size Z.log2]; rewrite ?Pos2Z.inj_succ; lia.
Qed.

Lemma Zdigits2_le M b : 0 < M < 2 ^ b -> Zdigits2 M <= b.
Proof.
  intros [Hpos Hlt]. destruct M as [|p|p]; try lia.
  rewrite Zdigits2_log2.
  assert (0 <= b) by (destruct (Z.le_gt_cases 0 b); [lia|];
                      rewrite Z.pow_neg_r in Hlt by lia; lia).
  assert (Z.log2 (Zpos p) < b) by (apply Z.log2_lt_pow2; lia).
  lia.
Qed.

Lemma Zdigits2_eq M d : 0 < d -> 2 ^ (d - 1) <= M < 2 ^ d -> Zdigits2 M = d.
Proof.
  intros Hd [Hlo Hhi].
  assert (0 < 2 ^ (d - 1)) by (apply Z.pow_pos_nonneg; lia).
  destruct M as [|p|p]; try lia.
  rewrite Zdigits2_log2.
  assert (E : Z.log2 (Zpos p) = d - 1).
  { apply Z.log2_unique; [lia|]. unfold Z.succ.
    replace (d - 1 + 1) with d by lia. lia. }
  lia.
Qed.

Lemma shr_1_bound mrs :
  0 <= shr_m mrs -> 0 <= shr_m (shr_1 mrs) /\ 2 * shr_m (shr_1 mrs) <= shr_m mrs.
Proof.
  destruct mrs as [m r s]. cbn [shr_m]. intros Hm.
  destruct m as [|[p|p|]|p]; cbn; lia.
Qed.

Lemma iter_shr_bound p :
  forall mrs, 0 <= shr_m mrs ->
  0 <= shr_m (SpecFloat.iter_pos shr_1 p mrs) /\
  shr_m (SpecFloat.iter_pos shr_1 p mrs) * 2 ^ Zpos p <= shr_m mrs.
Proof.
  induction p as [p IH|p IH|]; intros mrs Hm.
  - change (SpecFloat.iter_pos shr_1 p~1 mrs) with
      (SpecFloat.iter_pos shr_1 p (SpecFloat.iter_pos shr_1 p (shr_1 mrs))).
    destruct (shr_1_bound mrs Hm) as [H0 H1].
    set (r0 := shr_1 mrs) in *.
    destruct (IH r0 H0) as [H2 H3].
    set (r1 := SpecFloat.iter_pos shr_1 p r0) in *.
    destruct (IH r1 H2) as [H4 H5].
    set (r2 := SpecFloat.iter_pos shr_1 p r1) in *.
    split; [exact H4|].
    rewrite Pos2Z.inj_xI.
    replace (2 * Zpos p + 1) with (Zpos p + Zpos p + 1) by lia.
    rewrite !Z.pow_add_r by lia. change (2 ^ 1) with 2.
    assert (HX : 0 < 2 ^ Zpos p) by (apply Z.pow_pos_nonneg; lia).
    set (X := 2 ^ Zpos p) in *.
    assert (shr_m r2 * X * X <= shr_m r1 * X)
      by (apply Z.mul_le_mono_nonneg_r; lia).
    lia.
  - change (SpecFloat.iter_pos shr_1 p~0 mrs) with
      (SpecFloat.iter_pos shr_1 p (SpecFloat.iter_pos shr_1 p mrs)).
    destruct (IH mrs Hm) as [H2 H3].
    set (r1 := SpecFloat.iter_pos shr_1 p mrs) in *.
    destruct (IH r1 H2) as [H4 H5].
    set (r2 := SpecFloat.iter_pos shr_1 p r1) in *.
    split; [exact H4|].
    replace (Zpos p~0) with (Zpos p + Zpos p) by lia.
    rewrite !Z.pow_add_r by lia.
    assert (HX : 0 < 2 ^ Zpos p) by (apply Z.pow_pos_nonneg; lia).
    set (X := 2 ^ Zpos p) in *.
    assert (shr_m r2 * X * X <= shr_m r1 * X)
      by (apply Z.mul_le_mono_nonneg_r; lia).
    lia.
  - change (SpecFloat.iter_pos shr_1 1 mrs) with (shr_1 mrs).
    destruct (shr_1_bound mrs Hm) as [H0 H1]. change (2 ^ 1) with 2. lia.
Qed.

(** A right shift keeps the mantissa non-negative and bounded by the one
    it came from, at the scale of the new exponent. *)
Lemma shr_bound mrs e n :
  0 <= shr_m mrs ->
  0 <= shr_m (fst (shr mrs e n)) /\
  snd (shr mrs e n) = e + Z.max n 0 /\
  shr_m (fst (shr mrs e n)) * 2 ^ (Z.max n 0) <= shr_m mrs.
Proof.
  intros Hm. destruct n as [|p|p]; cbn [shr fst snd].
  - rewrite Z.max_r by lia. change (2 ^ 0) with 1. lia.
  - rewrite Z.max_l by lia. destruct (iter_shr_bound p mrs Hm). lia.
  - rewrite Z.max_r by lia. change (2 ^ 0) with 1. lia.
Qed.

Lemma round_nearest_even_bound m l :
  m <= round_nearest_even m l <= m + 1.
Proof.
  destruct l as [|[]]; cbn; try lia. destruct (Z.even m); lia.
Qed.

Lemma shr_m_of_loc m l : shr_m (shr_record_of_loc m l) = m.
Proof. destruct l as [|[]]; reflexivity. Qed.


Lemma pow_split a b : 0 <= a -> 0 <= b -> 2 ^ (a + b) = 2 ^ a * 2 ^ b.
Proof. intros. now apply Z.pow_add_r. Qed.

Lemma lt_of_scaled m q p : 0 < p -> m * p < q * p -> m < q.
Proof. intros Hp H. nia. Qed.

(** Rounding a positive mantissa to the format at most doubles the bound
    on the value. *)
Lemma binary_round_aux_bound M E B :
  0 < M < 2 ^ (B - E) -> -1074 <= B ->
  below_pow (B + 1) (binary_round_aux prec emax false M E loc_Exact).
Proof.
  intros [Hpos Hlt] HB.
  assert (HBE : 0 < B - E).
  { destruct (Z.lt_trichotomy (B - E) 0) as [H|[H|H]]; [| |exact H].
    - rewrite Z.pow_neg_r in Hlt by exact H. lia.
    - rewrite H in Hlt. change (2 ^ 0) with 1 in Hlt. lia. }
  assert (HdM : Zdigits2 M <= B - E) by (apply Zdigits2_le; lia).
  unfold binary_round_aux, shr_fexp. rewrite !fexp_eq.
  set (n1 := Z.max (Zdigits2 M + E - 53) (-1074) - E).
  destruct (shr_bound (shr_record_of_loc M loc_Exact) E n1) as (Hm' & He' & Hle');
    [rewrite shr_m_of_loc; lia|].
  rewrite shr_m_of_loc in Hle'.
  destruct (shr (shr_record_of_loc M loc_Exact) E n1) as [mrs' e'].
  cbn [fst snd] in Hm', He', Hle'. lazy beta iota. rewrite fexp_eq.
  assert (He'B : e' <= B) by lia.
  assert (Hm'lt : shr_m mrs' < 2 ^ (B - e')).
  { apply (lt_of_scaled _ _ (2 ^ Z.max n1 0)); [apply Z.pow_pos_nonneg; lia|].
    rewrite <- pow_split by lia. replace (B - e' + Z.max n1 0) with (B - E) by lia.
    lia. }
  pose proof (round_nearest_even_bound (shr_m mrs') (loc_of_shr_record mrs')) as Hr.
  set (m1 := round_nearest_even (shr_m mrs') (loc_of_shr_record mrs')) in *.
  assert (Hm1 : m1 < 2 ^ (B + 1 - e')).
  { replace (B + 1 - e') with (B - e' + 1) by lia. rewrite pow_split by lia.
    change (2 ^ 1) with 2. lia. }
  set (n2 := Z.max (Zdigits2 m1 + e' - 53) (-1074) - e').
  destruct (shr_bound (shr_record_of_loc m1 loc_Exact) e' n2) as (Hm'' & He'' & Hle'');
    [rewrite shr_m_of_loc; lia|].
  rewrite shr_m_of_loc in Hle''.
  destruct (shr (shr_record_of_loc m1 loc_Exact) e' n2) as [mrs'' e''].
  cbn [fst snd] in Hm'', He'', Hle''. lazy beta iota.
  destruct (shr_m mrs'') as [|m|m] eqn:Em; [exact I | | exact I].
  destruct (e'' <=? emax - prec); [|exact I].
  cbn [below_pow]. split; [reflexivity|].
  assert (Hm1pos : 0 < m1).
  { assert (0 < 2 ^ Z.max n2 0) by (apply Z.pow_pos_nonneg; lia). nia. }
  assert (Hdm1 : Zdigits2 m1 <= B + 1 - e') by (apply Zdigits2_le; lia).
  assert (He''B : e'' <= B + 1) by lia.
  apply (lt_of_scaled _ _ (2 ^ Z.max n2 0)); [apply Z.pow_pos_nonneg; lia|].
  rewrite <- pow_split by lia.
  replace (B + 1 - e'' + Z.max n2 0) with (B + 1 - e') by lia. lia.
Qed.

End Rounding.

Section Hundredths.

Local Open Scope Z_scope.

Lemma Prim2SF_hundred : Prim2SF 100 = S754_finite false 7036874417766400 (-46).
Proof. reflexivity. Qed.

(** One hundred times a number below 2 stays below 2^9. *)
Lemma times_hundred_bound x :
  below_pow 1 (Prim2SF x) -> below_pow 9 (Prim2SF (x * 100)%float).
Proof.
  rewrite FloatAxioms.mul_spec, Prim2SF_hundred. unfold SF64mul, SFmul.
  destruct (Prim2SF x) as [s|s| |s m e]; try exact (fun _ => I).
  cbn [below_pow]. intros [-> Hm]. cbn [xorb].
  apply (binary_round_aux_bound _ _ 8); [|lia].
  split; [lia|].
  assert (H1e : 0 < 1 - e).
  { destruct (Z.lt_trichotomy (1 - e) 0) as [H|[H|H]]; [| |exact H].
    - rewrite Z.pow_neg_r in Hm by exact H. lia.
    - rewrite H in Hm. change (2 ^ 0) with 1 in Hm. lia. }
  replace (8 - (e + -46)) with (1 - e + 53) by lia.
  rewrite pow_split by lia. rewrite Pos2Z.inj_mul.
  assert (7036874417766400 < 2 ^ 53) by reflexivity.
  nia.
Qed.

Lemma small_integers_exact :
  forallb (fun z => (JS.to_Z (JS.of_Z z) =? z)) (seqZ 0 513) = true.
Proof. vm_compute. reflexivity. Qed.

Lemma to_Z_of_Z_small z : 0 <= z <= 512 -> JS.to_Z (JS.of_Z z) = z.
Proof.
  intros Hz. pose proof small_integers_exact as H. rewrite forallb_forall in H.
  apply Z.eqb_eq, H, list_elem_of_In, elem_of_seqZ. lia.
Qed.

(** Rounding a number below 2^9 to the nearest integer gives at most 512. *)
Lemma round_bound y :
  below_pow 9 (Prim2SF y) -> 0 <= JS.to_Z (JS.Math_round y) <= 512.
Proof.
  unfold JS.Math_round. destruct (Prim2SF y) as [s|s| |s m e] eqn:Ey;
    try (intros _; unfold JS.to_Z; rewrite Ey; lia).
  cbn [below_pow]. intros [-> Hm]. cbn [cond_Zopp andb].
  destruct (Z.ltb_spec e 0) as [He|He].
  - rewrite andb_false_r.
    set (z := Z.shiftl (2 * Z.pos m + 2 ^ (- e)) (e - 1)).
    assert (Hz : 0 <= z <= 512).
    { unfold z. rewrite Z.shiftl_div_pow2 by lia.
      replace (- (e - 1)) with (1 - e) by lia.
      assert (0 < 2 ^ (1 - e)) by (apply Z.pow_pos_nonneg; lia).
      assert (0 < 2 ^ (- e)) by (apply Z.pow_pos_nonneg; lia).
      assert (E1 : 2 ^ (1 - e) = 2 * 2 ^ (- e)).
      { replace (1 - e) with (1 + - e) by lia. now rewrite pow_split by lia. }
      assert (E9 : 2 ^ (9 - e) = 512 * 2 ^ (- e)).
      { replace (9 - e) with (9 + - e) by lia. now rewrite pow_split by lia. }
      split.
      - apply Z.div_pos; lia.
      - apply Z.lt_succ_r, Z.div_lt_upper_bound; lia. }
    now rewrite to_Z_of_Z_small.
  - unfold JS.to_Z. rewrite Ey. cbn [cond_Zopp].
    rewrite Z.shiftl_mul_pow2 by lia.
    assert (H9e : 0 <= 9 - e).
    { destruct (Z.le_gt_cases 0 (9 - e)) as [H|H]; [exact H|].
      rewrite Z.pow_neg_r in Hm by lia. lia. }
    assert (0 < 2 ^ e) by (apply Z.pow_pos_nonneg; lia).
    assert (E9 : 2 ^ (9 - e) * 2 ^ e = 512).
    { rewrite <- pow_split by lia. now replace (9 - e + e) with 9 by lia. }
    nia.
Qed.


Lemma iter_xO kp sp : Zpos (Pos.iter xO kp sp) = Zpos kp * 2 ^ Zpos sp.
Proof.
  induction sp as [|sp IH] using Pos.peano_ind.
  - cbn [Pos.iter]. change (2 ^ 1) with 2. lia.
  - rewrite Pos.iter_succ, Pos2Z.inj_xO, IH, Pos2Z.inj_succ, Z.pow_succ_r by lia.
    lia.
Qed.

(** A mantissa of 53 bits with an exponent of the format is kept as it
    is by the rounding. *)
Lemma round_aux_canonical mz e :
  2 ^ 52 <= Zpos mz < 2 ^ 53 -> -1074 <= e <= 971 ->
  binary_round_aux prec emax false (Zpos mz) e loc_Exact = S754_finite false mz e.
Proof.
  intros Hmz He. unfold binary_round_aux, shr_fexp.
  rewrite fexp_eq, (Zdigits2_eq (Zpos mz) 53) by lia.
  replace (Z.max (53 + e - 53) (-1074) - e) with 0 by lia.
  cbn [shr shr_record_of_loc shr_m loc_of_shr_record round_nearest_even].
  rewrite fexp_eq, (Zdigits2_eq (Zpos mz) 53) by lia.
  replace (Z.max (53 + e - 53) (-1074) - e) with 0 by lia.
  cbn [shr shr_record_of_loc shr_m].
  replace (e <=? emax - prec) with true; [reflexivity|].
  symmetry. apply Z.leb_le. change (emax - prec) with 971. lia.
Qed.

Lemma normalize_exact kp sp :
  2 ^ 52 <= Zpos kp * 2 ^ Zpos sp < 2 ^ 53 -> Zpos sp <= 52 ->
  binary_normalize prec emax (Zpos kp) 0 false =
  S754_finite false (Pos.iter xO kp sp) (Zneg sp).
Proof.
  intros Hk Hs. unfold binary_normalize, binary_round.
  assert (Hpow : 0 < 2 ^ Zpos sp) by (apply Z.pow_pos_nonneg; lia).
  assert (Hd : Zpos (digits2_pos kp) = 53 - Zpos sp).
  { change (Zpos (digits2_pos kp)) with (Zdigits2 (Zpos kp)).
    apply Zdigits2_eq; [lia|].
    assert (E52 : 2 ^ 52 = 2 ^ (53 - Zpos sp - 1) * 2 ^ Zpos sp)
      by (rewrite <- pow_split by lia; f_equal; lia).
    assert (E53 : 2 ^ 53 = 2 ^ (53 - Zpos sp) * 2 ^ Zpos sp)
      by (rewrite <- pow_split by lia; f_equal; lia).
    rewrite E52, E53 in Hk. nia. }
  rewrite Hd, fexp_eq.
  replace (Z.max (53 - Zpos sp + 0 - 53) (-1074)) with (Zneg sp) by lia.
  unfold shl_align. change (Zneg sp - 0) with (Zneg sp).
  apply round_aux_canonical; [rewrite iter_xO; exact Hk | lia].
Qed.

(** The number of a positive integer of the right size is the integer,
    to the bit. *)
Lemma Prim2SF_of_Z_exact kp sp :
  2 ^ 52 <= Zpos kp * 2 ^ Zpos sp < 2 ^ 53 -> Zpos sp <= 52 ->
  Prim2SF (JS.of_Z (Zpos kp)) = S754_finite false (Pos.iter xO kp sp) (Zneg sp).
Proof.
  intros Hk Hs. unfold JS.of_Z. rewrite (normalize_exact kp sp Hk Hs).
  apply Prim2SF_SF2Prim. cbn [valid_binary]. unfold bounded, canonical_mantissa.
  change (Zpos (digits2_pos (Pos.iter xO kp sp))) with
    (Zdigits2 (Zpos (Pos.iter xO kp sp))).
  rewrite (Zdigits2_eq _ 53) by (rewrite ?iter_xO; lia).
  rewrite fexp_eq. apply andb_true_iff. split.
  - apply Z.eqb_eq. lia.
  - apply Z.leb_le. change (emax - prec) with 971. lia.
Qed.


Lemma Zdigits2_spec p :
  2 ^ (Zdigits2 (Zpos p) - 1) <= Zpos p < 2 ^ Zdigits2 (Zpos p).
Proof.
  rewrite Zdigits2_log2. replace (Z.log2 (Zpos p) + 1 - 1) with (Z.log2 (Zpos p)) by lia.
  pose proof (Z.log2_spec (Zpos p) ltac:(lia)) as H. unfold Z.succ in H. exact H.
Qed.

Lemma pow_pos_of_lt x b : 0 < x < 2 ^ b -> 0 <= b.
Proof.
  intros [Hx Hlt]. destruct (Z.le_gt_cases 0 b) as [H|H]; [exact H|].
  rewrite Z.pow_neg_r in Hlt by lia. lia.
Qed.

(** Aligning a mantissa to a smaller exponent keeps the bound on the
    value. *)
Lemma shl_align_bound dp e ex' B :
  Zpos dp < 2 ^ (B - e) ->
  Zpos (fst (shl_align dp e ex')) < 2 ^ (B - snd (shl_align dp e ex')).
Proof.
  intros Hd. pose proof (pow_pos_of_lt (Zpos dp) (B - e) ltac:(lia)) as HBe.
  unfold shl_align. destruct (ex' - e) as [|t|t] eqn:Et; cbn [fst snd]; try exact Hd.
  rewrite iter_xO. replace (B - ex') with (B - e + Zpos t) by lia.
  rewrite pow_split by lia.
  assert (0 < 2 ^ Zpos t) by (apply Z.pow_pos_nonneg; lia). nia.
Qed.

Lemma not_negative_sign a s m e :
  (a <? 0)%float = false -> Prim2SF a = S754_finite s m e -> s = false.
Proof.
  intros H E. rewrite FloatAxioms.ltb_spec, E in H.
  change (Prim2SF 0) with (S754_zero false) in H.
  destruct s; [discriminate | reflexivity].
Qed.

(** What is left of a number that is not negative once the integer below
    it is taken off stays below 2. *)
Lemma fraction_bound a :
  (a <? 0)%float = false -> below_pow 1 (Prim2SF (a - JS.Math_floor a)%float).
Proof.
  intros Hs. rewrite FloatAxioms.sub_spec. unfold JS.Math_floor, SF64sub.
  pose proof (Prim2SF_valid a) as Hv.
  destruct (Prim2SF a) as [s|s| |s m e] eqn:Ea.
  - rewrite Ea. destruct s; exact I.
  - rewrite Ea. destruct s; exact I.
  - rewrite Ea. exact I.
  - assert (s = false) by (eapply not_negative_sign; eassumption). subst s.
    cbn [cond_Zopp]. destruct (Z.ltb_spec e 0) as [He|He].
    + (* a fractional part: the integer below is [m / 2 ^ (- e)] *)
      cbn [valid_binary] in Hv. unfold bounded, canonical_mantissa in Hv.
      apply andb_true_iff in Hv as [Hc _]. apply Z.eqb_eq in Hc.
      change (Zpos (digits2_pos m)) with (Zdigits2 (Zpos m)) in Hc.
      rewrite fexp_eq in Hc. pose proof (Zdigits2_spec m) as Hdm.
      destruct e as [|ep|sp]; try lia.
      assert (Hpow : 0 < 2 ^ Zpos sp) by (apply Z.pow_pos_nonneg; lia).
      assert (Hk : Z.shiftl (Zpos m) (Zneg sp) = Zpos m / 2 ^ Zpos sp)
        by (rewrite Z.shiftl_div_pow2 by lia; reflexivity).
      rewrite Hk.
      pose proof (Z.div_mod (Zpos m) (2 ^ Zpos sp) ltac:(lia)) as Hdiv.
      pose proof (Z.mod_pos_bound (Zpos m) (2 ^ Zpos sp) Hpow) as Hmod.
      destruct (Zpos m / 2 ^ Zpos sp) as [|kp|kn] eqn:Ek.
      * (* the integer below is zero *)
        change (Prim2SF (JS.of_Z 0)) with (S754_zero false). cbn [SFsub below_pow].
        split; [reflexivity|].
        replace (1 - Zneg sp) with (1 + Zpos sp) by lia. rewrite pow_split by lia.
        change (2 ^ 1) with 2. lia.
      * (* a positive integer: it has the exponent of the number *)
        assert (Hd53 : Zdigits2 (Zpos m) = 53).
        { destruct (Z.max_spec (Zdigits2 (Zpos m) + Zneg sp - 53) (-1074))
            as [[Hlt Hmax]|[Hge Hmax]]; [|lia].
          exfalso. rewrite Hmax in Hc.
          assert (Zdigits2 (Zpos m) <= 53) by lia.
          assert (Zpos m < 2 ^ 53).
          { eapply Z.lt_le_trans; [apply Hdm|]. apply Z.pow_le_mono_r; lia. }
          assert (2 ^ 53 <= 2 ^ Zpos sp) by (apply Z.pow_le_mono_r; lia).
          nia. }
        rewrite Hd53 in Hdm. change (53 - 1) with 52 in Hdm.
        assert (Hsp : Zpos sp <= 52).
        { destruct (Z.le_gt_cases (Zpos sp) 52) as [H|H]; [exact H|].
          assert (2 ^ 53 <= 2 ^ Zpos sp) by (apply Z.pow_le_mono_r; lia). nia. }
        assert (Hkp : 2 ^ 52 <= Zpos kp * 2 ^ Zpos sp < 2 ^ 53).
        { split; [|nia].
          assert (E52 : 2 ^ 52 = 2 ^ (52 - Zpos sp) * 2 ^ Zpos sp)
            by (rewrite <- pow_split by lia; f_equal; lia).
          rewrite E52 in *.
          assert (2 ^ (52 - Zpos sp) < Zpos kp + 1) by nia.
          nia. }
        rewrite (Prim2SF_of_Z_exact kp sp Hkp Hsp).
        cbn [SFsub cond_Zopp]. rewrite Z.min_id. unfold shl_align at 1 2.
        rewrite Z.sub_diag. cbn [fst]. rewrite iter_xO.
        destruct (Zpos m - Zpos kp * 2 ^ Zpos sp) as [|dp|dn] eqn:ED;
          [exact I | | exfalso; nia].
        cbn [binary_normalize]. unfold binary_round.
        pose proof (shl_align_bound dp (Zneg sp)
                      (SpecFloat.fexp prec emax (Zpos (digits2_pos dp) + Zneg sp)) 0
                      ltac:(change (0 - Zneg sp) with (Zpos sp); lia)) as Hal.
        destruct (shl_align dp (Zneg sp) _) as [mz ez]. cbn [fst snd] in Hal.
        apply (binary_round_aux_bound (Zpos mz) ez 0); lia.
      * exfalso. nia.
    + (* an integer already *)
      rewrite Ea. cbn [SFsub cond_Zopp]. rewrite Z.sub_diag. exact I.
Qed.

(** The hundredths of an amount that is not negative. *)
Theorem hundredths_bound a :
  (a <? 0)%float = false -> 0 <= hundredths a <= 512.
Proof.
  intros Hs. unfold hundredths.
  apply round_bound, times_hundred_bound, fraction_bound, Hs.
Qed.

End Hundredths.

(** *** Strings *)

Section Strings.

Implicit Types s t : string.

Lemma append_empty_inv s t : s +:+ t = "" -> t = "".
Proof. destruct s; [trivial | discriminate]. Qed.

Lemma append_assoc s t u : (s +:+ t) +:+ u = s +:+ (t +:+ u).
Proof. induction s as [|c s IH]; simpl; congruence. Qed.

(** White space is trimmed from the end only: a suffix that ends in
    something else is kept, with all that precedes it. *)
Lemma trimEnd_app_keep s t :
  t <> "" -> Str.trimEnd t = t -> Str.trimEnd (s +:+ t) = s +:+ t.
Proof.
  intros Ht Hkeep. induction s as [|c s IH]; cbn; [exact Hkeep|].
  rewrite IH. destruct (s +:+ t) eqn:E; [|reflexivity].
  now apply append_empty_inv in E.
Qed.

Lemma trim_keep c s t :
  Str.is_space c = false -> t <> "" -> Str.trimEnd t = t ->
  Str.trim (String c s +:+ t) = String c s +:+ t.
Proof.
  intros Hc Ht Hkeep. unfold Str.trim.
  change (String c s +:+ t) with (String c (s +:+ t)) at 1.
  cbn [Str.trimStart]. rewrite Hc.
  change (String c (s +:+ t)) with (String c s +:+ t).
  now apply trimEnd_app_keep.
Qed.

(** A blank text trims to the empty string, and only a blank text does. *)
Lemma trimStart_blank s : Spec.blank s -> Str.trimStart s = "".
Proof.
  unfold Spec.blank. induction s as [|c s IH]; cbn; [reflexivity|].
  intros H. inversion H as [|? ? Hc Hs]; subst. rewrite Hc. now apply IH.
Qed.

Lemma trim_blank s : Spec.blank s -> Str.trim s = "".
Proof. intros H. unfold Str.trim. now rewrite trimStart_blank. Qed.

Lemma trimEnd_empty_blank s : Str.trimEnd s = "" -> Spec.blank s.
Proof.
  unfold Spec.blank. induction s as [|c s IH]; cbn; [constructor|].
  destruct (Str.trimEnd s) eqn:E; [|discriminate].
  destruct (Str.is_space c) eqn:Hc; [|discriminate].
  intros _. constructor; [exact Hc | now apply IH].
Qed.

Lemma trim_empty_blank s : Str.trim s = "" -> Spec.blank s.
Proof.
  unfold Str.trim, Spec.blank. induction s as [|c s IH]; cbn; [constructor|].
  destruct (Str.is_space c) eqn:Hc.
  - intros H. constructor; [exact Hc | now apply IH].
  - intros H. apply trimEnd_empty_blank in H. exact H.
Qed.

End Strings.

(** *** Amounts in words *)

Section NumberToWords.

Implicit Types (n d g : Z) (num : float).

Lemma forallb_seqZ (P : Z -> bool) k :
  forallb P (seqZ 0 k) = true -> forall z, (0 <= z < k)%Z -> P z = true.
Proof.
  intros H z Hz. rewrite forallb_forall in H.
  apply H, list_elem_of_In, elem_of_seqZ. lia.
Qed.

Lemma groups_checked : forallb group_checked (seqZ 0 1000) = true.
Proof. vm_compute. reflexivity. Qed.

(** Below one thousand the code's converter words a number as the
    specification does. *)
Lemma convert_below_1000 g :
  (0 <= g < 1000)%Z -> convertLessThanOneThousand g = Spec.below_1000 g.
Proof.
  intros Hg. pose proof (forallb_seqZ _ _ groups_checked g Hg) as H.
  apply andb_true_iff in H as [H _]. now apply String.eqb_eq in H.
Qed.

Lemma convert_capital g :
  (0 < g < 1000)%Z ->
  exists c r, capitalize (convertLessThanOneThousand g) = String c r /\
              Str.is_space c = false.
Proof.
  intros Hg.
  pose proof (forallb_seqZ _ _ groups_checked g ltac:(lia)) as H.
  apply andb_true_iff in H as [_ H]. apply orb_true_iff in H as [H|H].
  - apply Z.eqb_eq in H. lia.
  - destruct (capitalize (convertLessThanOneThousand g)) as [|c r];
      [discriminate|].
    exists c, r. split; [reflexivity|]. now apply negb_true_iff in H.
Qed.

End NumberToWords.

Section RupeeWords.

Implicit Types (n d g : Z).

(** Cutting one group off [tempNum]: whether the group is pushed or not,
    what is left is the remainder. *)
Lemma cut_group {A} (K : list string -> Z -> A) wordsArray tempNum D name :
  (0 <= tempNum)%Z -> (0 < D)%Z ->
  (let '(wordsArray', tempNum') :=
     if (tempNum / D >? 0)%Z
     then (wordsArray ++ [convertLessThanOneThousand (tempNum / D) +:+ name],
           Z.rem tempNum D)
     else (wordsArray, tempNum) in
   K wordsArray' tempNum') =
  K (wordsArray ++ pushed (tempNum / D) name) (tempNum mod D)%Z.
Proof.
  intros Ht HD. unfold pushed. destruct (Z.gtb_spec (tempNum / D) 0).
  - now rewrite Z.rem_mod_nonneg by lia.
  - rewrite app_nil_r, Z.mod_small; [reflexivity|].
    Z.to_euclidean_division_equations. nia.
Qed.

Lemma rupeesInWords_groups n :
  (0 < n)%Z ->
  rupeesInWords n =
  Str.join " "
    (pushed (n / 10 ^ 7) " crore" ++
     pushed (n / 10 ^ 5 mod 100) " lakh" ++
     pushed (n / 10 ^ 3 mod 100) " thousand" ++
     (if (n mod 1000 >? 0)%Z then [convertLessThanOneThousand (n mod 1000)] else [])).
Proof.
  intros Hn. unfold rupeesInWords.
  replace (n >? 0)%Z with true by (symmetry; apply Z.gtb_lt; lia).
  change (10 ^ 7)%Z with 10000000%Z. change (10 ^ 5)%Z with 100000%Z.
  change (10 ^ 3)%Z with 1000%Z.
  etransitivity; [apply cut_group; lia|].
  etransitivity; [apply cut_group; [apply Z.mod_pos_bound|]; lia|].
  etransitivity; [apply cut_group; [apply Z.mod_pos_bound|]; lia|].
  replace ((n mod 10000000) / 100000)%Z with (n / 100000 mod 100)%Z
    by (Z.to_euclidean_division_equations; lia).
  replace (((n mod 10000000) mod 100000) / 1000)%Z with (n / 1000 mod 100)%Z
    by (Z.to_euclidean_division_equations; lia).
  replace (((n mod 10000000) mod 100000) mod 1000)%Z with (n mod 1000)%Z
    by (Z.to_euclidean_division_equations; lia).
  destruct (n mod 1000 >? 0)%Z; cbn [app]; rewrite ?app_nil_r, <- ?app_assoc;
    reflexivity.
Qed.

(** C2, the integer part: a positive integer below one thousand crore is
    worded group by group in the Indian system. *)
Lemma rupeesInWords_indian n :
  (0 < n < 10 ^ 10)%Z -> rupeesInWords n = Spec.indian_words n.
Proof.
  intros Hn. rewrite rupeesInWords_groups by lia.
  unfold Spec.indian_words, Spec.group, pushed.
  assert (Hc : (0 <= n / 10 ^ 7 < 1000)%Z)
    by (change (10 ^ 7)%Z with 10000000%Z; change (10 ^ 10)%Z with 10000000000%Z in Hn;
        Z.to_euclidean_division_equations; lia).
  assert (Hl : (0 <= n / 10 ^ 5 mod 100 < 100)%Z) by (apply Z.mod_pos_bound; lia).
  assert (Ht : (0 <= n / 10 ^ 3 mod 100 < 100)%Z) by (apply Z.mod_pos_bound; lia).
  assert (Hr : (0 <= n mod 1000 < 1000)%Z) by (apply Z.mod_pos_bound; lia).
  rewrite !convert_below_1000 by lia.
  f_equal. repeat f_equal.
  all: match goal with
       | |- context [(?g >? 0)%Z] =>
           destruct (Z.gtb_spec g 0), (Z.eqb_spec g 0); try lia; reflexivity
       end.
Qed.

Lemma starts_solid_app s t : starts_solid s -> starts_solid (s +:+ t).
Proof. intros (c & r & -> & Hc). exists c, (r +:+ t). now split. Qed.

Lemma starts_solid_truthy s : starts_solid s -> Str.truthy s = true.
Proof. now intros (c & r & -> & _). Qed.

Lemma trim_solid s t :
  starts_solid s -> t <> "" -> Str.trimEnd t = t -> Str.trim (s +:+ t) = s +:+ t.
Proof. intros (c & r & -> & Hc). now apply trim_keep. Qed.

Lemma capitalize_app s t : s <> "" -> capitalize (s +:+ t) = capitalize s +:+ t.
Proof.
  destruct s as [|c s]; [congruence|]. intros _. unfold capitalize. cbn.
  reflexivity.
Qed.

Lemma capital_group g name :
  (0 < g < 1000)%Z -> starts_solid (capitalize (convertLessThanOneThousand g +:+ name)).
Proof.
  intros Hg. destruct (convert_capital g Hg) as (c & r & E & Hc).
  rewrite capitalize_app.
  - apply starts_solid_app. now exists c, r.
  - intros E0. rewrite E0 in E. discriminate.
Qed.

Lemma capital_join x rest :
  x <> "" -> starts_solid (capitalize x) ->
  starts_solid (capitalize (Str.join " " (x :: rest))).
Proof.
  intros Hx H. destruct rest as [|y rest]; [exact H|].
  change (Str.join " " (x :: y :: rest)) with (x +:+ " " +:+ Str.join " " (y :: rest)).
  rewrite capitalize_app by exact Hx. now apply starts_solid_app.
Qed.

Lemma starts_solid_nonempty s : starts_solid (capitalize s) -> s <> "".
Proof. intros (c & r & E & _) ->. discriminate. Qed.

(** The words of a positive integer part start with a capital letter once
    capitalised. *)
Lemma capital_rupees n :
  (0 < n < 10 ^ 10)%Z -> starts_solid (capitalize (rupeesInWords n)).
Proof.
  intros Hn. rewrite rupeesInWords_groups by lia. unfold pushed.
  assert (Hc : (0 <= n / 10 ^ 7 < 1000)%Z)
    by (change (10 ^ 7)%Z with 10000000%Z; change (10 ^ 10)%Z with 10000000000%Z in Hn;
        Z.to_euclidean_division_equations; lia).
  assert (Hl : (0 <= n / 10 ^ 5 mod 100 < 100)%Z) by (apply Z.mod_pos_bound; lia).
  assert (Ht : (0 <= n / 10 ^ 3 mod 100 < 100)%Z) by (apply Z.mod_pos_bound; lia).
  assert (Hr : (0 <= n mod 1000 < 1000)%Z) by (apply Z.mod_pos_bound; lia).
  assert (Hsome : (n / 10 ^ 7 = 0 -> n / 10 ^ 5 mod 100 = 0 ->
                   n / 10 ^ 3 mod 100 = 0 -> n mod 1000 = 0 -> False)%Z)
    by (change (10 ^ 7)%Z with 10000000%Z; change (10 ^ 5)%Z with 100000%Z;
        change (10 ^ 3)%Z with 1000%Z;
        Z.to_euclidean_division_equations; lia).
  destruct (Z.gtb_spec (n / 10 ^ 7) 0);
    [cbn [app]; apply capital_join;
       [eapply starts_solid_nonempty|]; apply capital_group; lia|].
  destruct (Z.gtb_spec (n / 10 ^ 5 mod 100) 0);
    [cbn [app]; apply capital_join;
       [eapply starts_solid_nonempty|]; apply capital_group; lia|].
  destruct (Z.gtb_spec (n / 10 ^ 3 mod 100) 0);
    [cbn [app]; apply capital_join;
       [eapply starts_solid_nonempty|]; apply capital_group; lia|].
  destruct (Z.gtb_spec (n mod 1000) 0); [|exfalso; apply Hsome; lia].
  cbn [app Str.join].
  destruct (convert_capital (n mod 1000) ltac:(lia)) as (c & r & E & Hc').
  now exists c, r.
Qed.

Lemma rupeesInWords_not_positive n : (n <= 0)%Z -> rupeesInWords n = "".
Proof.
  intros Hn. unfold rupeesInWords.
  now destruct (Z.gtb_spec n 0); [lia|].
Qed.

(** From the integer part and the hundredths on, the code words an amount
    as the amended rendering does. *)
Lemma toWords_parts_amount n d :
  (n < 10 ^ 10)%Z -> (d < 1000)%Z ->
  toWords_parts n d = Spec.amount_in_words n d.
Proof.
  intros Hn Hd. unfold toWords_parts, Spec.amount_in_words.
  destruct ((n =? 0)%Z && (d =? 0)%Z) eqn:Hzero; [reflexivity|].
  assert (Hpaise : (0 < d)%Z ->
            starts_solid (capitalize (convertLessThanOneThousand d))).
  { intros H. destruct (convert_capital d ltac:(lia)) as (c & r & E & Hc).
    now exists c, r. }
  destruct (Z.ltb_spec 0 n) as [Hpos|Hnonpos].
  - (* a rupee clause *)
    assert (Hrange : (0 < n < 10 ^ 10)%Z) by lia.
    pose proof (capital_rupees n Hrange) as Hsolid.
    rewrite <- rupeesInWords_indian by exact Hrange.
    pose proof (starts_solid_nonempty _ Hsolid) as Hne.
    destruct (rupeesInWords n) as [|c0 r0] eqn:Ewords; [congruence|].
    cbn [Str.truthy]. rewrite <- Ewords in *. clear Ewords.
    set (R := capitalize (rupeesInWords n)) in *.
    rewrite (starts_solid_truthy (R +:+ " Rupees")) by now apply starts_solid_app.
    destruct (Z.gtb_spec d 0), (Z.ltb_spec 0 d); try lia.
    + rewrite <- convert_below_1000 by lia. cbn [app Str.join].
      set (P := capitalize (convertLessThanOneThousand d)).
      rewrite <- (append_assoc _ P " Paise").
      rewrite trim_solid;
        [| now do 3 apply starts_solid_app | discriminate | reflexivity].
      now rewrite !append_assoc.
    + cbn [app Str.join].
      rewrite trim_solid; [reflexivity | exact Hsolid | discriminate | reflexivity].
  - (* no rupee clause *)
    rewrite rupeesInWords_not_positive by exact Hnonpos. cbn [Str.truthy].
    destruct (Z.gtb_spec d 0), (Z.ltb_spec 0 d); try lia; [|reflexivity].
    rewrite <- convert_below_1000 by lia. cbn [app Str.join].
    change ("" +:+ ?x) with x.
    rewrite trim_solid; [reflexivity | now apply Hpaise | discriminate | reflexivity].
Qed.

End RupeeWords.

Section ToWords.

Implicit Types (num : float) (n d : Z).

Lemma toWords_non_finite num :
  JS.isFinite num = false -> toWords num = Some "Invalid Number".
Proof. intros H. unfold toWords; cbn [toWords_rec]. now rewrite H. Qed.

Lemma toWords_not_negative num :
  JS.isFinite num = true -> (num <? 0)%float = false ->
  toWords num = Some (toWords_parts (integer_part num) (hundredths num)).
Proof. intros Hf Hs. unfold toWords; cbn [toWords_rec]. now rewrite Hf, Hs. Qed.

Lemma toWords_negative num :
  JS.isFinite num = true -> (num <? 0)%float = true ->
  toWords num =
    Some ("Minus " +:+
          toWords_parts (integer_part (JS.Math_abs num)) (hundredths (JS.Math_abs num)))
  /\ toWords (JS.Math_abs num) =
    Some (toWords_parts (integer_part (JS.Math_abs num)) (hundredths (JS.Math_abs num))).
Proof.
  intros Hf Hs. unfold toWords; cbn [toWords_rec].
  now rewrite Hf, Hs, isFinite_abs, Hf, abs_not_negative.
Qed.

(** [toWords] returns on every number: the nesting of calls that the
    embedding allows is enough. *)
Lemma toWords_total num : exists w, toWords num = Some w.
Proof.
  destruct (JS.isFinite num) eqn:Hf.
  - destruct (num <? 0)%float eqn:Hs.
    + eexists. now apply toWords_negative.
    + eexists. now apply toWords_not_negative.
  - eexists. now apply toWords_non_finite.
Qed.

(** C2, as amended.  For every finite amount whose absolute value has an
    integer part [n] below one thousand crore, [d] being its hundredths: the
    absolute value is rendered with [n] in English words in the Indian
    grouping followed by " Rupees" when [n] is positive, with the words of
    [d] followed by " Paise" when [d] is positive, " and " joining the two
    clauses when both are there, "Zero Rupees" when both are zero, and
    " Only" at the end; a negative amount is rendered as the rendering of
    its absolute value prefixed with "Minus ". *)
Theorem toWords_amended num :
  let a := JS.Math_abs num in
  let n := integer_part a in
  let d := hundredths a in
  JS.isFinite num = true ->
  (n < 10 ^ 10)%Z ->
  toWords a = Some (Spec.amount_in_words n d) /\
  toWords num =
    Some ((if (num <? 0)%float then "Minus " else "") +:+ Spec.amount_in_words n d).
Proof.
  cbv zeta. intros Hf Hn.
  pose proof (hundredths_bound (JS.Math_abs num) (abs_not_negative num)) as Hd.
  rewrite <- toWords_parts_amount by (assumption || lia).
  destruct (num <? 0)%float eqn:Hs.
  - destruct (toWords_negative num Hf Hs) as [-> ->]. now split.
  - destruct (abs_of_not_negative num Hs) as [E| ->].
    + rewrite E in *. rewrite (toWords_not_negative num Hf Hs). now split.
    + vm_compute. now split.
Qed.

Lemma toWords_amended_witness :
  toWords (-1234567.25) =
  Some "Minus Twelve lakh thirty four thousand five hundred and sixty seven Rupees and Twenty five Paise Only".
Proof.
  refine (proj2 (toWords_amended (-1234567.25) _ _)).
  - reflexivity.
  - vm_compute. reflexivity.
Defined.

(** C2, as stated, fails on an amount below one rupee: the code leaves the
    rupee clause out where the specification has "Zero Rupees and". *)
Lemma toWords_rupee_clause_counterexample :
  JS.isFinite 0.5 = true /\
  integer_part 0.5 = 0%Z /\ hundredths 0.5 = 50%Z /\
  toWords 0.5 = Some "Fifty Paise Only" /\
  Spec.stated_amount_in_words 0 50 = "Zero Rupees and Fifty Paise Only" /\
  toWords 0.5 <> Some (Spec.stated_amount_in_words (integer_part 0.5) (hundredths 0.5)) /\
  Str.contains "Rupees" "Fifty Paise Only" = false.
Proof. vm_compute. repeat split. discriminate. Qed.

(** C6. A non-finite amount (NaN, either infinity) yields the
    invalid-amount indication and the call returns; zero is
    "Zero Rupees Only", one hundred is "One hundred Rupees Only", and one
    hundred and a half has both a rupee clause and a paise clause. *)
Theorem toWords_special_cases :
  (forall num, JS.isFinite num = false -> toWords num = Some "Invalid Number") /\
  toWords PrimFloat.nan = Some "Invalid Number" /\
  toWords PrimFloat.infinity = Some "Invalid Number" /\
  toWords PrimFloat.neg_infinity = Some "Invalid Number" /\
  (forall num, exists w, toWords num = Some w) /\
  toWords 0 = Some "Zero Rupees Only" /\
  toWords 100 = Some "One hundred Rupees Only" /\
  toWords 100.5 = Some "One hundred Rupees and Fifty Paise Only" /\
  (exists w, toWords 100.5 = Some w /\
             Str.contains " Rupees" w = true /\ Str.contains " Paise" w = true).
Proof.
  split; [exact toWords_non_finite|].
  do 3 (split; [reflexivity|]).
  split; [exact toWords_total|].
  do 3 (split; [vm_compute; reflexivity|]).
  exists "One hundred Rupees and Fifty Paise Only".
  repeat split; vm_compute; reflexivity.
Qed.

End ToWords.

(** *** The invoice model *)

Section Model.

Implicit Types (invoice : Invoice.t) (items : list Item.t) (item : Item.t) (id now : Z).

Lemma items_after_change ch invoice :
  Invoice.items (handleInvoiceChange ch invoice) =
  match ch with
  | Set_items v => v
  | _ => Invoice.items invoice
  end.
Proof. destruct invoice, ch; reflexivity. Qed.

Lemma change_items_same invoice :
  handleInvoiceChange (Set_items (Invoice.items invoice)) invoice = invoice.
Proof. destruct invoice; reflexivity. Qed.

Lemma items_after_add now invoice :
  Invoice.items (handleAddItem now invoice) =
  Invoice.items invoice ++ [Item.mk now "" 0 0 ""].
Proof. unfold handleAddItem. now rewrite items_after_change. Qed.

Lemma items_after_remove id invoice :
  Invoice.items (handleRemoveItem id invoice) =
  List.filter (fun item => negb (Item.id item =? id)%Z) (Invoice.items invoice).
Proof. unfold handleRemoveItem. now rewrite items_after_change. Qed.

(** Filtering on the id keeps a sequence in which no item has it. *)
Lemma filter_absent id items :
  id ∉ Item.id <$> items ->
  List.filter (fun item => negb (Item.id item =? id)%Z) items = items.
Proof.
  induction items as [|item items IH]; cbn; [reflexivity|].
  intros H. apply not_elem_of_cons in H as [Hne H].
  destruct (Z.eqb_spec (Item.id item) id); [congruence|]. cbn.
  now rewrite IH.
Qed.

Lemma ids_after_filter_sublist id items :
  sublist (Item.id <$> List.filter (fun item => negb (Item.id item =? id)%Z) items)
          (Item.id <$> items).
Proof.
  induction items as [|item items IH]; cbn; [constructor|].
  destruct (negb (Item.id item =? id)%Z); cbn; now constructor.
Qed.

(** C4, as amended.  For every invoice state in which no item has the id
    that addItem mints (the time of the clock), addItem followed by
    removeItem with that id restores the state, and so the item sequence
    with its order. *)
Theorem add_then_remove_restores now invoice :
  now ∉ Spec.ids invoice ->
  handleRemoveItem now (handleAddItem now invoice) = invoice /\
  Invoice.items (handleRemoveItem now (handleAddItem now invoice)) =
    Invoice.items invoice.
Proof.
  intros Hfresh.
  assert (E : handleRemoveItem now (handleAddItem now invoice) = invoice).
  { unfold handleRemoveItem. rewrite items_after_add, List.filter_app.
    rewrite filter_absent by exact Hfresh. cbn. rewrite Z.eqb_refl. cbn.
    rewrite app_nil_r. unfold handleAddItem. destruct invoice; reflexivity. }
  now rewrite E.
Qed.

Lemma add_then_remove_restores_witness :
  handleRemoveItem 1700000000000 (handleAddItem 1700000000000 getInitialInvoiceState)
  = getInitialInvoiceState.
Proof.
  refine (proj1 (add_then_remove_restores 1700000000000 getInitialInvoiceState _)).
  vm_compute. intros H. apply list_elem_of_singleton in H. discriminate H.
Defined.

(** C4, as stated, fails when the minted id is already in use: two items
    added within the same millisecond share their id, and removing the
    second takes the first with it. *)
Lemma add_then_remove_counterexample :
  let prior := handleAddItem 1700000000000 getInitialInvoiceState in
  let after := handleRemoveItem 1700000000000 (handleAddItem 1700000000000 prior) in
  Spec.ids prior = [1; 1700000000000]%Z /\
  Spec.ids after = [1]%Z /\
  Invoice.items after <> Invoice.items prior.
Proof. vm_compute. repeat split. discriminate. Qed.

(** Counting: the filter drops as many items as have the id. *)
Lemma filter_length_count id items :
  (length (List.filter (fun item => negb (Item.id item =? id)%Z) items) +
   count_occ Z.eq_dec (Item.id <$> items) id = length items)%nat.
Proof.
  induction items as [|item items IH]; [reflexivity|].
  cbn [List.filter fmap list_fmap count_occ length].
  destruct (Z.eqb_spec (Item.id item) id) as [E|E]; destruct (Z.eq_dec (Item.id item) id);
    try congruence; cbn [negb length]; lia.
Qed.

Lemma filter_is_sublist id items :
  sublist (List.filter (fun item => negb (Item.id item =? id)%Z) items) items.
Proof.
  induction items as [|item items IH]; cbn; [constructor|].
  destruct (negb (Item.id item =? id)%Z); now constructor.
Qed.

(** A subsequence that holds no item of the id is a subsequence of what
    the filter keeps. *)
Lemma sublist_of_filter id (kept items : list Item.t) :
  sublist kept items -> (forall item, item ∈ kept -> Item.id item <> id) ->
  sublist kept (List.filter (fun item => negb (Item.id item =? id)%Z) items).
Proof.
  induction 1 as [|item kept items _ IH|item kept items _ IH]; intros Hkept; cbn.
  - constructor.
  - destruct (Z.eqb_spec (Item.id item) id) as [E|_].
    + exfalso. apply (Hkept item); [now left | exact E].
    + cbn. constructor. apply IH. intros x Hx. apply Hkept. now right.
  - destruct (negb (Item.id item =? id)%Z); [constructor|]; now apply IH.
Qed.

Lemma sublist_same_length {A} (l1 l2 : list A) :
  sublist l1 l2 -> length l1 = length l2 -> l1 = l2.
Proof.
  induction 1 as [|x l1 l2 _ IH|x l1 l2 Hsub _]; cbn; intros Hlen.
  - reflexivity.
  - f_equal. apply IH. lia.
  - apply sublist_length in Hsub. lia.
Qed.

(** C9. removeItem removes exactly the items whose id is the given one.
    An item is left iff it was there with another id; what is left keeps
    the order of the items, holds no item of the id, and is shorter by the
    number of items that had the id, so every other item is left as often
    as it was there; it is the only sequence of which that holds.  No other
    field is touched, and when no item has the id the state is unchanged.
    The function is total: no error occurs. *)
Theorem removeItem_exact id invoice :
  let invoice' := handleRemoveItem id invoice in
  (forall item,
     item ∈ Invoice.items invoice' <->
     item ∈ Invoice.items invoice /\ Item.id item <> id) /\
  sublist (Invoice.items invoice') (Invoice.items invoice) /\
  Spec.removed id (Invoice.items invoice) (Invoice.items invoice') /\
  (forall kept, Spec.removed id (Invoice.items invoice) kept ->
                kept = Invoice.items invoice') /\
  invoice' = handleInvoiceChange (Set_items (Invoice.items invoice')) invoice /\
  (id ∉ Spec.ids invoice -> invoice' = invoice /\
                            Invoice.items invoice' = Invoice.items invoice).
Proof.
  cbv zeta. rewrite items_after_remove.
  assert (Hin : forall item,
    item ∈ List.filter (fun item => negb (Item.id item =? id)%Z) (Invoice.items invoice) <->
    item ∈ Invoice.items invoice /\ Item.id item <> id).
  { intros item. rewrite !list_elem_of_In, filter_In, negb_true_iff, Z.eqb_neq.
    reflexivity. }
  split; [exact Hin|]. split; [apply filter_is_sublist|]. split; [|split; [|split]].
  - split; [apply filter_is_sublist|]. split; [intros item H; now apply Hin in H|].
    apply filter_length_count.
  - intros kept (Hsub & Hkept & Hlen).
    apply sublist_same_length; [now apply sublist_of_filter|].
    pose proof (filter_length_count id (Invoice.items invoice)). lia.
  - reflexivity.
  - intros Hfresh. rewrite filter_absent by exact Hfresh. split; [|reflexivity].
    unfold handleRemoveItem. rewrite filter_absent by exact Hfresh.
    apply change_items_same.
Qed.

(** Two rows alike in every field are both kept when a third is removed,
    and both removed with their id. *)
Example removeItem_twins :
  let twin := Item.mk 1700000000000 "" 0 0 "" in
  let invoice :=
    handleInvoiceChange (Set_items [Item.mk 1 "" 1 0 ""; twin; twin]) getInitialInvoiceState in
  Invoice.items (handleRemoveItem 1 invoice) = [twin; twin] /\
  Invoice.items (handleRemoveItem 1700000000000 invoice) = [Item.mk 1 "" 1 0 ""].
Proof. cbv zeta. split; reflexivity. Qed.

Lemma unique_after_add now invoice :
  Spec.unique_ids invoice -> now ∉ Spec.ids invoice ->
  Spec.unique_ids (handleAddItem now invoice).
Proof.
  unfold Spec.unique_ids, Spec.ids. intros Hu Hfresh.
  rewrite items_after_add, fmap_app. apply NoDup_app. repeat split.
  - exact Hu.
  - intros x Hx Hx'. apply list_elem_of_singleton in Hx'. now subst.
  - apply NoDup_singleton.
Qed.

Lemma unique_after_remove id invoice :
  Spec.unique_ids invoice -> Spec.unique_ids (handleRemoveItem id invoice).
Proof.
  unfold Spec.unique_ids, Spec.ids. intros Hu. rewrite items_after_remove.
  eapply sublist_NoDup; [exact Hu | apply ids_after_filter_sublist].
Qed.

Lemma unique_after_update index old updatedItem invoice invoice' :
  Spec.unique_ids invoice ->
  Invoice.items invoice !! index = Some old ->
  Item.id updatedItem = Item.id old ->
  handleItemChange index updatedItem invoice = Some invoice' ->
  Spec.unique_ids invoice'.
Proof.
  unfold Spec.unique_ids, Spec.ids, handleItemChange, assign_index.
  intros Hu Hold Hid Hchange.
  pose proof (lookup_lt_Some _ _ _ Hold) as Hlt.
  apply Nat.ltb_lt in Hlt. rewrite Hlt in Hchange. cbn in Hchange.
  injection Hchange as <-. rewrite items_after_change, list_fmap_insert, Hid.
  rewrite list_insert_id; [exact Hu|]. now rewrite list_lookup_fmap, Hold.
Qed.

Lemma unique_after_change ch invoice :
  Spec.unique_ids invoice ->
  (forall v, ch = Set_items v -> NoDup (Item.id <$> v)) ->
  Spec.unique_ids (handleInvoiceChange ch invoice).
Proof.
  unfold Spec.unique_ids, Spec.ids. intros Hu Hch. rewrite items_after_change.
  destruct ch; try exact Hu. now apply Hch.
Qed.

(** C8, as amended.  The initial state has pairwise distinct item ids, and
    they stay distinct in every state reached from it by removeItem, by
    addItem at a time that is not an id in use, by updateItem with an item
    that keeps the id of the one it replaces, and by updateField with a
    value that, when it replaces the items, brings distinct ids. *)
Theorem unique_ids_invariant invoice :
  reachable guarded_step invoice -> Spec.unique_ids invoice.
Proof.
  induction 1 as [|invoice invoice' _ IH Hstep].
  - unfold Spec.unique_ids. cbn. apply NoDup_singleton.
  - destruct Hstep.
    + now apply unique_after_add.
    + now apply unique_after_remove.
    + eapply unique_after_update; eassumption.
    + now apply unique_after_change.
Qed.

Lemma unique_ids_invariant_witness :
  Spec.unique_ids
    (handleRemoveItem 1 (handleAddItem 1700000000000 getInitialInvoiceState)).
Proof.
  apply unique_ids_invariant.
  apply (reachable_step _ (handleAddItem 1700000000000 getInitialInvoiceState)).
  - apply (reachable_step _ getInitialInvoiceState); [apply reachable_initial|].
    apply step_addItem. vm_compute. intros H.
    apply list_elem_of_singleton in H. discriminate H.
  - apply step_removeItem.
Defined.

(** C8, as stated, fails: two items added within the same millisecond
    leave a reachable state in which an id occurs twice; so does an update
    that gives an item the id of another, and so does a field update that
    stores items with a repeated id. *)
Lemma duplicate_ids_counterexample :
  let added := handleAddItem 1700000000000 getInitialInvoiceState in
  let twice := handleAddItem 1700000000000 added in
  let updated := handleInvoiceChange (Set_items [Item.mk 1 "" 0 0 ""; Item.mk 1 "" 0 0 ""]) added in
  (reachable step twice /\
   Spec.ids twice = [1; 1700000000000; 1700000000000]%Z /\
   ~ Spec.unique_ids twice) /\
  (handleItemChange 1 (Item.mk 1 "" 0 0 "") added = Some updated /\
   reachable step updated /\
   Spec.ids updated = [1; 1]%Z /\
   ~ Spec.unique_ids updated).
Proof.
  cbv zeta.
  assert (Hadded : reachable step (handleAddItem 1700000000000 getInitialInvoiceState))
    by (eapply reachable_step; [apply reachable_initial | apply any_addItem]).
  split; [split; [|split] | split; [|split; [|split]]].
  - eapply reachable_step; [exact Hadded | apply any_addItem].
  - reflexivity.
  - unfold Spec.unique_ids. change (~ NoDup [1; 1700000000000; 1700000000000]%Z).
    intros H. apply NoDup_cons in H as [_ H]. apply NoDup_cons in H as [H _].
    apply H. now left.
  - reflexivity.
  - eapply reachable_step; [exact Hadded | apply any_updateField].
  - reflexivity.
  - unfold Spec.unique_ids. change (~ NoDup [1; 1]%Z).
    intros H. apply NoDup_cons in H as [H _]. apply H. now left.
Qed.

End Model.

(** *** The export *)

Section PdfExport.

Implicit Types (inv : Invoice.t) (s : App) (r : rendering).

(** C7. When the invoice number is empty or white space only, the export
    is rejected before any asynchronous work starts: the handler shows the
    error notice and ends without reaching an await point, so whatever the
    browser would have answered, the notice is the error, no file is
    produced, and the invoice (and the busy flag) are as they were. *)
Theorem export_rejected_when_blank inv :
  Spec.blank (Invoice.invoiceNumber inv) ->
  handleDownloadPdf inv =
    perform (setFeedback (Some rejection))
      (perform (setTimeout (setFeedback None) 3000) done) /\
  awaits (handleDownloadPdf inv) = false /\
  forall r s,
    let s' := run (handleDownloadPdf inv) r s in
    feedback s' = Some rejection /\
    files s' = files s /\
    invoice s' = invoice s /\
    isDownloading s' = isDownloading s.
Proof.
  intros Hblank. unfold handleDownloadPdf.
  rewrite (trim_blank _ Hblank). cbn. repeat split.
Qed.

(** Only a blank invoice number is rejected: with any other the handler
    goes on to the await point. *)
Lemma export_starts_when_not_blank inv :
  ~ Spec.blank (Invoice.invoiceNumber inv) -> awaits (handleDownloadPdf inv) = true.
Proof.
  intros Hnot. unfold handleDownloadPdf.
  destruct (String.eqb_spec (Str.trim (Invoice.invoiceNumber inv)) "") as [E|_];
    [|reflexivity].
  exfalso. apply Hnot. now apply trim_empty_blank.
Qed.

Lemma export_rejected_when_blank_witness :
  let invoice := handleInvoiceChange (Set_invoiceNumber "  ") getInitialInvoiceState in
  awaits (handleDownloadPdf invoice) = false /\
  files (run (handleDownloadPdf invoice) (rendered "%PDF")
           (mkApp invoice false None [] [])) = [].
Proof.
  cbv zeta.
  pose proof (export_rejected_when_blank
    (handleInvoiceChange (Set_invoiceNumber "  ") getInitialInvoiceState)
    ltac:(repeat constructor)) as (_ & Hno & Hrun).
  split; [exact Hno|].
  exact (proj1 (proj2 (Hrun (rendered "%PDF") (mkApp _ false None [] [])))).
Defined.

(** With an invoice number the export does start, and a rendered document
    is downloaded under the name made of the type and the number. *)
Example export_with_number :
  let invoice :=
    handleInvoiceChange (Set_invoiceType Tax_Invoice)
      (handleInvoiceChange (Set_invoiceNumber "INV-7") getInitialInvoiceState) in
  awaits (handleDownloadPdf invoice) = true /\
  files (run (handleDownloadPdf invoice) (rendered "%PDF")
           (mkApp invoice false None [] [])) = [("tax-invoice-INV-7.pdf", "%PDF")].
Proof. vm_compute. split; reflexivity. Qed.

End PdfExport.

(** *** Colours *)

Section Checks.

Lemma forallb2_In {T1 T2} (f : T1 -> T2 -> bool) la lb :
  forallb2 f la lb = true -> forall a b, In a la -> In b lb -> f a b = true.
Proof.
  unfold forallb2. intros H a b Ha Hb.
  rewrite forallb_forall in H. specialize (H a Ha).
  rewrite forallb_forall in H. exact (H b Hb).
Qed.

Lemma forallb3_In {T1 T2 T3} (f : T1 -> T2 -> T3 -> bool) la lb lc :
  forallb3 f la lb lc = true ->
  forall a b c, In a la -> In b lb -> In c lc -> f a b c = true.
Proof.
  unfold forallb3. intros H a b c Ha Hb Hc.
  rewrite forallb_forall in H. specialize (H a Ha).
  rewrite forallb_forall in H. specialize (H b Hb).
  rewrite forallb_forall in H. exact (H c Hc).
Qed.

End Checks.

Section Contrast.

Implicit Types (c : ascii) (h l R G B : Z).

Lemma in_all_ascii c : In c all_ascii.
Proof.
  apply list_elem_of_In. unfold all_ascii.
  rewrite <- (ascii_nat_embedding c). apply list_elem_of_fmap_2, elem_of_seq.
  pose proof (nat_ascii_bounded c). lia.
Qed.

Lemma digit_pairs_ok : forallb2 digit_pair_checked all_ascii all_ascii = true.
Proof. vm_compute. reflexivity. Qed.

Lemma luma_decisions_ok :
  forallb3 luma_decision_checked
    (weighted 299 299) (weighted 587 587) (weighted 114 114) = true.
Proof. vm_compute. reflexivity. Qed.

Lemma hex_value_range c h : Num.hex_value c = Some h -> (0 <= h < 16)%Z.
Proof.
  unfold Num.hex_value. intros H.
  repeat match type of H with
         | (if ?b then _ else _) = _ => destruct b eqn:?
         end; try discriminate; injection H as <-;
    repeat match goal with
           | E : (_ && _) = true |- _ => apply andb_true_iff in E as [? ?]
           | E : (_ <=? _)%nat = true |- _ => apply Nat.leb_le in E
           end; lia.
Qed.

(** Two hexadecimal digits are read as the channel they denote. *)
Lemma parse_digit_pair hi lo h l :
  Num.hex_value hi = Some h -> Num.hex_value lo = Some l ->
  Num.parseInt16 (String hi (String lo EmptyString)) = JS.of_Z (Spec.channel h l).
Proof.
  intros Hh Hl.
  pose proof (forallb2_In _ _ _ digit_pairs_ok hi lo (in_all_ascii hi) (in_all_ascii lo))
    as H.
  unfold digit_pair_checked in H. rewrite Hh, Hl in H.
  now apply FloatAxioms.Leibniz.eqb_spec in H.
Qed.

Lemma in_weighted weight w v :
  (0 <= v < 256)%Z -> In ((JS.of_Z v * weight)%float, (v * w)%Z) (weighted weight w).
Proof.
  intros Hv. apply list_elem_of_In. unfold weighted.
  apply (list_elem_of_fmap_2 (fun v => ((JS.of_Z v * weight)%float, (v * w)%Z))).
  apply elem_of_seqZ. lia.
Qed.

Lemma luma_threshold R G B :
  Qle_bool 128 (Spec.luma R G B) = (128000 <=? R * 299 + G * 587 + B * 114)%Z.
Proof.
  unfold Qle_bool, Spec.luma. cbn.
  destruct (Z.leb_spec 128000 (R * 299 + G * 587 + B * 114));
    [apply Z.leb_le | apply Z.leb_gt]; lia.
Qed.

(** The comparison that the code makes on numbers is the comparison of the
    luma with 128. *)
Lemma luma_decision R G B :
  (0 <= R < 256)%Z -> (0 <= G < 256)%Z -> (0 <= B < 256)%Z ->
  JS.geb (((JS.of_Z R * 299) + (JS.of_Z G * 587) + (JS.of_Z B * 114)) / 1000)%float 128
  = Qle_bool 128 (Spec.luma R G B).
Proof.
  intros HR HG HB.
  pose proof (forallb3_In _ _ _ _ luma_decisions_ok _ _ _
                (in_weighted 299 299 R HR) (in_weighted 587 587 G HG)
                (in_weighted 114 114 B HB)) as H.
  unfold luma_decision_checked in H. cbn [fst snd] in H.
  apply Bool.eqb_prop in H. rewrite H. symmetry. apply luma_threshold.
Qed.

Lemma hex_not_hash c h : Num.hex_value c = Some h -> Ascii.eqb c "#" = false.
Proof.
  intros H. destruct (Ascii.eqb_spec c "#") as [->|]; [discriminate | reflexivity].
Qed.

(** What getContrastColor answers once the mark is removed and six
    hexadecimal digits are left. *)
Lemma contrast_of_digits hexColor c1 c2 c3 c4 c5 c6 h1 h2 h3 h4 h5 h6 :
  Str.truthy hexColor = true ->
  Str.replace_first "#" "" hexColor =
    String c1 (String c2 (String c3 (String c4 (String c5 (String c6 ""))))) ->
  Num.hex_value c1 = Some h1 -> Num.hex_value c2 = Some h2 ->
  Num.hex_value c3 = Some h3 -> Num.hex_value c4 = Some h4 ->
  Num.hex_value c5 = Some h5 -> Num.hex_value c6 = Some h6 ->
  getContrastColor hexColor =
  Spec.contrast_of (Spec.channel h1 h2) (Spec.channel h3 h4) (Spec.channel h5 h6).
Proof.
  intros Ht Hr H1 H2 H3 H4 H5 H6. unfold getContrastColor. rewrite Ht, Hr.
  change (Str.length (String c1 (String c2 (String c3 (String c4 (String c5
            (String c6 ""))))))) with 6%nat.
  change (Str.substring 0 2 (String c1 (String c2 (String c3 (String c4 (String c5
            (String c6 ""))))))) with (String c1 (String c2 "")).
  change (Str.substring 2 4 (String c1 (String c2 (String c3 (String c4 (String c5
            (String c6 ""))))))) with (String c3 (String c4 "")).
  change (Str.substring 4 6 (String c1 (String c2 (String c3 (String c4 (String c5
            (String c6 ""))))))) with (String c5 (String c6 "")).
  cbn [negb Nat.eqb].
  rewrite (parse_digit_pair _ _ _ _ H1 H2), (parse_digit_pair _ _ _ _ H3 H4),
    (parse_digit_pair _ _ _ _ H5 H6).
  pose proof (hex_value_range _ _ H1). pose proof (hex_value_range _ _ H2).
  pose proof (hex_value_range _ _ H3). pose proof (hex_value_range _ _ H4).
  pose proof (hex_value_range _ _ H5). pose proof (hex_value_range _ _ H6).
  rewrite luma_decision by (unfold Spec.channel; lia).
  reflexivity.
Qed.

(** C5. getContrastColor decodes a colour of six hexadecimal digits, with
    or without the leading mark, takes the luma
    [Y = 0.299 R + 0.587 G + 0.114 B] and answers black when [Y >= 128]
    and white otherwise: white on "#000000", black on "#FFFFFF"; and on an
    input that has not six characters once the mark is removed it answers
    white.  It is a total function: it never throws. *)
Theorem getContrastColor_luma :
  (forall c1 c2 c3 c4 c5 c6 h1 h2 h3 h4 h5 h6,
     Num.hex_value c1 = Some h1 -> Num.hex_value c2 = Some h2 ->
     Num.hex_value c3 = Some h3 -> Num.hex_value c4 = Some h4 ->
     Num.hex_value c5 = Some h5 -> Num.hex_value c6 = Some h6 ->
     let digits :=
       String c1 (String c2 (String c3 (String c4 (String c5 (String c6 ""))))) in
     let Y := Spec.luma (Spec.channel h1 h2) (Spec.channel h3 h4) (Spec.channel h5 h6) in
     getContrastColor (String "#" digits) = (if Qle_bool 128 Y then "#000000" else "#ffffff") /\
     getContrastColor digits = (if Qle_bool 128 Y then "#000000" else "#ffffff")) /\
  getContrastColor "#000000" = "#ffffff" /\
  getContrastColor "#FFFFFF" = "#000000" /\
  (forall hexColor,
     String.length (Str.replace_first "#" "" hexColor) <> 6%nat ->
     getContrastColor hexColor = "#ffffff").
Proof.
  split; [|split; [|split]].
  - intros c1 c2 c3 c4 c5 c6 h1 h2 h3 h4 h5 h6 H1 H2 H3 H4 H5 H6. cbv zeta.
    split.
    + eapply contrast_of_digits; [reflexivity | reflexivity | eassumption..].
    + eapply contrast_of_digits; [reflexivity | | eassumption..].
      cbn [Str.replace_first].
      now rewrite (hex_not_hash _ _ H1), (hex_not_hash _ _ H2), (hex_not_hash _ _ H3),
        (hex_not_hash _ _ H4), (hex_not_hash _ _ H5), (hex_not_hash _ _ H6).
  - vm_compute. reflexivity.
  - vm_compute. reflexivity.
  - intros hexColor Hlen. unfold getContrastColor, Str.length.
    destruct (Str.truthy hexColor); [|reflexivity]. cbn [negb].
    apply Nat.eqb_neq in Hlen. now rewrite Hlen.
Qed.

End Contrast.

(** *** The draft store *)

(** An object written as a list of fields is read field by field. *)
Lemma lookup_list_to_map {A} (l : list (string * A)) (k : string) :
  (list_to_map l : gmap string A) !! k = assoc k l.
Proof.
  induction l as [|[i x] l IH]; [apply lookup_empty|].
  rewrite list_to_map_cons, lookup_insert. cbn.
  destruct (String.eqb_spec i k); case_decide; congruence.
Qed.

Section DraftStoreProofs.

Variable JSON_parse : string -> outcome Json.value.

Implicit Types (items : gmap string string) (parsed : Json.value) (text key : string).

Abbreviation defaults := (Invoice_object getInitialInvoiceState).








End DraftStoreProofs.


(** The draft store at work on the stand-in parser: nothing stored, a
    corrupt text, [null], and a draft of an older shape whose theme colour
    is empty. *)
Example loadInitialState_runs :
  let defaults := Invoice_object getInitialInvoiceState in
  loadInitialState sample_parse (available ∅) = Returns defaults /\
  loadInitialState sample_parse (available {[ "invoiceDraft" := "{oops" ]}) =
    Returns defaults /\
  loadInitialState sample_parse (available {[ "invoiceDraft" := "null" ]}) =
    Returns defaults /\
  loadInitialState sample_parse (available {[ "invoiceDraft" := sample_draft ]}) =
    Returns (<[ "notes" := Json.String_ "Net 30" ]> defaults) /\
  loadInitialState sample_parse denied = Throws SecurityError.
Proof.
  cbv zeta. repeat split.
Qed.

(** *** The state as an object *)

Section ObjectUpdates.

Implicit Types (ch : Change) (prev : Invoice.t) (k : string).

(** The record update of a change is the write of the change's value
    under its key on the state's object. *)
Lemma object_after_change ch prev :
  Invoice_object (handleInvoiceChange ch prev) =
  <[Change_key ch := Change_value ch]> (Invoice_object prev).
Proof.
  apply map_eq. intros k. rewrite lookup_insert.
  unfold Invoice_object. rewrite !lookup_list_to_map.
  case_decide as Hk.
  - subst k. destruct prev, ch as [[l|]| | | | | | | | | | | | | | | |]; reflexivity.
  - destruct prev, ch as [[l|]| | | | | | | | | | | | | | | |];
      apply String.eqb_neq in Hk; cbn in Hk |- *; rewrite Hk; reflexivity.
Qed.

(** X1. handleInvoiceChange is the object spread of the source,
    [{ ...prev, [key]: value }]: on the object that the state holds it
    writes the value under the key, so the key reads the new value and
    every other key reads what it read before. *)
Theorem handleInvoiceChange_is_spread ch prev :
  let next := Invoice_object (handleInvoiceChange ch prev) in
  next = <[Change_key ch := Change_value ch]> (Invoice_object prev) /\
  next !! Change_key ch = Some (Change_value ch) /\
  forall k, k <> Change_key ch -> next !! k = Invoice_object prev !! k.
Proof.
  cbv zeta. rewrite object_after_change. split; [reflexivity|]. split.
  - apply lookup_insert_eq.
  - intros k Hk. now apply lookup_insert_ne.
Qed.

(** X2. Two changes in a row: a change of the key that the one before
    changed overwrites it, and changes of different keys commute. *)
Theorem changes_compose ch1 ch2 prev :
  (Change_key ch1 = Change_key ch2 ->
   handleInvoiceChange ch2 (handleInvoiceChange ch1 prev) =
   handleInvoiceChange ch2 prev) /\
  (Change_key ch1 <> Change_key ch2 ->
   handleInvoiceChange ch2 (handleInvoiceChange ch1 prev) =
   handleInvoiceChange ch1 (handleInvoiceChange ch2 prev)).
Proof.
  split; intros Hk; destruct prev, ch1, ch2; try reflexivity;
    solve [discriminate Hk | now contradict Hk].
Qed.

End ObjectUpdates.

(** *** The form *)

(** The form at work on the initial state with the stand-in for
    [parseFloat]: a quantity that is no number is stored as 0, a row that
    is not there has no handler, and the bin of the one row empties the
    list. *)
Example form_examples :
  App_InvoiceForm sample_parseFloat 0 false getInitialInvoiceState
    (item_change 0 Item_quantity "abc") = Some getInitialInvoiceState /\
  App_InvoiceForm sample_parseFloat 0 false getInitialInvoiceState
    (item_change 1 Item_quantity "2") = None /\
  Invoice.items <$> App_InvoiceForm sample_parseFloat 0 false getInitialInvoiceState
    (item_remove_click 0) = Some [] /\
  App_InvoiceForm sample_parseFloat 0 false getInitialInvoiceState remove_logo_click = None.
Proof. vm_compute. repeat split. Qed.

Section Form.

Variable parseFloat : string -> float.

Implicit Types (invoice : Invoice.t) (e : FormEvent) (now : Z) (up : bool).

Lemma or_zero_defined x : PrimFloat.is_nan (or_zero x) = false.
Proof.
  unfold or_zero. cbn. destruct (PrimFloat.is_nan x) eqn:E; [reflexivity | ].
  destruct (x =? 0)%float; [reflexivity | exact E].
Qed.

Lemma items_of_item_change invoice invoice' index item updatedItem :
  Invoice.items invoice !! index = Some item ->
  handleItemChange index updatedItem invoice = Some invoice' ->
  invoice' =
  handleInvoiceChange (Set_items (<[index := updatedItem]> (Invoice.items invoice))) invoice.
Proof.
  intros Hitem. unfold handleItemChange, assign_index.
  apply lookup_lt_Some, Nat.ltb_lt in Hitem. rewrite Hitem. cbn. congruence.
Qed.

Lemma ids_of_filter id (items : list Item.t) :
  Item.id <$> List.filter (fun item => negb (Item.id item =? id)%Z) items =
  List.filter (fun i => negb (i =? id)%Z) (Item.id <$> items).
Proof.
  induction items as [|i l IH]; [reflexivity|]. cbn.
  destruct (Item.id i =? id)%Z; cbn; now rewrite IH.
Qed.

(** Filtering a sequence without repetition on an element deletes the
    element at its place. *)
Lemma filter_id_delete (l : list Z) index id :
  NoDup l -> l !! index = Some id ->
  List.filter (fun i => negb (i =? id)%Z) l = delete index l.
Proof.
  revert index. induction l as [|i l IH]; intros index Hu Hid; [discriminate|].
  apply NoDup_cons in Hu as [Hi Hu]. destruct index as [|index]; cbn in *.
  - injection Hid as ->. rewrite Z.eqb_refl. cbn.
    clear IH Hu. induction l as [|j l IH]; [reflexivity|]. cbn.
    apply not_elem_of_cons in Hi as [Hne Hi].
    destruct (Z.eqb_spec j id); [congruence|]. cbn. now rewrite IH.
  - destruct (Z.eqb_spec i id) as [->|_]; cbn.
    + exfalso. apply Hi. eapply list_elem_of_lookup_2, Hid.
    + f_equal. now apply IH.
Qed.

Lemma filter_unique_delete id index (items : list Item.t) item :
  NoDup (Item.id <$> items) ->
  items !! index = Some item -> Item.id item = id ->
  List.filter (fun item => negb (Item.id item =? id)%Z) items = delete index items.
Proof.
  revert index. induction items as [|i l IH]; intros index Hu Hitem Hid; [discriminate|].
  cbn in Hu. apply NoDup_cons in Hu as [Hi Hu]. destruct index as [|index]; cbn in *.
  - injection Hitem as ->. rewrite Hid, Z.eqb_refl. cbn.
    apply filter_absent. now rewrite <- Hid.
  - destruct (Z.eqb_spec (Item.id i) id) as [E|_]; cbn.
    + exfalso. apply Hi. rewrite E, <- Hid.
      apply list_elem_of_fmap_2. eapply list_elem_of_lookup_2, Hitem.
    + f_equal. now apply IH.
Qed.

(** What an event of the form does to the ids: the button that adds an
    item appends the reading of the clock, the bin of a row filters on the
    row's id, and nothing else touches them. *)
Lemma form_keeps_ids now up invoice e invoice' :
  App_InvoiceForm parseFloat now up invoice e = Some invoice' ->
  match e with
  | add_item_click => Spec.ids invoice' = Spec.ids invoice ++ [now]
  | item_remove_click index =>
      exists id, Spec.ids invoice !! index = Some id /\
                 Spec.ids invoice' =
                 List.filter (fun i => negb (i =? id)%Z) (Spec.ids invoice)
  | _ => Spec.ids invoice' = Spec.ids invoice
  end.
Proof.
  unfold App_InvoiceForm, Spec.ids.
  destruct e; cbn; intros H;
    try (injection H as <-; rewrite ?items_after_change; reflexivity).
  - destruct (Invoice.items invoice !! index) as [item|] eqn:Hitem; [|discriminate].
    cbn in H. destruct item as [id d q p h].
    assert (exists u, handleItemChange index u invoice = Some invoice' /\ Item.id u = id)
      as (u & Hu & Hid)
      by (destruct input; (eexists; split; [exact H | reflexivity])).
    rewrite (items_of_item_change _ _ _ _ _ Hitem Hu), items_after_change.
    rewrite list_fmap_insert, Hid. apply list_insert_id.
    now rewrite list_lookup_fmap, Hitem.
  - destruct (Invoice.items invoice !! index) as [item|] eqn:Hitem; [|discriminate].
    cbn in H. injection H as <-. exists (Item.id item). split.
    + now rewrite list_lookup_fmap, Hitem.
    + rewrite items_after_remove. apply ids_of_filter.
  - injection H as <-. now rewrite items_after_add, fmap_app.
  - injection H as <-. destruct rate; now rewrite items_after_change.
  - unfold handleBankDetailsChange in H. destruct (Invoice.bankDetails invoice).
    injection H as <-. now rewrite items_after_change.
  - destruct (_ && _); [|discriminate]. cbn in H. injection H as <-.
    unfold handleRemoveLogo. now rewrite !items_after_change.
Qed.

(** X3. Through the form the item ids stay pairwise distinct as long as
    the clock, when an item is added, reads a time that is not an id in
    use: no input of the form edits an id, the bin of a row deletes the
    row's id, and the button that adds an item appends the clock's
    reading. *)
Theorem form_keeps_unique_ids now up invoice e invoice' :
  Spec.unique_ids invoice ->
  (e = add_item_click -> now ∉ Spec.ids invoice) ->
  App_InvoiceForm parseFloat now up invoice e = Some invoice' ->
  Spec.unique_ids invoice' /\
  match e with
  | add_item_click => Spec.ids invoice' = Spec.ids invoice ++ [now]
  | item_remove_click index => Spec.ids invoice' = delete index (Spec.ids invoice)
  | _ => Spec.ids invoice' = Spec.ids invoice
  end.
Proof.
  intros Hu Hnow H. pose proof (form_keeps_ids _ _ _ _ _ H) as Hids.
  unfold Spec.unique_ids in *.
  destruct e; try (rewrite Hids; split; [exact Hu | reflexivity]).
  - destruct Hids as (id & Hid & ->).
    rewrite (filter_id_delete _ _ _ Hu Hid). split; [|reflexivity].
    eapply sublist_NoDup; [exact Hu | apply sublist_delete].
  - rewrite Hids. split; [|reflexivity]. apply NoDup_app. repeat split.
    + exact Hu.
    + intros x Hx Hx'. apply list_elem_of_singleton in Hx'. subst. now apply Hnow.
    + apply NoDup_singleton.
Qed.

Lemma defined_after_change ch invoice :
  numbers_defined invoice ->
  match ch with
  | Set_cgstRate v | Set_sgstRate v | Set_igstRate v | Set_taxRate v
  | Set_discountRate v => PrimFloat.is_nan v = false
  | Set_items v =>
      Forall (fun item => PrimFloat.is_nan (Item.quantity item) = false /\
                          PrimFloat.is_nan (Item.price item) = false) v
  | _ => True
  end ->
  numbers_defined (handleInvoiceChange ch invoice).
Proof.
  unfold numbers_defined. destruct invoice, ch; cbn; intuition.
Qed.

(** X4. The form stores no NaN: no rate, quantity or price of the initial
    state is NaN, and none becomes NaN by an event of the form, whatever
    [parseFloat] reads from the text typed (a text that is no number is
    stored as 0). *)
Theorem form_stores_no_NaN :
  numbers_defined getInitialInvoiceState /\
  forall now up invoice e invoice',
    numbers_defined invoice ->
    App_InvoiceForm parseFloat now up invoice e = Some invoice' ->
    numbers_defined invoice'.
Proof.
  split; [unfold numbers_defined; cbn; repeat split; repeat constructor|].
  intros now up invoice e invoice' Hd. unfold App_InvoiceForm.
  destruct e; cbn; intros H;
    try (injection H as <-; now apply defined_after_change).
  - destruct (Invoice.items invoice !! index) as [item|] eqn:Hitem; [|discriminate].
    cbn in H. destruct item as [id d q p h].
    assert (Hitem' : PrimFloat.is_nan q = false /\ PrimFloat.is_nan p = false).
    { destruct Hd as (_ & _ & _ & _ & _ & Hall).
      rewrite Forall_lookup in Hall. exact (Hall _ _ Hitem). }
    assert (exists u, handleItemChange index u invoice = Some invoice' /\
                      PrimFloat.is_nan (Item.quantity u) = false /\
                      PrimFloat.is_nan (Item.price u) = false)
      as (u & Hu & Hq)
      by (destruct input;
          (eexists; split; [exact H | cbn; rewrite ?or_zero_defined; tauto])).
    rewrite (items_of_item_change _ _ _ _ _ Hitem Hu).
    apply defined_after_change; [exact Hd|]. apply Forall_insert; [|exact Hq].
    apply Hd.
  - destruct (Invoice.items invoice !! index) as [item|] eqn:Hitem; [|discriminate].
    cbn in H. injection H as <-. apply defined_after_change; [exact Hd|].
    destruct Hd as (_ & _ & _ & _ & _ & Hall). rewrite Forall_forall in Hall |- *.
    intros x Hx. apply Hall. apply list_elem_of_In in Hx.
    apply filter_In in Hx as [Hx _]. now apply list_elem_of_In.
  - injection H as <-. apply defined_after_change; [exact Hd|].
    apply Forall_app. split; [apply Hd|]. repeat constructor.
  - injection H as <-. destruct rate; (apply defined_after_change; [exact Hd|]);
      apply or_zero_defined.
  - unfold handleBankDetailsChange in H. destruct (Invoice.bankDetails invoice).
    injection H as <-. now apply defined_after_change.
  - destruct (_ && _); [|discriminate]. cbn in H. injection H as <-.
    unfold handleRemoveLogo. now repeat apply defined_after_change.
Qed.

(** X5. With pairwise distinct ids, a click on the bin of a row deletes
    that row and no other, and leaves the rest of the invoice as it is. *)
Theorem row_bin_deletes_row now up invoice index item :
  Spec.unique_ids invoice ->
  Invoice.items invoice !! index = Some item ->
  App_InvoiceForm parseFloat now up invoice (item_remove_click index) =
    Some (handleInvoiceChange (Set_items (delete index (Invoice.items invoice))) invoice).
Proof.
  intros Hu Hitem. unfold App_InvoiceForm. cbn. rewrite Hitem. cbn.
  unfold handleRemoveItem.
  now rewrite (filter_unique_delete _ _ _ _ Hu Hitem eq_refl).
Qed.

(** X6. Typing in an input of a row changes the one field of the one
    item: the item at the row's index is replaced by a copy that differs
    in that field only (a number being what [parseFloat] reads, or 0), the
    items at the other indices, their number, and the rest of the invoice
    are as before; on an index that has no row there is no handler. *)
Theorem row_input_is_local now up invoice index input value :
  match Invoice.items invoice !! index with
  | None =>
      App_InvoiceForm parseFloat now up invoice (item_change index input value) = None
  | Some item =>
      exists invoice' item',
        App_InvoiceForm parseFloat now up invoice (item_change index input value) =
          Some invoice' /\
        invoice' = handleInvoiceChange (Set_items (Invoice.items invoice')) invoice /\
        length (Invoice.items invoice') = length (Invoice.items invoice) /\
        Invoice.items invoice' !! index = Some item' /\
        (forall j, j <> index ->
           Invoice.items invoice' !! j = Invoice.items invoice !! j) /\
        item' =
          match input with
          | Item_description =>
              Item.mk (Item.id item) value (Item.quantity item) (Item.price item)
                (Item.hsn item)
          | Item_quantity =>
              Item.mk (Item.id item) (Item.description item)
                (or_zero (parseFloat value)) (Item.price item) (Item.hsn item)
          | Item_price =>
              Item.mk (Item.id item) (Item.description item) (Item.quantity item)
                (or_zero (parseFloat value)) (Item.hsn item)
          | Item_hsn =>
              Item.mk (Item.id item) (Item.description item) (Item.quantity item)
                (Item.price item) value
          end
  end.
Proof.
  unfold App_InvoiceForm. cbn.
  destruct (Invoice.items invoice !! index) as [item|] eqn:Hitem; [|reflexivity].
  cbn. pose proof (lookup_lt_Some _ _ _ Hitem) as Hlt.
  assert (Hset : forall u,
    handleItemChange index u invoice =
    Some (handleInvoiceChange (Set_items (<[index := u]> (Invoice.items invoice))) invoice)).
  { intros u. unfold handleItemChange, assign_index.
    apply Nat.ltb_lt in Hlt. now rewrite Hlt. }
  destruct item as [id d q p h]. unfold item_onChange. rewrite Hset.
  do 2 eexists. split; [reflexivity|]. rewrite items_after_change.
  split; [destruct invoice; reflexivity|].
  split; [apply length_insert|].
  split; [now apply list_lookup_insert_eq|].
  split; [intros j Hj; now apply list_lookup_insert_ne|].
  destruct input; reflexivity.
Qed.

End Form.

Lemma form_keeps_unique_ids_witness :
  Spec.unique_ids
    (handleInvoiceChange (Set_items [Item.mk 1 "" 0 0 ""; Item.mk 5 "" 0 0 ""])
       getInitialInvoiceState).
Proof.
  refine (proj1 (form_keeps_unique_ids sample_parseFloat 5 false
                   getInitialInvoiceState add_item_click _ _ _ eq_refl)).
  - unfold Spec.unique_ids. cbn. apply NoDup_singleton.
  - intros _. vm_compute. intros H. apply list_elem_of_singleton in H. discriminate H.
Defined.

Lemma row_bin_deletes_row_witness :
  App_InvoiceForm sample_parseFloat 5 false getInitialInvoiceState (item_remove_click 0) =
  Some (handleInvoiceChange (Set_items []) getInitialInvoiceState).
Proof.
  refine (row_bin_deletes_row sample_parseFloat 5 false getInitialInvoiceState 0
            (Item.mk 1 "" 0 0 "") _ eq_refl).
  unfold Spec.unique_ids. cbn. apply NoDup_singleton.
Defined.

(** *** The export, with an invoice number *)

Section ExportOutcomes.

Implicit Types (inv : Invoice.t) (s : App) (r : rendering).

(** X7. With an invoice number that is not blank the export raises the
    busy flag and waits for the document; whatever the browser answers,
    the busy flag is down at the end and the invoice untouched.  A
    rendered document is downloaded, once, under the name made of the
    invoice type in lower case with a hyphen for its space, a hyphen, the
    invoice number as typed and ".pdf"; a failed rendering shows the error
    notice, cleared after three seconds, and downloads nothing; without a
    preview element nothing happens. *)
Theorem export_outcomes inv r s :
  ~ Spec.blank (Invoice.invoiceNumber inv) ->
  let s' := run (handleDownloadPdf inv) r s in
  (exists k, handleDownloadPdf inv = perform (setIsDownloading true) (await_rendering k)) /\
  isDownloading s' = false /\
  invoice s' = invoice s /\
  match r with
  | rendered blob =>
      files s' = files s ++
        [(InvoiceType_slug (Invoice.invoiceType inv) +:+ "-" +:+
          Invoice.invoiceNumber inv +:+ ".pdf", blob)] /\
      feedback s' = feedback s /\ timers s' = timers s
  | render_fails =>
      files s' = files s /\
      feedback s' = Some (mkFeedback "Failed to generate PDF. Please try again." error) /\
      timers s' = timers s ++ [(setFeedback None, 3000%Z)]
  | no_preview =>
      files s' = files s /\ feedback s' = feedback s /\ timers s' = timers s
  end.
Proof.
  intros Hnot. cbv zeta. unfold handleDownloadPdf.
  destruct (String.eqb_spec (Str.trim (Invoice.invoiceNumber inv)) "") as [E|_].
  { exfalso. apply Hnot. now apply trim_empty_blank. }
  split; [eexists; reflexivity|].
  destruct r; cbn; repeat split.
  destruct (Invoice.invoiceType inv); reflexivity.
Qed.

Lemma export_outcomes_witness :
  let inv :=
    handleInvoiceChange (Set_invoiceType Proforma_Invoice)
      (handleInvoiceChange (Set_invoiceNumber "INV 7") getInitialInvoiceState) in
  files (run (handleDownloadPdf inv) (rendered "%PDF") (mkApp inv false None [] [])) =
  [("proforma-invoice-INV 7.pdf", "%PDF")].
Proof.
  cbv zeta.
  refine (proj1 (proj2 (proj2 (proj2
    (export_outcomes
       (handleInvoiceChange (Set_invoiceType Proforma_Invoice)
          (handleInvoiceChange (Set_invoiceNumber "INV 7") getInitialInvoiceState))
       (rendered "%PDF") (mkApp _ false None [] []) _))))).
  intros H. vm_compute in H. inversion H as [|? ? Hc _]. discriminate Hc.
Defined.

End ExportOutcomes.

(** *** The theme colour of a logo, and the hover colour *)

Section Theme.

Implicit Types (c : ascii) (h l v R G B : Z) (x : float).

Lemma channels_written_ok : forallb channel_written_checked (seqZ 0 256) = true.
Proof. vm_compute. reflexivity. Qed.

Lemma channels_darkened_ok : forallb channel_darkened_checked (seqZ 0 256) = true.
Proof. vm_compute. reflexivity. Qed.

Lemma hex_digits_ok : forallb hex_digit_checked (seqZ 0 16) = true.
Proof. vm_compute. reflexivity. Qed.

Lemma channel_written v :
  (0 <= v < 256)%Z ->
  Str.padStart2 (Num.toString16 (JS.of_Z v)) = two_hex v /\
  Num.parseInt16 (two_hex v) = JS.of_Z v.
Proof.
  intros Hv. pose proof (forallb_seqZ _ _ channels_written_ok v Hv) as H.
  unfold channel_written_checked in H.
  rewrite andb_true_iff, String.eqb_eq in H. destruct H as [H1 H2].
  split; [exact H1 | now apply FloatAxioms.Leibniz.eqb_spec in H2].
Qed.

Lemma channel_darkened v :
  (0 <= v < 256)%Z -> darkened 10 (JS.of_Z v) = JS.of_Z (9 * v / 10).
Proof.
  intros Hv. pose proof (forallb_seqZ _ _ channels_darkened_ok v Hv) as H.
  now apply FloatAxioms.Leibniz.eqb_spec in H.
Qed.

Lemma hexColor_written R G B :
  (0 <= R < 256)%Z -> (0 <= G < 256)%Z -> (0 <= B < 256)%Z ->
  hexColor [JS.of_Z R; JS.of_Z G; JS.of_Z B] =
  "#" +:+ two_hex R +:+ two_hex G +:+ two_hex B.
Proof.
  intros HR HG HB. unfold hexColor. cbn [fmap list_fmap Str.join].
  rewrite (proj1 (channel_written R HR)), (proj1 (channel_written G HG)),
    (proj1 (channel_written B HB)).
  reflexivity.
Qed.

Lemma substring_of_nothing (s : string) : String.substring 0 0 s = "".
Proof. now destruct s. Qed.

(** On seven characters or more darkenColor reads the second to the
    seventh, two by two, and writes the three channels it makes of them
    as a colour. *)
Lemma darkenColor_channels c0 a1 a2 a3 a4 a5 a6 rest percent :
  darkenColor (String c0 (String a1 (String a2 (String a3 (String a4 (String a5
                 (String a6 rest))))))) percent =
  hexColor [darkened percent (Num.parseInt16 (String a1 (String a2 "")));
            darkened percent (Num.parseInt16 (String a3 (String a4 "")));
            darkened percent (Num.parseInt16 (String a5 (String a6 "")))].
Proof.
  unfold darkenColor, hexColor, darkened, Str.length, Str.substring.
  cbn [Str.truthy negb orb String.length Nat.ltb Nat.leb Nat.sub String.substring
       fmap list_fmap Str.join].
  rewrite !substring_of_nothing.
  reflexivity.
Qed.

Lemma channel_range h l :
  (0 <= h < 16)%Z -> (0 <= l < 16)%Z -> (0 <= Spec.channel h l < 256)%Z.
Proof. unfold Spec.channel. lia. Qed.

Lemma darkenColor_digits c0 c1 c2 c3 c4 c5 c6 h1 h2 h3 h4 h5 h6 rest :
  Num.hex_value c1 = Some h1 -> Num.hex_value c2 = Some h2 ->
  Num.hex_value c3 = Some h3 -> Num.hex_value c4 = Some h4 ->
  Num.hex_value c5 = Some h5 -> Num.hex_value c6 = Some h6 ->
  darkenColor (String c0 (String c1 (String c2 (String c3 (String c4 (String c5
                 (String c6 rest))))))) 10 =
  "#" +:+ two_hex (9 * Spec.channel h1 h2 / 10) +:+
          two_hex (9 * Spec.channel h3 h4 / 10) +:+
          two_hex (9 * Spec.channel h5 h6 / 10).
Proof.
  intros H1 H2 H3 H4 H5 H6. rewrite darkenColor_channels.
  rewrite (parse_digit_pair _ _ _ _ H1 H2), (parse_digit_pair _ _ _ _ H3 H4),
    (parse_digit_pair _ _ _ _ H5 H6).
  apply hex_value_range in H1, H2, H3, H4, H5, H6.
  pose proof (channel_range h1 h2 H1 H2). pose proof (channel_range h3 h4 H3 H4).
  pose proof (channel_range h5 h6 H5 H6).
  rewrite !channel_darkened by assumption.
  apply hexColor_written.
  all: split; [apply Z.div_pos; lia | apply Z.div_lt_upper_bound; lia].
Qed.

(** X8. On a colour of six hexadecimal digits (in either case, after any
    first character, and whatever follows the seventh) darkenColor at 10
    percent, the one percentage the application uses, answers the mark and
    six lower-case digits: each channel is nine tenths of the channel
    read, rounded down, so no channel gets brighter. *)
Theorem darkenColor_ten_percent c0 c1 c2 c3 c4 c5 c6 h1 h2 h3 h4 h5 h6 rest :
  Num.hex_value c1 = Some h1 -> Num.hex_value c2 = Some h2 ->
  Num.hex_value c3 = Some h3 -> Num.hex_value c4 = Some h4 ->
  Num.hex_value c5 = Some h5 -> Num.hex_value c6 = Some h6 ->
  let R := Spec.channel h1 h2 in
  let G := Spec.channel h3 h4 in
  let B := Spec.channel h5 h6 in
  let darker :=
    darkenColor (String c0 (String c1 (String c2 (String c3 (String c4 (String c5
                   (String c6 rest))))))) 10 in
  darker = "#" +:+ two_hex (9 * R / 10) +:+ two_hex (9 * G / 10) +:+ two_hex (9 * B / 10) /\
  String.length darker = 7%nat /\
  (0 <= 9 * R / 10 <= R)%Z /\ (0 <= 9 * G / 10 <= G)%Z /\ (0 <= 9 * B / 10 <= B)%Z.
Proof.
  intros H1 H2 H3 H4 H5 H6. cbv zeta.
  rewrite (darkenColor_digits c0 _ _ _ _ _ _ _ _ _ _ _ _ rest H1 H2 H3 H4 H5 H6).
  apply hex_value_range in H1, H2, H3, H4, H5, H6.
  pose proof (channel_range h1 h2 H1 H2). pose proof (channel_range h3 h4 H3 H4).
  pose proof (channel_range h5 h6 H5 H6).
  split; [reflexivity|]. split; [reflexivity|].
  repeat split; try (apply Z.div_pos; lia);
    apply Z.div_le_upper_bound; lia.
Qed.

Lemma darkenColor_ten_percent_witness :
  darkenColor "#10B981" 10 = "#0ea674".
Proof.
  exact (proj1 (darkenColor_ten_percent "#" "1" "0" "B" "9" "8" "1" 1 0 11 9 8 1 ""
                  eq_refl eq_refl eq_refl eq_refl eq_refl eq_refl)).
Defined.

Lemma two_hex_digits v :
  (0 <= v < 256)%Z ->
  exists c1 c2, two_hex v = String c1 (String c2 "") /\
                Num.hex_value c1 = Some (v / 16)%Z /\ Num.hex_value c2 = Some (v mod 16)%Z.
Proof.
  intros Hv. unfold two_hex. do 2 eexists. split; [reflexivity|].
  assert (Hd : forall d, (0 <= d < 16)%Z ->
                 Num.hex_value (nth (Z.to_nat d) hex16 "0"%char) = Some d).
  { intros d Hd. pose proof (forallb_seqZ _ _ hex_digits_ok d Hd) as H.
    unfold hex_digit_checked in H.
    destruct (Num.hex_value _) as [d'|]; [|discriminate H].
    f_equal. now apply Z.eqb_eq. }
  split; apply Hd;
    [split; [apply Z.div_pos; lia | apply Z.div_lt_upper_bound; lia]
    | apply Z.mod_pos_bound; lia].
Qed.

(** X9. The theme colour that an upload writes for a dominant colour of
    three channels below 256 is the mark and the channels in two
    lower-case hexadecimal digits each; the decoders of the application
    read the channels back from it, so the contrast colour chosen for it
    is the one of the dominant colour's luma, and the hover colour made of
    it is the colour written for nine tenths of each channel. *)
Theorem hexColor_round_trip R G B :
  (0 <= R < 256)%Z -> (0 <= G < 256)%Z -> (0 <= B < 256)%Z ->
  let themeColor := hexColor [JS.of_Z R; JS.of_Z G; JS.of_Z B] in
  themeColor = "#" +:+ two_hex R +:+ two_hex G +:+ two_hex B /\
  String.length themeColor = 7%nat /\
  Num.parseInt16 (Str.substring 1 3 themeColor) = JS.of_Z R /\
  Num.parseInt16 (Str.substring 3 5 themeColor) = JS.of_Z G /\
  Num.parseInt16 (Str.substring 5 7 themeColor) = JS.of_Z B /\
  getContrastColor themeColor = Spec.contrast_of R G B /\
  darkenColor themeColor 10 =
    hexColor [JS.of_Z (9 * R / 10); JS.of_Z (9 * G / 10); JS.of_Z (9 * B / 10)].
Proof.
  intros HR HG HB. cbv zeta. rewrite hexColor_written by assumption.
  destruct (two_hex_digits R HR) as (r1 & r2 & ER & Hr1 & Hr2).
  destruct (two_hex_digits G HG) as (g1 & g2 & EG & Hg1 & Hg2).
  destruct (two_hex_digits B HB) as (b1 & b2 & EB & Hb1 & Hb2).
  assert (CR : Spec.channel (R / 16) (R mod 16) = R)
    by (unfold Spec.channel; pose proof (Z.div_mod R 16); lia).
  assert (CG : Spec.channel (G / 16) (G mod 16) = G)
    by (unfold Spec.channel; pose proof (Z.div_mod G 16); lia).
  assert (CB : Spec.channel (B / 16) (B mod 16) = B)
    by (unfold Spec.channel; pose proof (Z.div_mod B 16); lia).
  split; [reflexivity|].
  pose proof (proj2 (channel_written R HR)) as PR.
  pose proof (proj2 (channel_written G HG)) as PG.
  pose proof (proj2 (channel_written B HB)) as PB.
  rewrite ER, EG, EB in *.
  change ("#" +:+ String r1 (String r2 "") +:+ String g1 (String g2 "") +:+
          String b1 (String b2 ""))
    with (String "#" (String r1 (String r2 (String g1 (String g2 (String b1
            (String b2 ""))))))).
  split; [reflexivity|]. split; [exact PR|]. split; [exact PG|]. split; [exact PB|].
  split.
  - rewrite <- CR, <- CG, <- CB at 1.
    eapply contrast_of_digits; [reflexivity | | eassumption..].
    cbn [Str.replace_first]. now rewrite Ascii.eqb_refl.
  - rewrite (darkenColor_digits _ _ _ _ _ _ _ _ _ _ _ _ _ _ Hr1 Hr2 Hg1 Hg2 Hb1 Hb2).
    rewrite CR, CG, CB. symmetry. apply hexColor_written.
    all: split; [apply Z.div_pos; lia | apply Z.div_lt_upper_bound; lia].
Qed.

Lemma hexColor_round_trip_witness :
  hexColor [JS.of_Z 16; JS.of_Z 185; JS.of_Z 129] = "#10b981" /\
  getContrastColor (hexColor [JS.of_Z 16; JS.of_Z 185; JS.of_Z 129]) = "#000000".
Proof.
  pose proof (hexColor_round_trip 16 185 129 ltac:(lia) ltac:(lia) ltac:(lia)) as H.
  split; [exact (proj1 H) | exact (proj1 (proj2 (proj2 (proj2 (proj2 (proj2 H))))))].
Defined.

Lemma Prim2SF_nan : Prim2SF PrimFloat.nan = S754_nan.
Proof. reflexivity. Qed.

Lemma nan_mul_l x : (PrimFloat.nan * x)%float = PrimFloat.nan.
Proof. apply FloatAxioms.Prim2SF_inj. now rewrite FloatAxioms.mul_spec, Prim2SF_nan. Qed.

Lemma nan_add_l x : (PrimFloat.nan + x)%float = PrimFloat.nan.
Proof. apply FloatAxioms.Prim2SF_inj. now rewrite FloatAxioms.add_spec, Prim2SF_nan. Qed.

Lemma nan_add_r x : (x + PrimFloat.nan)%float = PrimFloat.nan.
Proof.
  apply FloatAxioms.Prim2SF_inj. rewrite FloatAxioms.add_spec, Prim2SF_nan.
  now destruct (Prim2SF x) as [s|s| |s m e].
Qed.

Lemma nan_div_l x : (PrimFloat.nan / x)%float = PrimFloat.nan.
Proof. apply FloatAxioms.Prim2SF_inj. now rewrite FloatAxioms.div_spec, Prim2SF_nan. Qed.

Lemma padStart2_length s : (2 <= String.length (Str.padStart2 s))%nat.
Proof. unfold Str.padStart2. destruct s as [|a [|b s]]; cbn; lia. Qed.

(** A channel that did not parse is written as NaN. *)
Lemma channel_unparsed channel percent :
  channel = PrimFloat.nan ->
  Str.padStart2 (Num.toString16
    (JS.Math_max0 (JS.Math_floor (channel * ((100 - percent) / 100))%float))) = "NaN".
Proof. intros ->. now rewrite nan_mul_l. Qed.

(** C10. darkenColor returns its input unchanged, whatever the
    percentage, when the input is empty or shorter than 7 characters; it is
    a total function, so it does not throw there.  The length is all that
    it checks: an input of 7 characters or more is decoded and re-encoded
    whether or not it is a well-formed colour.  The result is then the mark
    and three channels of two characters or more each, a channel whose pair
    of characters does not parse as a hexadecimal number being written
    "NaN"; so an input of that length that does not start with the mark is
    never returned as it is. *)
Theorem darkenColor_guard hex percent :
  ((String.length hex < 7)%nat -> darkenColor hex percent = hex) /\
  ((7 <= String.length hex)%nat ->
   exists RR GG BB,
     darkenColor hex percent = "#" +:+ RR +:+ GG +:+ BB /\
     (2 <= String.length RR)%nat /\ (2 <= String.length GG)%nat /\
     (2 <= String.length BB)%nat /\
     (Num.parseInt16 (Str.substring 1 3 hex) = PrimFloat.nan -> RR = "NaN") /\
     (Num.parseInt16 (Str.substring 3 5 hex) = PrimFloat.nan -> GG = "NaN") /\
     (Num.parseInt16 (Str.substring 5 7 hex) = PrimFloat.nan -> BB = "NaN") /\
     ((forall rest, hex <> "#" +:+ rest) -> darkenColor hex percent <> hex)).
Proof.
  split.
  - intros Hshort. unfold darkenColor, Str.length.
    apply Nat.ltb_lt in Hshort. rewrite Hshort, orb_true_r. reflexivity.
  - intros Hlen.
    assert (E : darkenColor hex percent =
      "#" +:+
      Str.padStart2 (Num.toString16 (JS.Math_max0 (JS.Math_floor
        (Num.parseInt16 (Str.substring 1 3 hex) * ((100 - percent) / 100))%float))) +:+
      Str.padStart2 (Num.toString16 (JS.Math_max0 (JS.Math_floor
        (Num.parseInt16 (Str.substring 3 5 hex) * ((100 - percent) / 100))%float))) +:+
      Str.padStart2 (Num.toString16 (JS.Math_max0 (JS.Math_floor
        (Num.parseInt16 (Str.substring 5 7 hex) * ((100 - percent) / 100))%float)))).
    { unfold darkenColor, Str.length.
      destruct (Nat.ltb_spec (String.length hex) 7) as [|_]; [lia|].
      destruct hex as [|c hex]; [cbn in Hlen; lia|]. reflexivity. }
    eexists _, _, _. split; [exact E|].
    do 3 (split; [apply padStart2_length|]).
    do 3 (split; [apply channel_unparsed|]).
    intros Hmark Hsame. rewrite E in Hsame. exact (Hmark _ (eq_sym Hsame)).
Qed.

Lemma darkenColor_guard_witness :
  darkenColor "#fff" 10 = "#fff" /\ darkenColor "" 10 = "" /\
  darkenColor "tomato!" 10 <> "tomato!".
Proof.
  split; [|split].
  - apply (proj1 (darkenColor_guard "#fff" 10)). vm_compute. lia.
  - apply (proj1 (darkenColor_guard "" 10)). vm_compute. lia.
  - destruct (proj2 (darkenColor_guard "tomato!" 10)) as (RR & GG & BB & _ & _ & _ & _ & _ & _ & _ & H).
    + vm_compute. lia.
    + apply H. intros rest. discriminate.
Defined.

(** C10, as stated, fails on the inputs of 7 characters or more that are
    no well-formed colour: they are decoded and re-encoded all the same. *)
Lemma darkenColor_well_formed_counterexample :
  (Spec.well_formed "#zzzzzz" = false /\
   darkenColor "#zzzzzz" 10 = "#NaNNaNNaN" /\
   darkenColor "#zzzzzz" 10 <> "#zzzzzz") /\
  (Spec.well_formed "tomato!" = false /\
   darkenColor "tomato!" 10 = "#NaN09NaN") /\
  (Spec.well_formed "#10b981ff" = false /\
   darkenColor "#10b981ff" 10 = "#0ea674") /\
  Spec.well_formed "#10b981" = true.
Proof. vm_compute. repeat split. discriminate. Qed.

(** X10. On a text of seven characters or more none of whose three pairs
    parses as a hexadecimal number (a colour name, say), darkenColor
    answers "#NaNNaNNaN" at every percentage: the text is not checked to
    be a colour, and NaN goes through the arithmetic into the answer. *)
Theorem darkenColor_unparsed hex percent :
  (7 <= String.length hex)%nat ->
  Num.parseInt16 (Str.substring 1 3 hex) = PrimFloat.nan ->
  Num.parseInt16 (Str.substring 3 5 hex) = PrimFloat.nan ->
  Num.parseInt16 (Str.substring 5 7 hex) = PrimFloat.nan ->
  darkenColor hex percent = "#NaNNaNNaN".
Proof.
  intros Hlen H1 H2 H3. unfold darkenColor, Str.length.
  destruct (Nat.ltb_spec (String.length hex) 7) as [|_]; [lia|].
  destruct hex as [|c hex]; [cbn in Hlen; lia|]. cbn [Str.truthy negb orb].
  rewrite H1, H2, H3, !nan_mul_l. reflexivity.
Qed.

Lemma darkenColor_unparsed_witness : darkenColor "#zzzzzz" 10 = "#NaNNaNNaN".
Proof.
  apply (darkenColor_unparsed "#zzzzzz" 10); [vm_compute; lia | reflexivity..].
Defined.

(** X11. getContrastColor answers white as soon as one of the three pairs
    of the text, once its mark is removed, does not parse as a hexadecimal
    number: NaN makes the luma NaN, and no comparison with NaN holds. *)
Theorem getContrastColor_unparsed hexColor :
  let hex := Str.replace_first "#" "" hexColor in
  Num.parseInt16 (Str.substring 0 2 hex) = PrimFloat.nan \/
  Num.parseInt16 (Str.substring 2 4 hex) = PrimFloat.nan \/
  Num.parseInt16 (Str.substring 4 6 hex) = PrimFloat.nan ->
  getContrastColor hexColor = "#ffffff".
Proof.
  cbv zeta. intros H. unfold getContrastColor.
  destruct (Str.truthy hexColor); [|reflexivity]. cbn [negb].
  destruct (Str.length _ =? 6)%nat; [|reflexivity]. cbn [negb].
  assert (E : forall yiq, yiq = PrimFloat.nan ->
            (if JS.geb (yiq / 1000) 128 then "#000000" else "#ffffff") = "#ffffff").
  { intros yiq ->. rewrite nan_div_l. reflexivity. }
  apply E. destruct H as [H|[H|H]]; rewrite H.
  - now rewrite nan_mul_l, !nan_add_l.
  - now rewrite nan_mul_l, nan_add_r, nan_add_l.
  - now rewrite nan_mul_l, nan_add_r.
Qed.

Lemma getContrastColor_unparsed_witness : getContrastColor "#ffzz00" = "#ffffff".
Proof.
  apply (getContrastColor_unparsed "#ffzz00"). right. left. reflexivity.
Defined.

End Theme.

(** *** The upload of a logo *)

Section Upload.

(** X12. However an upload ends, the flag of an upload under way is down
    at the end, and of the invoice only the logo and the theme colour can
    have changed.  A file that is read is stored as the logo whatever
    becomes of its image: with a dominant colour the theme colour is the
    colour written for it, when [getColor] throws it is the default theme
    colour, and when the image does not load it stays as it was and the
    error notice is shown.  A file that cannot be read leaves the invoice
    without a logo, and an error notice on the screen. *)
Theorem handleLogoUpload_settles file s :
  let s' := handleLogoUpload file s in
  let before := invoice (application s) in
  let after := invoice (application s') in
  isLogoUploading s' = false /\
  isDownloading (application s') = isDownloading (application s) /\
  files (application s') = files (application s) /\
  after = handleInvoiceChange (Set_themeColor (Invoice.themeColor after))
            (handleInvoiceChange (Set_logo (Invoice.logo after)) before) /\
  match file with
  | reader_load result image =>
      Invoice.logo after = Some result /\
      match image with
      | image_load (Returns dominantColor) =>
          Invoice.themeColor after = hexColor dominantColor /\
          feedback (application s') = feedback (application s)
      | image_load (Throws _) =>
          Invoice.themeColor after = DEFAULT_THEME_COLOR /\
          feedback (application s') = feedback (application s)
      | image_error =>
          Invoice.themeColor after = Invoice.themeColor before /\
          feedback (application s') =
            Some (mkFeedback "Could not process image for color theming." error)
      end
  | reader_error image =>
      Invoice.logo after = None /\
      exists notice, feedback (application s') = Some notice /\ type notice = error
  end.
Proof.
  cbv zeta. destruct s as [[inv dl fb tm fl] up], inv.
  destruct file as [[|[c|e]]|result [|[c|e]]]; cbn;
    repeat split; eexists; split; reflexivity.
Qed.

End Upload.

(** *** Saving the draft *)

Section AutoSaveProofs.

Implicit Types (s : AutoSave) (invoice : Invoice.t) (changes : list Invoice.t).

Lemma settled_mounted first_handle invoice :
  (0 < first_handle)%Z -> settled invoice (mounted first_handle invoice).
Proof.
  intros Hpos. exists first_handle. unfold mounted, autoSave_effect. cbn.
  split; [exact Hpos|]. split; [reflexivity|]. split; [apply insert_empty | reflexivity].
Qed.

Lemma clear_current_named handle s :
  autoSaveTimeoutRef s = Some handle -> handle <> 0%Z ->
  clear_current s = mkAutoSave (Some handle) (delete handle (pending s)) (next_handle s).
Proof.
  intros Href Hne. unfold clear_current, clearTimeout. rewrite Href.
  now destruct (Z.eqb_spec handle 0).
Qed.

Lemma settled_rendered_again invoice0 invoice s :
  settled invoice0 s -> settled invoice (rendered_again s invoice).
Proof.
  intros (handle & Hpos & Href & Hpending & Hnext).
  exists (handle + 1)%Z. unfold rendered_again, autoSave_cleanup, autoSave_effect.
  rewrite (clear_current_named handle s Href) by lia.
  rewrite (clear_current_named handle); [|reflexivity|lia].
  cbn. rewrite Hpending, Hnext, delete_singleton_eq, delete_empty.
  split; [lia|]. split; [reflexivity|]. split; [apply insert_empty | reflexivity].
Qed.

Lemma last_cons_default {A} (c d : A) l : List.last (c :: l) d = List.last l c.
Proof.
  revert c d. induction l as [|a l IH]; intros c d; [reflexivity|].
  change (List.last (c :: a :: l) d) with (List.last (a :: l) d).
  now rewrite (IH a d), (IH a c).
Qed.

(** X13. The save is debounced: after the component is mounted and
    rendered again with any sequence of changed invoices, one save is
    pending and no more, the one that the reference names; when its timer
    fires it saves the latest invoice, and no timer of an earlier invoice
    is left to fire. *)
Theorem autosave_debounce first_handle invoice changes :
  (0 < first_handle)%Z ->
  let s := fold_left rendered_again changes (mounted first_handle invoice) in
  exists handle,
    autoSaveTimeoutRef s = Some handle /\
    pending s = {[ handle := List.last changes invoice ]} /\
    fires handle s = Some (List.last changes invoice,
                           mkAutoSave (Some handle) ∅ (next_handle s)) /\
    forall other, other <> handle -> fires other s = None.
Proof.
  intros Hpos. cbv zeta.
  assert (H : settled (List.last changes invoice)
                (fold_left rendered_again changes (mounted first_handle invoice))).
  { pose proof (settled_mounted first_handle invoice Hpos) as H0.
    revert H0. generalize (mounted first_handle invoice) as s. revert invoice.
    induction changes as [|c changes IH]; intros invoice s H0; [exact H0|].
    cbn [fold_left]. 
    replace (List.last (c :: changes) invoice) with (List.last changes c).
    - apply IH. eapply settled_rendered_again, H0.
    - symmetry. apply last_cons_default. }
  destruct H as (handle & _ & Href & Hpending & _). exists handle.
  split; [exact Href|]. split; [exact Hpending|]. unfold fires. rewrite Hpending. split.
  - rewrite lookup_singleton_eq. cbn. now rewrite Href, delete_singleton_eq.
  - intros other Hother. now rewrite lookup_singleton_ne.
Qed.

Lemma autosave_debounce_witness :
  exists handle,
    pending (fold_left rendered_again
               [handleAddItem 7 getInitialInvoiceState;
                handleRemoveItem 1 (handleAddItem 7 getInitialInvoiceState)]
               (mounted 1 getInitialInvoiceState)) =
    {[ handle := handleRemoveItem 1 (handleAddItem 7 getInitialInvoiceState) ]}.
Proof.
  destruct (autosave_debounce 1 getInitialInvoiceState
              [handleAddItem 7 getInitialInvoiceState;
               handleRemoveItem 1 (handleAddItem 7 getInitialInvoiceState)]
              ltac:(lia)) as (handle & _ & H & _).
  exists handle. exact H.
Defined.

End AutoSaveProofs.

Section SaveLoad.

Variable JSON_parse : string -> outcome Json.value.
Variable JSON_stringify : gmap string Json.value -> string.
Variable quota_exceeded : gmap string string -> string -> string -> bool.

Implicit Types (invoice : Invoice.t) (localStorage : gmap string string) (s : App).

Lemma assoc_same_keys {A} (l1 l2 : list (string * A)) k :
  l1.*1 = l2.*1 -> assoc k l1 = None -> assoc k l2 = None.
Proof.
  revert l2. induction l1 as [|[i x] l1 IH]; intros [|[j y] l2] E; try discriminate E;
    [reflexivity|].
  cbn in E. injection E as -> E. cbn. destruct (String.eqb j k); [discriminate|].
  now apply IH.
Qed.

Lemma object_over_defaults invoice :
  Invoice_object invoice ∪ Invoice_object getInitialInvoiceState = Invoice_object invoice.
Proof.
  apply map_eq. intros k. rewrite lookup_union. unfold Invoice_object.
  rewrite !lookup_list_to_map.
  match goal with |- union (assoc k ?l1) (assoc k ?l2) = _ =>
    pose proof (assoc_same_keys l1 l2 k eq_refl) as H;
    destruct (assoc k l1) as [x|]; [|rewrite (H eq_refl)]
  end.
  - now destruct (assoc k _).
  - reflexivity.
Qed.

Lemma themeColor_of_object invoice :
  Invoice_object invoice !! "themeColor" = Some (Json.String_ (Invoice.themeColor invoice)).
Proof. unfold Invoice_object. rewrite lookup_list_to_map. reflexivity. Qed.

(** X14. A draft that is saved is restored: when the browser stores the
    text that [JSON.stringify] writes for the invoice, and [JSON.parse]
    reads that text back as the object written, then loading the initial
    state from the storage gives the invoice that was saved, with the
    default theme colour in the place of an empty one.  When the browser
    refuses the text, the storage is as it was and the error notice is
    shown. *)
Theorem saved_draft_is_restored invoice localStorage s :
  let text := JSON_stringify (Invoice_object invoice) in
  let saved := save_draft JSON_stringify quota_exceeded invoice localStorage s in
  text <> "" ->
  JSON_parse text = Returns (Json.Object (Invoice_object invoice)) ->
  if quota_exceeded localStorage "invoiceDraft" text then
    saved.1 = localStorage /\
    feedback saved.2 =
      Some (mkFeedback "Couldn't save draft. Storage may be full." error)
  else
    saved.2 = s /\
    saved.1 !! "invoiceDraft" = Some text /\
    loadInitialState JSON_parse (available saved.1) =
      Returns (Invoice_object (restored invoice)).
Proof.
  cbv zeta. intros Htext Hparse. unfold save_draft.
  destruct (quota_exceeded _ _ _); cbn [fst snd]; [split; reflexivity|].
  split; [reflexivity|]. split; [apply lookup_insert_eq|].
  unfold loadInitialState. cbn [getItem mbind outcome_bind]. rewrite lookup_insert_eq.
  destruct (JSON_stringify (Invoice_object invoice)) as [|c text] eqn:E; [congruence|].
  cbn [Str.truthy]. rewrite Hparse. cbn [mbind outcome_bind get_property try_catch].
  rewrite themeColor_of_object. cbn [Json.truthy Json.own_properties default].
  rewrite object_over_defaults. unfold restored.
  destruct (Str.truthy (Invoice.themeColor invoice)).
  - now rewrite insert_id by apply themeColor_of_object.
  - f_equal. now rewrite object_after_change.
Qed.

End SaveLoad.

Lemma saved_draft_is_restored_witness :
  (Invoice.notes sample_invoice = "Net 30" /\ Invoice.themeColor sample_invoice = "" /\
   sample_stringify (Invoice_object sample_invoice) = sample_draft /\
   Invoice.notes (restored sample_invoice) = "Net 30" /\
   Invoice.themeColor (restored sample_invoice) = DEFAULT_THEME_COLOR /\
   Invoice.notes getInitialInvoiceState = "") /\
  loadInitialState sample_read
    (available (save_draft sample_stringify sample_quota sample_invoice ∅
                  (mkApp sample_invoice false None [] [])).1) =
  Returns (Invoice_object (restored sample_invoice)) /\
  (save_draft sample_stringify sample_quota sample_long_invoice
     {[ "invoiceDraft" := sample_draft ]}
     (mkApp sample_long_invoice false None [] [])).1 = {[ "invoiceDraft" := sample_draft ]}.
Proof.
  split; [repeat split|split].
  - pose proof (saved_draft_is_restored sample_read sample_stringify sample_quota
                  sample_invoice ∅ (mkApp sample_invoice false None [] [])) as H.
    cbv zeta in H.
    assert (Q : sample_quota ∅ "invoiceDraft"
                  (sample_stringify (Invoice_object sample_invoice)) = false)
      by reflexivity.
    rewrite Q in H. apply H; [discriminate | reflexivity].
  - pose proof (saved_draft_is_restored sample_read sample_stringify sample_quota
                  sample_long_invoice {[ "invoiceDraft" := sample_draft ]}
                  (mkApp sample_long_invoice false None [] [])) as H.
    cbv zeta in H.
    assert (Q : sample_quota {[ "invoiceDraft" := sample_draft ]} "invoiceDraft"
                  (sample_stringify (Invoice_object sample_long_invoice)) = true)
      by reflexivity.
    rewrite Q in H. apply H; [discriminate | reflexivity].
Defined.


(** *** Amounts beyond the table of words *)

Section Beyond.

Implicit Types (n d k : Z) (num : float).

Lemma at_index_beyond k : (20 <= k)%Z -> at_index ones k = "undefined".
Proof.
  intros Hk. unfold at_index. destruct (Z.ltb_spec k 0); [lia|].
  apply nth_overflow. cbn. lia.
Qed.

Lemma teens_ok : forallb teen_checked (seqZ 0 20) = true.
Proof. vm_compute. reflexivity. Qed.

Lemma at_index_teens k :
  (10 <= k < 20)%Z -> capitalize (at_index ones k) ∈ teens.
Proof.
  intros Hk. pose proof (forallb_seqZ _ _ teens_ok k ltac:(lia)) as H.
  unfold teen_checked in H. destruct (Z.ltb_spec k 10); [lia|].
  cbn [orb] in H. now apply bool_decide_eq_true in H.
Qed.

Lemma convert_hundreds g :
  (100 <= g)%Z ->
  exists rest, convertLessThanOneThousand g = at_index ones (g / 100) +:+ " hundred" +:+ rest.
Proof.
  intros Hg. unfold convertLessThanOneThousand.
  destruct (Z.geb_spec g 100) as [_|]; [|lia].
  change ("" +:+ ?x) with x.
  set (w := at_index ones (g / 100) +:+ " hundred").
  assert (Hw : forall t, w +:+ t = at_index ones (g / 100) +:+ " hundred" +:+ t)
    by (intros t; unfold w; apply append_assoc).
  destruct (Z.rem g 100 >? 0)%Z eqn:E1; lazy beta iota; rewrite ?E1.
  - destruct (Z.rem g 100 <? 20)%Z.
    + eexists. rewrite append_assoc. apply Hw.
    + destruct (Z.rem (Z.rem g 100) 10 >? 0)%Z.
      * eexists. rewrite !append_assoc. apply Hw.
      * eexists. rewrite !append_assoc. apply Hw.
  - exists "". reflexivity.
Qed.

Lemma rupeesInWords_beyond n :
  (10 ^ 10 <= n)%Z ->
  exists rest, rupeesInWords n = at_index ones (n / 10 ^ 9) +:+ " hundred" +:+ rest.
Proof.
  intros Hn. change (10 ^ 10)%Z with 10000000000%Z in Hn.
  rewrite rupeesInWords_groups by lia. unfold pushed.
  assert (Hc : (100 <= n / 10 ^ 7)%Z)
    by (change (10 ^ 7)%Z with 10000000%Z; Z.to_euclidean_division_equations; lia).
  destruct (Z.gtb_spec (n / 10 ^ 7) 0); [|lia].
  destruct (convert_hundreds _ Hc) as (rest & E). rewrite E.
  replace (n / 10 ^ 7 / 100)%Z with (n / 10 ^ 9)%Z
    by (change (10 ^ 7)%Z with 10000000%Z; change (10 ^ 9)%Z with 1000000000%Z;
        Z.to_euclidean_division_equations; lia).
  cbn [app]. set (tail := _ ++ _). destruct tail as [|y tail].
  - eexists. cbn [Str.join]. rewrite !append_assoc. reflexivity.
  - eexists.
    change (Str.join " " (?x :: y :: tail)) with (x +:+ " " +:+ Str.join " " (y :: tail)).
    rewrite !append_assoc. reflexivity.
Qed.

Lemma word_solid k :
  (10 <= k)%Z -> starts_solid (capitalize (at_index ones k)).
Proof.
  intros Hk. destruct (Z.lt_ge_cases k 20).
  - pose proof (at_index_teens k ltac:(lia)) as Hin. revert Hin.
    generalize (capitalize (at_index ones k)). apply Forall_forall.
    repeat constructor; (do 2 eexists; split; [reflexivity|reflexivity]).
  - rewrite at_index_beyond by lia. do 2 eexists. split; reflexivity.
Qed.

Lemma toWords_parts_beyond n d :
  (10 ^ 10 <= n)%Z ->
  exists rest,
    toWords_parts n d = capitalize (at_index ones (n / 10 ^ 9)) +:+ " hundred" +:+ rest.
Proof.
  intros Hn. unfold toWords_parts.
  destruct (Z.eqb_spec n 0) as [->|_]; [change (10 ^ 10)%Z with 10000000000%Z in Hn; lia|].
  cbn [andb]. destruct (rupeesInWords_beyond n Hn) as (rest & E).
  assert (Hk : (10 <= n / 10 ^ 9)%Z)
    by (change (10 ^ 10)%Z with 10000000000%Z in Hn; change (10 ^ 9)%Z with 1000000000%Z;
        Z.to_euclidean_division_equations; lia).
  pose proof (word_solid _ Hk) as Hsolid.
  pose proof (starts_solid_nonempty _ Hsolid) as Hne.
  set (w := at_index ones (n / 10 ^ 9)) in *.
  assert (Ht : Str.truthy (rupeesInWords n) = true)
    by (rewrite E; destruct w; [congruence | reflexivity]).
  rewrite Ht, E. clear Ht E.
  rewrite capitalize_app by exact Hne.
  set (W := capitalize w) in *.
  rewrite (starts_solid_truthy ((W +:+ " hundred" +:+ rest) +:+ " Rupees"))
    by now do 2 apply starts_solid_app.
  destruct (d >? 0)%Z.
  - set (P := capitalize (convertLessThanOneThousand d)).
    rewrite <- (append_assoc _ P " Paise").
    rewrite trim_solid;
      [| now do 4 apply starts_solid_app | discriminate | reflexivity].
    eexists. rewrite !append_assoc. reflexivity.
  - rewrite trim_solid;
      [| now apply starts_solid_app | discriminate | reflexivity].
    eexists. rewrite !append_assoc. reflexivity.
Qed.

(** X15. Beyond the table of words: an amount of one thousand crore or
    more (with an integer part that a number still holds exactly) is
    worded with a hundreds word read off the list of ones at the number of
    its thousands of crores.  Up to twenty thousand crore that is a word
    from "Ten" to "Nineteen" ("Ten hundred crore"); from there on the list
    has no entry and the text starts with "Undefined hundred". *)
Theorem toWords_beyond_the_table num :
  let a := JS.Math_abs num in
  let n := integer_part a in
  JS.isFinite num = true -> (10 ^ 10 <= n < 2 ^ 53)%Z ->
  exists word rest,
    toWords a = Some (word +:+ " hundred" +:+ rest) /\
    (if (n <? 2 * 10 ^ 10)%Z then word ∈ teens else word = "Undefined").
Proof.
  cbv zeta. intros Hf Hn.
  rewrite toWords_not_negative;
    [| now rewrite isFinite_abs | apply abs_not_negative].
  destruct (toWords_parts_beyond (integer_part (JS.Math_abs num))
              (hundredths (JS.Math_abs num)) (proj1 Hn)) as (rest & E).
  rewrite E. do 2 eexists. split; [reflexivity|].
  set (n := integer_part (JS.Math_abs num)) in *.
  change (10 ^ 10)%Z with 10000000000%Z in *. change (10 ^ 9)%Z with 1000000000%Z.
  destruct (Z.ltb_spec n (2 * 10000000000)).
  - apply at_index_teens. Z.to_euclidean_division_equations; lia.
  - rewrite at_index_beyond; [reflexivity|]. Z.to_euclidean_division_equations; lia.
Qed.

Lemma toWords_beyond_the_table_witness :
  exists word rest,
    toWords 25000000000 = Some (word +:+ " hundred" +:+ rest) /\ word = "Undefined".
Proof.
  destruct (toWords_beyond_the_table 25000000000 eq_refl
              ltac:(vm_compute; split; [discriminate | reflexivity]))
    as (word & rest & H1 & H2).
  exists word, rest. split; [exact H1 | exact H2].
Defined.

End Beyond.

(** *** Zeros in the totals *)

Section Zeros.

Local Open Scope Z_scope.

Lemma shr_1_half mrs : 0 <= shr_m mrs -> shr_m (shr_1 mrs) = shr_m mrs / 2.
Proof.
  destruct mrs as [m r s]. cbn [shr_m]. intros Hm.
  destruct m as [|[p|p|]|p]; cbn [shr_1 shr_m]; try lia;
    Z.to_euclidean_division_equations; lia.
Qed.

Lemma iter_shr_half p :
  forall mrs, 0 <= shr_m mrs ->
  shr_m (SpecFloat.iter_pos shr_1 p mrs) = shr_m mrs / 2 ^ Zpos p.
Proof.
  assert (Hpow : forall q, 0 < 2 ^ Zpos q) by (intros; apply Z.pow_pos_nonneg; lia).
  assert (Hdiv : forall a b, 0 <= a -> 0 < b -> 0 <= a / b)
    by (intros; apply Z.div_pos; lia).
  induction p as [p IH|p IH|]; intros mrs Hm.
  - change (SpecFloat.iter_pos shr_1 p~1 mrs) with
      (SpecFloat.iter_pos shr_1 p (SpecFloat.iter_pos shr_1 p (shr_1 mrs))).
    pose proof (shr_1_half mrs Hm) as H0.
    assert (0 <= shr_m (shr_1 mrs)) by (rewrite H0; apply Hdiv; lia).
    rewrite IH by (rewrite IH by assumption; apply Hdiv; [lia | apply Hpow]).
    rewrite IH by assumption. rewrite H0.
    rewrite !Z.div_div by (try apply Z.lt_le_incl, Hpow; try apply Hpow; lia).
    f_equal. rewrite Pos2Z.inj_xI.
    replace (2 * Zpos p + 1) with (1 + Zpos p + Zpos p) by lia.
    rewrite !Z.pow_add_r by lia. change (2 ^ 1) with 2. lia.
  - change (SpecFloat.iter_pos shr_1 p~0 mrs) with
      (SpecFloat.iter_pos shr_1 p (SpecFloat.iter_pos shr_1 p mrs)).
    rewrite IH by (rewrite IH by assumption; apply Hdiv; [lia | apply Hpow]).
    rewrite IH by assumption.
    rewrite Z.div_div by (try apply Z.lt_le_incl, Hpow; try apply Hpow; lia).
    f_equal. replace (Zpos p~0) with (Zpos p + Zpos p) by lia.
    now rewrite Z.pow_add_r by lia.
  - change (SpecFloat.iter_pos shr_1 1 mrs) with (shr_1 mrs).
    now rewrite shr_1_half.
Qed.

(** A right shift by fewer places than the mantissa has digits leaves a
    positive mantissa. *)
Lemma shr_positive M E n :
  0 < M -> Z.max n 0 < Zdigits2 M ->
  0 < shr_m (fst (shr (shr_record_of_loc M loc_Exact) E n)) /\
  snd (shr (shr_record_of_loc M loc_Exact) E n) = E + Z.max n 0.
Proof.
  intros HM Hn. destruct M as [|M|M]; try lia.
  rewrite Zdigits2_log2 in Hn.
  destruct n as [|p|p]; cbn [shr fst snd shr_record_of_loc shr_m]; try (split; lia).
  rewrite iter_shr_half by (cbn; lia). cbn [shr_m]. split; [|lia].
  rewrite Z.max_l in Hn by lia.
  apply Z.div_str_pos. split; [apply Z.pow_pos_nonneg; lia|].
  apply Z.log2_le_pow2; lia.
Qed.

Lemma binary_round_aux_not_zero sx M E s :
  0 < M -> -1074 <= E ->
  binary_round_aux prec emax sx M E loc_Exact <> S754_zero s.
Proof.
  intros HM HE. unfold binary_round_aux, shr_fexp. rewrite !fexp_eq.
  assert (Hd : 0 < Zdigits2 M)
    by (destruct M as [|M|M]; try lia; rewrite Zdigits2_log2;
        pose proof (Z.log2_nonneg (Zpos M)); lia).
  set (n1 := Z.max (Zdigits2 M + E - 53) (-1074) - E).
  destruct (shr_positive M E n1 HM ltac:(lia)) as (Hm' & He').
  destruct (shr (shr_record_of_loc M loc_Exact) E n1) as [mrs' e'].
  cbn [fst snd] in Hm', He'. lazy beta iota. rewrite fexp_eq.
  pose proof (round_nearest_even_bound (shr_m mrs') (loc_of_shr_record mrs')) as Hr.
  set (m1 := round_nearest_even (shr_m mrs') (loc_of_shr_record mrs')) in *.
  assert (Hm1 : 0 < m1) by lia.
  assert (Hd1 : 0 < Zdigits2 m1)
    by (destruct m1 as [|m1|m1]; try lia; rewrite Zdigits2_log2;
        pose proof (Z.log2_nonneg (Zpos m1)); lia).
  set (n2 := Z.max (Zdigits2 m1 + e' - 53) (-1074) - e').
  destruct (shr_positive m1 e' n2 Hm1 ltac:(lia)) as (Hm'' & He'').
  destruct (shr (shr_record_of_loc m1 loc_Exact) e' n2) as [mrs'' e''].
  cbn [fst snd] in Hm'', He''. lazy beta iota.
  destruct (shr_m mrs'') as [|m|m]; try lia.
  destruct (e'' <=? emax - prec); discriminate.
Qed.

Lemma binary_normalize_not_negative_zero m e :
  -1074 <= e -> binary_normalize prec emax m e false <> S754_zero true.
Proof.
  intros He. destruct m as [|m|m]; cbn [binary_normalize]; [discriminate| |].
  all: unfold binary_round, shl_align; rewrite fexp_eq;
    destruct (Z.max (Zpos (digits2_pos m) + e - 53) (-1074) - e) eqn:E;
    apply binary_round_aux_not_zero; lia.
Qed.

Lemma valid_exponent s m e :
  valid_binary (S754_finite s m e) = true -> -1074 <= e.
Proof.
  cbn [valid_binary]. unfold bounded, canonical_mantissa. rewrite fexp_eq.
  intros H. apply andb_true_iff in H as [H _]. apply Z.eqb_eq in H. lia.
Qed.

Lemma SFadd_negative_zero x y :
  valid_binary x = true -> valid_binary y = true ->
  SFadd prec emax x y = S754_zero true ->
  x = S754_zero true /\ y = S754_zero true.
Proof.
  intros Hx Hy.
  destruct x as [[]|[]| |sx mx ex], y as [[]|[]| |sy my ey]; cbn [SFadd];
    try discriminate; try (intros H; now split).
  intros H. exfalso. revert H. apply binary_normalize_not_negative_zero.
  apply valid_exponent in Hx, Hy. lia.
Qed.

End Zeros.

Section Totals.

Implicit Types (x y : float) (invoice : Invoice.t).

Lemma add_negative_zero x y :
  Prim2SF (x + y) = S754_zero true ->
  Prim2SF x = S754_zero true /\ Prim2SF y = S754_zero true.
Proof.
  rewrite FloatAxioms.add_spec. apply SFadd_negative_zero; apply FloatAxioms.Prim2SF_valid.
Qed.

(** The subtotal is never the negative zero. *)
Lemma subtotal_not_negative_zero invoice :
  Prim2SF (subtotal (calculations invoice)) <> S754_zero true.
Proof.
  cbn [calculations subtotal].
  induction (Invoice.items invoice) as [|item items IH] using rev_ind.
  - cbn [fold_left]. rewrite Prim2SF_zero. discriminate.
  - rewrite fold_left_app. cbn [fold_left]. intros H.
    apply add_negative_zero in H as [H _]. now apply IH.
Qed.

Lemma add_zero x : Prim2SF x <> S754_zero true -> (x + 0)%float = x.
Proof.
  intros Hx. apply FloatAxioms.Prim2SF_inj. rewrite FloatAxioms.add_spec, Prim2SF_zero.
  destruct (Prim2SF x) as [[]|[]| |]; try reflexivity. congruence.
Qed.

(** X16. Adding an item changes no total: the item that addItem appends
    has quantity 0 and price 0, and the subtotal, which is never the
    negative zero, is unchanged by adding their product; so are all the
    amounts computed from it. *)
Theorem blank_item_keeps_totals now invoice :
  calculations (handleAddItem now invoice) = calculations invoice.
Proof.
  assert (E : subtotal (calculations (handleAddItem now invoice)) =
              subtotal (calculations invoice)).
  { cbn [calculations subtotal]. rewrite items_after_add, fold_left_app.
    cbn [fold_left Item.quantity Item.price].
    replace (0 * 0)%float with 0%float by (vm_compute; reflexivity).
    apply add_zero, subtotal_not_negative_zero. }
  unfold calculations in *. cbn [subtotal] in E. rewrite E.
  unfold handleAddItem. destruct invoice; reflexivity.
Qed.

Lemma isFinite_spec x :
  JS.isFinite x =
  match Prim2SF x with
  | S754_zero _ | S754_finite _ _ _ => true
  | _ => false
  end.
Proof.
  unfold JS.isFinite, is_finite, is_nan, is_infinity.
  rewrite !FloatAxioms.eqb_spec, !FloatAxioms.abs_spec, Prim2SF_infinity.
  destruct (Prim2SF x) as [s|s| |s m e]; cbn [SFabs];
    rewrite ?SFeqb_finite_refl; try destruct s; reflexivity.
Qed.

(** A finite number times zero is a zero, of the number's sign. *)
Lemma times_zero x :
  JS.isFinite x = true ->
  exists s, Prim2SF (x * 0)%float = S754_zero s /\
            (Prim2SF x = S754_zero false -> s = false).
Proof.
  rewrite isFinite_spec, FloatAxioms.mul_spec, Prim2SF_zero.
  destruct (Prim2SF x) as [s|s| |s m e]; try discriminate; intros _.
  - exists (xorb s false). split; [reflexivity|]. now intros [= ->].
  - exists (xorb s false). split; [reflexivity|]. discriminate.
Qed.

(** X17. Without discount and taxes the total is the subtotal, to the
    bit: with the five rates at 0 and a finite subtotal, the discount and
    the tax amount are zero and the total equals the subtotal (with an
    infinite subtotal the amounts are NaN). *)
Theorem no_rates_no_drift invoice :
  let c := calculations invoice in
  Invoice.discountRate invoice = 0%float -> Invoice.cgstRate invoice = 0%float ->
  Invoice.sgstRate invoice = 0%float -> Invoice.igstRate invoice = 0%float ->
  Invoice.taxRate invoice = 0%float ->
  JS.isFinite (subtotal c) = true ->
  total c = subtotal c /\
  (discountAmount c =? 0)%float = true /\
  (taxAmount c =? 0)%float = true.
Proof.
  cbv zeta. intros Hd Hc Hs Hi Ht Hf.
  pose proof (subtotal_not_negative_zero invoice) as Hnz.
  unfold calculations in *. cbn [subtotal total discountAmount taxAmount] in *.
  rewrite Hd, Hc, Hs, Hi, Ht.
  set (sub := fold_left _ _ _) in *.
  replace (0 / 100)%float with 0%float by (vm_compute; reflexivity).
  destruct (times_zero sub Hf) as (s & Hz & Hs0).
  set (z := (sub * 0)%float) in *.
  assert (Etaxable : (sub - z)%float = sub).
  { apply FloatAxioms.Prim2SF_inj. rewrite FloatAxioms.sub_spec, Hz.
    rewrite isFinite_spec in Hf.
    destruct (Prim2SF sub) as [s'|s'| |s' m e]; try discriminate; [|reflexivity].
    destruct s'; [congruence|]. now rewrite Hs0. }
  rewrite Etaxable. fold z.
  assert (Ezz : (z + z)%float = z).
  { apply FloatAxioms.Prim2SF_inj. rewrite FloatAxioms.add_spec, Hz. now destruct s. }
  rewrite !Ezz.
  assert (Ezero : (z =? 0)%float = true).
  { rewrite FloatAxioms.eqb_spec, Hz. now destruct s. }
  split; [|split; exact Ezero].
  apply FloatAxioms.Prim2SF_inj. rewrite FloatAxioms.add_spec, Hz.
  rewrite isFinite_spec in Hf.
  destruct (Prim2SF sub) as [s'|s'| |s' m e]; try discriminate; [|reflexivity].
  destruct s'; [congruence|]. now rewrite Hs0.
Qed.

Lemma no_rates_no_drift_witness :
  let invoice :=
    handleInvoiceChange (Set_items [Item.mk 1 "" 3 0.1 ""; Item.mk 2 "" 1 0.2 ""])
      getInitialInvoiceState in
  total (calculations invoice) = subtotal (calculations invoice).
Proof.
  cbv zeta.
  exact (proj1 (no_rates_no_drift
    (handleInvoiceChange (Set_items [Item.mk 1 "" 3 0.1 ""; Item.mk 2 "" 1 0.2 ""])
       getInitialInvoiceState)
    eq_refl eq_refl eq_refl eq_refl eq_refl eq_refl)).
Defined.

End Totals.

(** *** The calendar *)

(** The dates of the platform at work: the epoch, a local midnight east of
    UTC, the day after a leap day, a weekday, the end of the range of time
    values, a year before the common era, a year below 100 read as one of
    the twentieth century, and a click on the first of a month east of
    UTC. *)
Example date_examples :
  Date.new 0 1970 0 1 = Some 0%Z /\
  Date.new IST 2024 0 15 = Some 1705257000000%Z /\
  toISOString (Date.new IST 2024 0 15) = Some "2024-01-14T18:30:00.000Z" /\
  toISOString (Date.new 0 2024 1 30) = Some "2024-03-01T00:00:00.000Z" /\
  Date.getDay 0 (Date.new 0 2000 1 29) = Some 2%Z /\
  toISOString (Date.new 0 275760 8 13) = Some "+275760-09-13T00:00:00.000Z" /\
  toISOString (Date.new 0 275760 8 14) = None /\
  toISOString (Date.new 0 (-5) 0 1) = Some "-000005-01-01T00:00:00.000Z" /\
  toISOString (changeMonth 0 1 (changeMonth 0 (-1) (Date.new 0 100 0 1))) =
    Some "2000-01-01T00:00:00.000Z" /\
  handleDateClick IST (fun date => date) (Date.new IST 2024 0 1) 1 = Some "2023-12-31".
Proof. vm_compute. repeat split. Qed.

Section Calendar.

Local Open Scope Z_scope.

Implicit Types (y d tv Y M dt day : Z).

Lemma DayFromYear_succ y :
  Date.DayFromYear (y + 1) = Date.DayFromYear y + Date.DaysInYear y.
Proof.
  unfold Date.DayFromYear, Date.DaysInYear.
  destruct (Z.eqb_spec (y mod 4) 0), (Z.eqb_spec (y mod 100) 0), (Z.eqb_spec (y mod 400) 0);
    cbn [negb]; Z.to_euclidean_division_equations; lia.
Qed.

Lemma DayFromYear_mono y y' : y <= y' -> Date.DayFromYear y <= Date.DayFromYear y'.
Proof. unfold Date.DayFromYear. intros H. Z.to_euclidean_division_equations; lia. Qed.

Lemma YearFromDay_spec d :
  Date.DayFromYear (Date.YearFromDay d) <= d < Date.DayFromYear (Date.YearFromDay d + 1).
Proof.
  unfold Date.YearFromDay.
  set (y := 1970 + d * 400 / 146097).
  destruct (Z.leb_spec (Date.DayFromYear (y + 1)) d) as [H1|H1].
  - split; [exact H1|]. unfold Date.DayFromYear in *. subst y.
    Z.to_euclidean_division_equations; lia.
  - destruct (Z.leb_spec (Date.DayFromYear y) d) as [H0|H0].
    + split; assumption.
    + replace (y - 1 + 1) with y by lia. split; [|exact H0].
      unfold Date.DayFromYear in *. subst y.
      Z.to_euclidean_division_equations; lia.
Qed.

(** The year of a day is the one year that has started and whose
    successor has not. *)
Lemma YearFromDay_unique d y :
  Date.DayFromYear y <= d < Date.DayFromYear (y + 1) -> Date.YearFromDay d = y.
Proof.
  intros [Hlo Hhi]. pose proof (YearFromDay_spec d) as [Hlo' Hhi'].
  destruct (Z.lt_trichotomy (Date.YearFromDay d) y) as [H|[H|H]]; [|exact H|].
  - pose proof (DayFromYear_mono (Date.YearFromDay d + 1) y ltac:(lia)). lia.
  - pose proof (DayFromYear_mono (y + 1) (Date.YearFromDay d) ltac:(lia)). lia.
Qed.

Lemma leap_year y :
  Date.DaysInYear y =
  if ((y mod 4 =? 0) && negb (y mod 100 =? 0)) || (y mod 400 =? 0) then 366 else 365.
Proof.
  unfold Date.DaysInYear.
  destruct (Z.eqb_spec (y mod 4) 0), (Z.eqb_spec (y mod 100) 0), (Z.eqb_spec (y mod 400) 0);
    cbn; try reflexivity; exfalso; Z.to_euclidean_division_equations; lia.
Qed.

Lemma month_cases M : 0 <= M <= 11 ->
  M = 0 \/ M = 1 \/ M = 2 \/ M = 3 \/ M = 4 \/ M = 5 \/ M = 6 \/ M = 7 \/ M = 8 \/
  M = 9 \/ M = 10 \/ M = 11.
Proof. lia. Qed.

(** The fields of the day that [MakeDay] makes of a year, a month and a
    date of the month. *)
Lemma fields_of_day Y M dt tv :
  0 <= M <= 11 -> 1 <= dt <= month_length Y M ->
  Date.Day tv = Date.first_day Y M + dt - 1 ->
  Date.YearFromTime tv = Y /\ Date.MonthFromTime tv = M /\ Date.DateFromTime tv = dt.
Proof.
  intros HM Hdt Hday.
  pose proof (leap_year Y) as Hleap.
  unfold Date.first_day, month_length in *. rewrite Hleap in *.
  set (L := ((Y mod 4 =? 0) && negb (Y mod 100 =? 0)) || (Y mod 400 =? 0)) in *.
  assert (HY : Date.YearFromTime tv = Y).
  { unfold Date.YearFromTime. rewrite Hday. apply YearFromDay_unique.
    rewrite DayFromYear_succ, Hleap.
    destruct (month_cases M HM) as [->|[->|[->|[->|[->|[->|[->|[->|[->|[->|[->| ->]]]]]]]]]]];
      destruct L; cbn in Hdt |- *; lia. }
  assert (Hd : Date.DayWithinYear tv =
               Date.Day tv - Date.DayFromYear Y)
    by (unfold Date.DayWithinYear; now rewrite HY).
  assert (HL : Date.InLeapYear tv = if L then 1 else 0)
    by (unfold Date.InLeapYear; rewrite HY, Hleap; now destruct L).
  split; [exact HY|].
  unfold Date.DateFromTime, Date.MonthFromTime. rewrite Hd, HL, Hday.
  destruct (month_cases M HM) as [->|[->|[->|[->|[->|[->|[->|[->|[->|[->|[->| ->]]]]]]]]]]];
    destruct L; cbn in Hdt |- *;
    repeat match goal with
           | |- context [(?a <? ?b)] => destruct (Z.ltb_spec a b); try lia
           end; split; lia.
Qed.

Lemma first_day_bounds Y M :
  0 <= M <= 11 ->
  Date.DayFromYear Y <= Date.first_day Y M <= Date.DayFromYear Y + 335.
Proof.
  intros HM. unfold Date.first_day.
  set (L := Date.DaysInYear Y =? 366).
  destruct (month_cases M HM) as [->|[->|[->|[->|[->|[->|[->|[->|[->|[->|[->| ->]]]]]]]]]]];
    destruct L; lia.
Qed.

(** The month after a month starts when the month is over. *)
Lemma first_day_next Y M :
  0 <= M <= 11 ->
  Date.first_day (Y + (M + 1) / 12) ((M + 1) mod 12) =
  Date.first_day Y M + month_length Y M.
Proof.
  intros HM. pose proof (leap_year Y) as Hleap.
  pose proof (DayFromYear_succ Y) as Hsucc. rewrite Hleap in Hsucc.
  set (L := ((Y mod 4 =? 0) && negb (Y mod 100 =? 0)) || (Y mod 400 =? 0)) in *.
  destruct (month_cases M HM) as [->|[->|[->|[->|[->|[->|[->|[->|[->|[->|[->| ->]]]]]]]]]]].
  all: match goal with
       | |- context [Date.first_day (_ + ?q) ?r] =>
           let q' := eval vm_compute in q in
           let r' := eval vm_compute in r in
           change q with q'; change r with r'
       end.
  all: rewrite ?Z.add_0_r; unfold Date.first_day, month_length; rewrite ?Hleap;
    fold L; destruct L; cbn [Z.eqb Pos.eqb]; lia.
Qed.

Lemma Day_of_midnight D : Date.Day (D * Date.msPerDay) = D.
Proof. unfold Date.Day. apply Z.div_mul. discriminate. Qed.

Lemma Day_before_midnight D z :
  0 < z < Date.msPerDay -> Date.Day (D * Date.msPerDay - z) = D - 1.
Proof.
  unfold Date.Day, Date.msPerDay. intros Hz. Z.to_euclidean_division_equations; lia.
Qed.

Lemma Day_after_midnight D z :
  0 <= z < Date.msPerDay -> Date.Day (D * Date.msPerDay + z) = D.
Proof.
  unfold Date.Day, Date.msPerDay. intros Hz. Z.to_euclidean_division_equations; lia.
Qed.

Section Zone.

Variable LocalTZA : Z.
Hypothesis zone : - Date.msPerDay < LocalTZA < Date.msPerDay.

Lemma new_value Y M dt :
  100 <= Y <= 9999 -> -12 <= M <= 23 -> -31 <= dt <= 62 ->
  Date.new LocalTZA Y M dt = Some (Date.MakeDay Y M dt * Date.msPerDay - LocalTZA).
Proof.
  intros HY HM Hdt. unfold Date.new.
  destruct (Z.leb_spec Y 99); [lia|]. rewrite andb_false_r.
  unfold Date.MakeDate, Date.MakeTime, Date.UTC, Date.TimeClip.
  rewrite !Z.mul_0_l, !Z.add_0_r.
  destruct (Z.ltb_spec 8640000000000000
              (Z.abs (Date.MakeDay Y M dt * Date.msPerDay - LocalTZA))) as [Hclip|_];
    [|reflexivity].
  exfalso. unfold Date.MakeDay in Hclip.
  pose proof (first_day_bounds (Y + M / 12) (M mod 12)
                ltac:(pose proof (Z.mod_pos_bound M 12); lia)).
  assert (98 <= Y + M / 12 <= 10001) by (Z.to_euclidean_division_equations; lia).
  pose proof (DayFromYear_mono 98 (Y + M / 12) ltac:(lia)).
  pose proof (DayFromYear_mono (Y + M / 12) 10001 ltac:(lia)).
  change (Date.DayFromYear 98) with (-683733) in *.
  change (Date.DayFromYear 10001) with 2933263 in *.
  unfold Date.msPerDay in *. lia.
Qed.

Lemma local_day Y M dt :
  Date.Day (Date.LocalTime LocalTZA (Date.MakeDay Y M dt * Date.msPerDay - LocalTZA))
  = Date.MakeDay Y M dt.
Proof.
  unfold Date.LocalTime.
  replace (Date.MakeDay Y M dt * Date.msPerDay - LocalTZA + LocalTZA)
    with (Date.MakeDay Y M dt * Date.msPerDay) by lia.
  apply Day_of_midnight.
Qed.

(** The local fields of [new Date (Y, M, dt)] for a date of the month. *)
Lemma local_fields Y M dt :
  100 <= Y <= 9999 -> 0 <= M <= 11 -> 1 <= dt <= month_length Y M ->
  Date.getFullYear LocalTZA (Date.new LocalTZA Y M dt) = Some Y /\
  Date.getMonth LocalTZA (Date.new LocalTZA Y M dt) = Some M /\
  Date.getDate LocalTZA (Date.new LocalTZA Y M dt) = Some dt.
Proof.
  intros HY HM Hdt.
  assert (month_length Y M <= 31) by
    (unfold month_length;
     destruct (month_cases M HM) as [->|[->|[->|[->|[->|[->|[->|[->|[->|[->|[->| ->]]]]]]]]]]];
     try destruct (_ || _); lia).
  rewrite new_value by lia. cbn.
  destruct (fields_of_day Y M dt
              (Date.LocalTime LocalTZA (Date.MakeDay Y M dt * Date.msPerDay - LocalTZA))
              HM Hdt) as (H1 & H2 & H3).
  { rewrite local_day. unfold Date.MakeDay.
    rewrite Z.div_small, Z.mod_small, Z.add_0_r by lia. reflexivity. }
  now rewrite H1, H2, H3.
Qed.

End Zone.

Lemma four_digits_ok : forallb four_digits_checked (seqZ 0 10000) = true.
Proof. vm_compute. reflexivity. Qed.

Lemma two_digits_ok : forallb two_digits_checked (seqZ 0 100) = true.
Proof. vm_compute. reflexivity. Qed.

Lemma four_digits y :
  0 <= y <= 9999 ->
  Dec.ToZeroPaddedDecimalString y 4 =
  string_of_list_ascii [digit (y / 1000); digit (y / 100); digit (y / 10); digit y].
Proof.
  intros Hy. apply String.eqb_eq.
  apply (forallb_seqZ four_digits_checked 10000 four_digits_ok). lia.
Qed.

Lemma two_digits k :
  0 <= k <= 99 ->
  Dec.ToZeroPaddedDecimalString k 2 = string_of_list_ascii [digit (k / 10); digit k].
Proof.
  intros Hk. apply String.eqb_eq.
  apply (forallb_seqZ two_digits_checked 100 two_digits_ok). lia.
Qed.

Lemma digit_not_T k : Ascii.eqb (digit k) "T" = false.
Proof.
  unfold digit. pose proof (Z.mod_pos_bound k 10 ltac:(lia)) as H.
  set (r := k mod 10) in *.
  assert (r = 0 \/ r = 1 \/ r = 2 \/ r = 3 \/ r = 4 \/ r = 5 \/ r = 6 \/ r = 7 \/
          r = 8 \/ r = 9) as [->|[->|[->|[->|[->|[->|[->|[->|[->| ->]]]]]]]]] by lia;
    reflexivity.
Qed.

(** The date part of the ISO text of a time value, from its fields. *)
Lemma iso_date_part tv Y M dt :
  0 <= Y <= 9999 -> 0 <= M <= 11 -> 1 <= dt <= 31 ->
  Date.YearFromTime tv = Y -> Date.MonthFromTime tv = M -> Date.DateFromTime tv = dt ->
  exists iso, toISOString (Some tv) = Some iso /\ split_0 "T" iso = iso_date Y M dt.
Proof.
  intros HY HM Hdt EY EM Ed. eexists. split; [reflexivity|].
  cbn [mbind option_bind]. rewrite EY, EM, Ed.
  destruct (Z.leb_spec 0 Y); [|lia]. destruct (Z.leb_spec Y 9999); [|lia]. cbn [andb].
  rewrite four_digits, !(two_digits (M + 1)), !(two_digits dt) by lia.
  unfold iso_date. cbn [string_of_list_ascii String.append split_0].
  rewrite !digit_not_T. reflexivity.
Qed.

Section Clicks.

Variable LocalTZA : Z.
Context {R : Type}.
Variable onDateSelect : string -> R.

Lemma month_length_bound Y M : 0 <= M <= 11 -> 28 <= month_length Y M <= 31.
Proof.
  intros HM. unfold month_length.
  destruct (month_cases M HM) as [->|[->|[->|[->|[->|[->|[->|[->|[->|[->|[->| ->]]]]]]]]]]];
    try destruct (_ || _); lia.
Qed.

(** X18. The date that a click in the calendar selects depends on the
    time zone.  The calendar showing a month of a year from 100 to 9999:
    at UTC and west of it a click on a day of the month selects that day,
    as [YYYY-MM-DD]; east of UTC a click on a day from the second on
    selects the day before it, since the local midnight of the day is
    written as a UTC date. *)
Theorem handleDateClick_zone Y M day :
  100 <= Y <= 9999 -> 0 <= M <= 11 ->
  let currentMonth := Date.new LocalTZA Y M 1 in
  (- Date.msPerDay < LocalTZA <= 0 -> 1 <= day <= month_length Y M ->
   handleDateClick LocalTZA onDateSelect currentMonth day =
     Some (onDateSelect (iso_date Y M day))) /\
  (0 < LocalTZA < Date.msPerDay -> 2 <= day <= month_length Y M ->
   handleDateClick LocalTZA onDateSelect currentMonth day =
     Some (onDateSelect (iso_date Y M (day - 1)))).
Proof.
  intros HY HM. cbv zeta. pose proof (month_length_bound Y M HM) as Hlen.
  assert (Hclick : forall dt,
    - Date.msPerDay < LocalTZA < Date.msPerDay ->
    1 <= day <= month_length Y M -> 1 <= dt <= month_length Y M ->
    Date.Day (Date.MakeDay Y M day * Date.msPerDay - LocalTZA) =
      Date.first_day Y M + dt - 1 ->
    handleDateClick LocalTZA onDateSelect (Date.new LocalTZA Y M 1) day =
      Some (onDateSelect (iso_date Y M dt))).
  { intros dt Hzone Hday Hdt HD. unfold handleDateClick.
    destruct (local_fields LocalTZA Hzone Y M 1 HY HM ltac:(lia)) as (-> & -> & _).
    cbn [mbind option_bind]. rewrite new_value by (try assumption; lia).
    destruct (fields_of_day Y M dt _ HM Hdt HD) as (H1 & H2 & H3).
    destruct (iso_date_part _ Y M dt ltac:(lia) HM ltac:(lia) H1 H2 H3) as (iso & -> & Hs).
    cbn [mbind option_bind]. now rewrite Hs. }
  assert (HMD : forall dt, Date.MakeDay Y M dt = Date.first_day Y M + dt - 1).
  { intros dt. unfold Date.MakeDay. now rewrite Z.div_small, Z.mod_small, Z.add_0_r by lia. }
  split.
  - intros Hz Hday. apply Hclick; [lia | exact Hday | exact Hday |].
    replace (Date.MakeDay Y M day * Date.msPerDay - LocalTZA)
      with (Date.MakeDay Y M day * Date.msPerDay + - LocalTZA) by lia.
    rewrite Day_after_midnight by lia. apply HMD.
  - intros Hz Hday. apply Hclick; [lia | lia | lia |].
    rewrite Day_before_midnight by lia. rewrite HMD. lia.
Qed.

End Clicks.

Lemma handleDateClick_zone_witness :
  handleDateClick IST (fun date => date) (Date.new IST 2024 0 1) 15 = Some "2024-01-14" /\
  handleDateClick 0 (fun date => date) (Date.new 0 2024 0 1) 15 = Some "2024-01-15".
Proof.
  split.
  - refine (proj2 (handleDateClick_zone IST (fun date => date) 2024 0 15
                     ltac:(lia) ltac:(lia)) _ _); vm_compute; split; congruence.
  - refine (proj1 (handleDateClick_zone 0 (fun date => date) 2024 0 15
                     ltac:(lia) ltac:(lia)) _ _); vm_compute; split; congruence.
Defined.

Section Months.

Variable LocalTZA : Z.
Hypothesis zone : - Date.msPerDay < LocalTZA < Date.msPerDay.

Lemma changeMonth_new Y M offset :
  100 <= Y <= 9999 -> 0 <= M <= 11 ->
  changeMonth LocalTZA offset (Date.new LocalTZA Y M 1) =
  Date.new LocalTZA Y (M + offset) 1.
Proof.
  intros HY HM. unfold changeMonth.
  pose proof (month_length_bound Y M HM).
  destruct (local_fields LocalTZA zone Y M 1 HY HM ltac:(lia)) as (-> & -> & _).
  reflexivity.
Qed.

Lemma new_normalised Y M :
  100 <= Y <= 9999 -> -12 <= M <= 23 ->
  Date.new LocalTZA Y M 1 =
  Some (Date.first_day (Y + M / 12) (M mod 12) * Date.msPerDay - LocalTZA) /\
  Date.getFullYear LocalTZA (Date.new LocalTZA Y M 1) = Some (Y + M / 12) /\
  Date.getMonth LocalTZA (Date.new LocalTZA Y M 1) = Some (M mod 12) /\
  Date.getDate LocalTZA (Date.new LocalTZA Y M 1) = Some 1.
Proof.
  intros HY HM. rewrite new_value by (try assumption; lia).
  assert (E : Date.MakeDay Y M 1 = Date.first_day (Y + M / 12) (M mod 12))
    by (unfold Date.MakeDay; lia).
  split; [now rewrite E|]. cbn.
  pose proof (Z.mod_pos_bound M 12 ltac:(lia)) as Hmod.
  pose proof (month_length_bound (Y + M / 12) (M mod 12) ltac:(lia)).
  destruct (fields_of_day (Y + M / 12) (M mod 12) 1
              (Date.LocalTime LocalTZA (Date.MakeDay Y M 1 * Date.msPerDay - LocalTZA))
              ltac:(lia) ltac:(lia)) as (H1 & H2 & H3).
  { rewrite local_day, E. lia. }
  now rewrite H1, H2, H3.
Qed.

(** X19. changeMonth moves the calendar by months and carries into the
    year: from the first of a month it gives the first of the month
    [offset] months away, December being followed by January of the next
    year and January preceded by December of the year before; and going
    back by what it went forward returns to the month it came from (for
    years from 101 to 9998; a year below 100 is read as a year of the
    twentieth century). *)
Theorem changeMonth_steps Y M offset :
  100 <= Y <= 9999 -> 0 <= M <= 11 -> -12 <= offset <= 12 ->
  let next := changeMonth LocalTZA offset (Date.new LocalTZA Y M 1) in
  Date.getFullYear LocalTZA next = Some (Y + (M + offset) / 12) /\
  Date.getMonth LocalTZA next = Some ((M + offset) mod 12) /\
  Date.getDate LocalTZA next = Some 1 /\
  (101 <= Y <= 9998 ->
   changeMonth LocalTZA (- offset) next = Date.new LocalTZA Y M 1).
Proof.
  intros HY HM Hoff. cbv zeta. rewrite changeMonth_new by assumption.
  destruct (new_normalised Y (M + offset) HY ltac:(lia)) as (Hnew & H1 & H2 & H3).
  split; [exact H1|]. split; [exact H2|]. split; [exact H3|].
  intros HY'. unfold changeMonth. rewrite H1, H2. cbn [mbind option_bind].
  set (q := (M + offset) / 12). set (r := (M + offset) mod 12).
  assert (Hq : -1 <= q <= 1 /\ 0 <= r <= 11 /\ M + offset = 12 * q + r)
    by (subst q r; Z.to_euclidean_division_equations; lia).
  destruct (new_normalised (Y + q) (r + - offset) ltac:(lia) ltac:(lia)) as (-> & _).
  destruct (new_normalised Y M HY ltac:(lia)) as (-> & _).
  replace ((r + - offset) / 12) with (- q) by (Z.to_euclidean_division_equations; lia).
  replace ((r + - offset) mod 12) with M by (Z.to_euclidean_division_equations; lia).
  rewrite Z.div_small, Z.mod_small, Z.add_0_r by lia.
  now replace (Y + q + - q) with Y by lia.
Qed.

(** X20. The grid of the calendar is that of the month: as many days as
    the month has in the Gregorian calendar, numbered from 1, after as
    many blanks as the weekday of the first, so that every day stands in
    the column of its weekday. *)
Theorem calendar_grid Y M :
  100 <= Y <= 9999 -> 0 <= M <= 11 ->
  let currentMonth := Date.new LocalTZA Y M 1 in
  exists w,
    0 <= w <= 6 /\
    firstDayOfMonth LocalTZA currentMonth = Some w /\
    blanks LocalTZA currentMonth = Some (replicate (Z.to_nat w) None) /\
    daysInMonth LocalTZA currentMonth = Some (month_length Y M) /\
    days LocalTZA currentMonth = Some (seqZ 1 (month_length Y M)) /\
    forall day, 1 <= day <= month_length Y M ->
      Date.getDay LocalTZA (Date.new LocalTZA Y M day) = Some ((w + (day - 1)) mod 7).
Proof.
  intros HY HM. cbv zeta. pose proof (month_length_bound Y M HM) as Hlen.
  assert (HMD : forall dt, Date.MakeDay Y M dt = Date.first_day Y M + dt - 1).
  { intros dt. unfold Date.MakeDay. now rewrite Z.div_small, Z.mod_small, Z.add_0_r by lia. }
  assert (Hday : forall day, 1 <= day <= month_length Y M ->
            Date.getDay LocalTZA (Date.new LocalTZA Y M day) =
            Some ((Date.first_day Y M + day - 1 + 4) mod 7)).
  { intros day Hd. rewrite new_value by (try assumption; lia). cbn.
    unfold Date.WeekDay. now rewrite local_day, HMD. }
  assert (Hfirst : firstDayOfMonth LocalTZA (Date.new LocalTZA Y M 1) =
                   Some ((Date.first_day Y M + 4) mod 7)).
  { unfold firstDayOfMonth.
    destruct (local_fields LocalTZA zone Y M 1 HY HM ltac:(lia)) as (-> & -> & _).
    cbn [mbind option_bind]. rewrite Hday by lia. do 2 f_equal. lia. }
  assert (Hdays : daysInMonth LocalTZA (Date.new LocalTZA Y M 1) = Some (month_length Y M)).
  { unfold daysInMonth.
    destruct (local_fields LocalTZA zone Y M 1 HY HM ltac:(lia)) as (-> & -> & _).
    cbn [mbind option_bind]. rewrite new_value by (try assumption; lia). cbn.
    destruct (fields_of_day Y M (month_length Y M)
                (Date.LocalTime LocalTZA
                   (Date.MakeDay Y (M + 1) 0 * Date.msPerDay - LocalTZA))
                HM ltac:(lia)) as (_ & _ & H3).
    { rewrite local_day. unfold Date.MakeDay. rewrite first_day_next by exact HM. lia. }
    now rewrite H3. }
  exists ((Date.first_day Y M + 4) mod 7).
  split; [pose proof (Z.mod_pos_bound (Date.first_day Y M + 4) 7); lia|].
  split; [exact Hfirst|].
  split; [unfold blanks; now rewrite Hfirst|].
  split; [exact Hdays|].
  split; [unfold days; now rewrite Hdays|].
  intros day Hd. rewrite Hday by exact Hd. f_equal.
  rewrite Zplus_mod_idemp_l. f_equal. lia.
Qed.

End Months.

Lemma changeMonth_steps_witness :
  Date.getFullYear IST (changeMonth IST 1 (Date.new IST 2024 11 1)) = Some 2025%Z /\
  Date.getMonth IST (changeMonth IST 1 (Date.new IST 2024 11 1)) = Some 0%Z.
Proof.
  pose proof (changeMonth_steps IST ltac:(vm_compute; split; reflexivity) 2024 11 1
                ltac:(lia) ltac:(lia) ltac:(lia)) as (H1 & H2 & _).
  split; [exact H1 | exact H2].
Defined.

Lemma calendar_grid_witness :
  daysInMonth IST (Date.new IST 2024 1 1) = Some 29%Z.
Proof.
  destruct (calendar_grid IST ltac:(vm_compute; split; reflexivity) 2024 1
              ltac:(lia) ltac:(lia)) as (w & _ & _ & _ & H & _).
  exact H.
Defined.

End Calendar.
